(** * Audit-Tool media store: shallow embedding of [media_store.py] and of
    the overlay helpers of [common.py]

    Strings are Python [str] values restricted to 8-bit characters, the file
    system is a finite map from path strings to file contents, and the
    libraries the store calls (PIL, pillow_heif, hashlib, uuid) are an
    interface whose behaviour the theorems quantify over. *)

From Stdlib Require Import ZArith Ascii Lia.
From Stdlib Require String.
From Stdlib Require Import SpecFloat.
From stdpp Require Import base option list gmap strings pretty.

Local Open Scope Z_scope.

(** ** Python string primitives *)

Module Str.

(** [bool(s)]: a string is truthy when it is not empty. *)
Definition truthy (s : string) : bool :=
  match s with EmptyString => false | String _ _ => true end.

(** [a or b] on strings. *)
Definition or_else (a b : string) : string := if truthy a then a else b.

(** [s.startswith(p)] *)
Fixpoint startswith (s p : string) {struct p} : bool :=
  match p with
  | EmptyString => true
  | String a p' =>
      match s with
      | EmptyString => false
      | String b s' => if Ascii.eqb a b then startswith s' p' else false
      end
  end.

(** [needle in hay] *)
Fixpoint contains (hay needle : string) : bool :=
  startswith hay needle
  || match hay with
     | EmptyString => false
     | String _ hay' => contains hay' needle
     end.

(** [s.endswith(p)]: one of the tails of [s] is [p]. *)
Fixpoint endswith (s p : string) : bool :=
  String.eqb s p
  || match s with
     | EmptyString => false
     | String _ s' => endswith s' p
     end.

(** [c.lower()] on an 8-bit character: the letters A to Z and the letters
    U+00C0 to U+00DE, the multiplication sign U+00D7 apart, have their
    lower case 32 places up; every other character is its own lower
    case. *)
Definition lower_char (c : ascii) : ascii :=
  let n := N_of_ascii c in
  if ((65 <=? n) && (n <=? 90))%N
     || ((192 <=? n) && (n <=? 222) && negb (n =? 215))%N
  then ascii_of_N (n + 32) else c.

(** [s.lower()] *)
Fixpoint lower (s : string) : string :=
  match s with
  | EmptyString => EmptyString
  | String c s' => String (lower_char c) (lower s')
  end.

(** [s.replace(a, b)] for single characters [a] and [b]. *)
Fixpoint replace_char (a b : ascii) (s : string) : string :=
  match s with
  | EmptyString => EmptyString
  | String c s' => String (if Ascii.eqb c a then b else c) (replace_char a b s')
  end.

(** [c.isspace()] for the 8-bit code points. *)
Definition is_space (c : ascii) : bool :=
  let n := N_of_ascii c in
  ((9 <=? n) && (n <=? 13) || (28 <=? n) && (n <=? 32)
   || (n =? 133) || (n =? 160))%N.

(** [s.lstrip(chars)] and [s.rstrip(chars)], the character set given as a
    predicate. *)
Fixpoint lstrip (f : ascii -> bool) (s : string) : string :=
  match s with
  | EmptyString => EmptyString
  | String c s' => if f c then lstrip f s' else s
  end.

Fixpoint rstrip (f : ascii -> bool) (s : string) : string :=
  match s with
  | EmptyString => EmptyString
  | String c s' =>
      match rstrip f s' with
      | EmptyString => if f c then EmptyString else String c EmptyString
      | t => String c t
      end
  end.

Definition strip (f : ascii -> bool) (s : string) : string :=
  rstrip f (lstrip f s).

(** [s.translate(str.maketrans({ch: "_" for ch in bad}))] *)
Fixpoint translate_to (bad : ascii -> bool) (r : ascii) (s : string) : string :=
  match s with
  | EmptyString => EmptyString
  | String c s' => String (if bad c then r else c) (translate_to bad r s')
  end.

(** [s.replace("__", "_")]: the occurrences are taken left to right and do
    not overlap. *)
Fixpoint replace_dunder (s : string) : string :=
  match s with
  | EmptyString => EmptyString
  | String c s1 =>
      match s1 with
      | EmptyString => s
      | String c2 s2 =>
          if Ascii.eqb c "_" && Ascii.eqb c2 "_"
          then String "_" (replace_dunder s2)
          else String c (replace_dunder s1)
      end
  end.

(** [f"{i:03d}"] for a natural number. *)
Definition pad3 (i : nat) : string :=
  if (i <? 10)%nat then "00" +:+ pretty i
  else if (i <? 100)%nat then "0" +:+ pretty i
  else pretty i.

End Str.

(** ** [os.path] on a POSIX host ([posixpath]) *)

Module OsPath.

Definition isabs (p : string) : bool := Str.startswith p "/".

(** [os.path.join(a, b)] *)
Definition join (a b : string) : string :=
  if Str.startswith b "/" then b
  else if negb (Str.truthy a) || Str.endswith a "/" then a +:+ b
  else a +:+ "/" +:+ b.

(** [os.path.basename(p)]: what follows the last separator. *)
Fixpoint basename (p : string) : string :=
  match p with
  | EmptyString => EmptyString
  | String c p' =>
      if Str.contains p' "/" then basename p'
      else if Ascii.eqb c "/" then p' else p
  end.

(** The head that [basename] cuts off, separator included. *)
Fixpoint dirpart (p : string) : string :=
  match p with
  | EmptyString => EmptyString
  | String c p' =>
      if Str.contains p' "/" then String c (dirpart p')
      else if Ascii.eqb c "/" then String c EmptyString else EmptyString
  end.

(** Split one path component at its last dot, provided a character other
    than a dot comes before it ([nd]: one has been seen already). *)
Fixpoint split_component (nd : bool) (s : string) : option (string * string) :=
  match s with
  | EmptyString => None
  | String c s' =>
      match split_component (nd || negb (Ascii.eqb c ".")) s' with
      | Some (root, ext) => Some (String c root, ext)
      | None => if Ascii.eqb c "." && nd then Some (EmptyString, s) else None
      end
  end.

(** [os.path.splitext(p)] *)
Definition splitext (p : string) : string * string :=
  match split_component false (basename p) with
  | Some (root, ext) => (dirpart p +:+ root, ext)
  | None => (p, EmptyString)
  end.

(** [p.split("/")] *)
Fixpoint split_sep (p : string) : list string :=
  match p with
  | EmptyString => [EmptyString]
  | String c p' =>
      if Ascii.eqb c "/" then EmptyString :: split_sep p'
      else match split_sep p' with
           | [] => [String c EmptyString]
           | w :: ws => String c w :: ws
           end
  end.

(** One step of the component loop of [normpath]; [acc] is [new_comps]
    with its last element first. *)
Definition norm_step (initial_slashes : bool) (acc : list string) (comp : string)
  : list string :=
  if String.eqb comp EmptyString || String.eqb comp "." then acc
  else if negb (String.eqb comp "..") then comp :: acc
  else match acc with
       | [] => if initial_slashes then acc else comp :: acc
       | top :: rest => if String.eqb top ".." then comp :: acc else rest
       end.

(** ["/".join(comps)] *)
Fixpoint join_sep (comps : list string) : string :=
  match comps with
  | [] => EmptyString
  | [c] => c
  | c :: cs => c +:+ "/" +:+ join_sep cs
  end.

(** [os.path.normpath(p)] *)
Definition normpath (p : string) : string :=
  if negb (Str.truthy p) then "."
  else
    let initial := Str.startswith p "/" in
    let two := initial && Str.startswith p "//" && negb (Str.startswith p "///") in
    let comps := rev (fold_left (norm_step initial) (split_sep p) []) in
    let body := join_sep comps in
    let res := if initial then (if two then "//" else "/") +:+ body else body in
    Str.or_else res ".".

End OsPath.


(** ** Reference classification ([media_store.py], MEDIA REFERENCE DETECTION) *)

Definition backslash : ascii := ascii_of_N 92.

(** The directory name [d] followed by a backslash, and the same between
    two backslashes. *)
Definition dir_bs (d : string) : string := d +:+ String backslash EmptyString.
Definition bs_dir_bs (d : string) : string := String backslash (dir_bs d).

(** The test the three predicates share: a file-name prefix, the directory
    name in front, or the directory name between two equal separators. *)
Definition ref_has_kind (prefix dir ref : string) : bool :=
  Str.startswith ref prefix
  || Str.startswith ref (dir +:+ "/")
  || Str.startswith ref (dir_bs dir)
  || Str.contains ref ("/" +:+ dir +:+ "/")
  || Str.contains ref (bs_dir_bs dir).

(** [is_base_image_ref] *)
Definition is_base_image_ref (ref : string) : bool :=
  if negb (Str.truthy ref) then false
  else ref_has_kind "MEDIA_IMG__" "base_images" ref.

(** [is_base_video_ref] *)
Definition is_base_video_ref (ref : string) : bool :=
  if negb (Str.truthy ref) then false
  else ref_has_kind "MEDIA_VID__" "base_videos" ref.

(** [is_overlay_ref] *)
Definition is_overlay_ref (ref : string) : bool :=
  if negb (Str.truthy ref) then false
  else ref_has_kind "CANVAS__" "overlays" ref.

(** ** File names *)

Definition OVERLAY_FEHLERBILD : string := "FEHLERBILD".
Definition OVERLAY_KONTEXT : string := "KONTEXT".
Definition OVERLAY_NACHARBEIT : string := "NACHARBEIT".
Definition OVERLAY_ZUSATZ_FEHLER : string := "ZUSATZ_FEHLER".
Definition OVERLAY_ZUSATZ_NACHARBEIT : string := "ZUSATZ_NACHARBEIT".

Definition JPEG_QUALITY_FULL : Z := 90.
Definition MAX_IMAGE_WIDTH : Z := 1800.

(** The characters [sanitize_filename] replaces: less-than, greater-than,
    colon, double quote, slash, backslash, the letter n, question mark and
    asterisk. The literal [bad] is a raw string, so its backslash-n is a
    backslash and the letter n, not a line feed. *)
Definition bad_char (c : ascii) : bool :=
  existsb (N.eqb (N_of_ascii c)) [60; 62; 58; 34; 47; 92; 110; 63; 42]%N.

Definition is_underscore (c : ascii) : bool := Ascii.eqb c "_".

(** [while "__" in s: s = s.replace("__", "_")], with the number of rounds
    bounded by [fuel]. *)
Fixpoint collapse_dunder (fuel : nat) (s : string) : string :=
  match fuel with
  | O => s
  | S fuel' =>
      if Str.contains s "__" then collapse_dunder fuel' (Str.replace_dunder s)
      else s
  end.

(** [sanitize_filename]; [None] is passed as the empty string. *)
Definition sanitize_filename (s : string) : string :=
  let s1 := Str.strip Str.is_space s in
  let s2 := Str.translate_to bad_char "_" s1 in
  let s3 := collapse_dunder (String.length s2) s2 in
  Str.strip is_underscore s3.

(** [generate_base_media_filename] and [generate_base_video_filename]; [uid]
    is [uuid.uuid4().hex[:16]], drawn by the caller. *)
Definition dotted_lower (extension : string) : string :=
  if Str.startswith extension "." then Str.lower extension
  else "." +:+ Str.lower extension.

Definition generate_base_media_filename (uid extension : string) : string :=
  "MEDIA_IMG__" +:+ uid +:+ dotted_lower extension.

Definition generate_base_video_filename (uid extension : string) : string :=
  "MEDIA_VID__" +:+ uid +:+ dotted_lower extension.

(** The name of [generate_canvas_overlay_filename] without its [.png]. *)
Definition canvas_overlay_stem
  (project_id audit_id nr overlay_type : string) (index : option Z) : string :=
  let p := sanitize_filename (Str.or_else project_id "PROJ") in
  let a := sanitize_filename (Str.or_else audit_id "AUDIT") in
  let n := sanitize_filename (Str.or_else nr "000") in
  let t := sanitize_filename (Str.or_else overlay_type OVERLAY_FEHLERBILD) in
  "CANVAS__PRJ_" +:+ p +:+ "__AUD_" +:+ a +:+ "__NR_" +:+ n +:+ "__TYPE_" +:+ t
  +:+ match index with
      | Some i => "_" +:+ pretty i
      | None => EmptyString
      end.

(** [generate_canvas_overlay_filename] *)
Definition generate_canvas_overlay_filename
  (project_id audit_id nr overlay_type : string) (index : option Z) : string :=
  canvas_overlay_stem project_id audit_id nr overlay_type index +:+ ".png".

(** ** The libraries the store calls *)

(** PIL, pillow_heif and hashlib, taken as an interface. A function that
    can raise returns an option. The two laws are PIL's: converting the
    mode keeps the size, and resampling yields the requested size. *)
Class Libs := {
  image : Type;
  im_size : image -> Z * Z;
  im_open : list Byte.byte -> option image;
  heif_open : list Byte.byte -> option image;
  im_convert : string -> image -> image;
  im_resample : image -> Z -> Z -> image;
  im_mode : image -> string;
  im_jpeg : Z -> bool -> image -> list Byte.byte;
  im_png : image -> list Byte.byte;
  sha256_hex : list Byte.byte -> string;
  json_dump : gmap string string -> gmap string string -> list Byte.byte;
  listdir_order : list string -> list string;
  im_convert_size : forall m i, im_size (im_convert m i) = im_size i;
  im_resample_size : forall i w h, im_size (im_resample i w h) = (w, h);
  sha256_hex_truthy : forall b, Str.truthy (sha256_hex b) = true;
  listdir_order_perm : forall l, listdir_order l ≡ₚ l;
}.

(** [img.resize((w, h), Image.LANCZOS)]: PIL raises [ValueError] unless both
    sides are at least 1. *)
Definition im_resize `{Libs} (img : image) (w h : Z) : option image :=
  if (w <? 1) || (h <? 1) then None else Some (im_resample img w h).

(** ** The file system *)

(** What a file holds: raw bytes, or a registry document that [json.load]
    reads back as its two sections. At the registry path raw bytes stand
    for a file [json.load] cannot read. A file that holds JSON of another
    shape than a registry (a list, [null], a section that is no object) is
    not a content of the model: [json.load] returns such a value as it is
    and the functions that index it raise [TypeError]. *)
Inductive content :=
  | Raw (data : list Byte.byte)
  | Json (images videos : gmap string string).

(** Regular files by path, and the paths the operating system refuses to
    create, overwrite, remove or rename. A file is found under the text of
    its path as the store builds it: the model does not identify a path
    that has [.] or [..] components or doubled separators with the path
    the operating system follows it to, and a directory is no entry, so
    [os.path.exists] is true of more paths than [path_exists]. *)
Record disk := Disk {
  files : gmap string content;
  locked : gset string;
}.

Definition path_exists (d : disk) (p : string) : bool :=
  bool_decide (is_Some (files d !! p)).

Definition read_bytes `{Libs} (c : content) : list Byte.byte :=
  match c with
  | Raw data => data
  | Json i v => json_dump i v
  end.

(** What follows [prefix] in [s], when [s] starts with it. *)
Fixpoint remove_prefix (prefix s : string) {struct prefix} : option string :=
  match prefix with
  | EmptyString => Some s
  | String a prefix' =>
      match s with
      | EmptyString => None
      | String b s' => if Ascii.eqb a b then remove_prefix prefix' s' else None
      end
  end.

(** The name of [p] inside the directory [dir], when [p] lies directly in
    it. *)
Definition entry_name (dir p : string) : option string :=
  match remove_prefix (dir +:+ "/") p with
  | Some n => if Str.truthy n && negb (Str.contains n "/") then Some n else None
  | None => None
  end.

(** [os.listdir(dir)], restricted to regular files. *)
Definition listdir `{Libs} (d : disk) (dir : string) : list string :=
  listdir_order (omap (entry_name dir) (map_to_list (files d)).*1).

(** ** Effects: a state and exception monad over the disk *)

Inductive exn := DecodeError | StorageError.

Inductive outcome (A : Type) :=
  | Ret (a : A)
  | Raise (e : exn).
Arguments Ret {A} a.
Arguments Raise {A} e.

Definition M (A : Type) : Type := disk -> disk * outcome A.

#[global] Instance M_ret : MRet M := fun A a d => (d, Ret a).
#[global] Instance M_bind : MBind M := fun A B f m d =>
  match m d with
  | (d', Ret a) => f a d'
  | (d', Raise e) => (d', Raise e)
  end.

Definition raise {A} (e : exn) : M A := fun d => (d, Raise e).
Definition get_disk : M disk := fun d => (d, Ret d).

(** [try: m except Exception: h] *)
Definition try_except {A} (m : M A) (h : M A) : M A := fun d =>
  match m d with
  | (d', Ret a) => (d', Ret a)
  | (d', Raise _) => h d'
  end.

(** [open(p, "wb").write(...)] and the writers built on it: the file is
    created or replaced, unless the path is refused. *)
Definition write_file (p : string) (c : content) : M unit := fun d =>
  if bool_decide (p ∈ locked d) then (d, Raise StorageError)
  else (Disk (<[p := c]> (files d)) (locked d), Ret tt).

(** [os.remove(p)] *)
Definition os_remove (p : string) : M unit := fun d =>
  if path_exists d p && negb (bool_decide (p ∈ locked d))
  then (Disk (delete p (files d)) (locked d), Ret tt)
  else (d, Raise StorageError).

(** [shutil.move(src, dst)] for a regular file [src] and a free [dst]. *)
Definition shutil_move (src dst : string) : M unit := fun d =>
  match files d !! src with
  | Some c =>
      if bool_decide (src ∈ locked d) || bool_decide (dst ∈ locked d)
      then (d, Raise StorageError)
      else (Disk (<[dst := c]> (delete src (files d))) (locked d), Ret tt)
  | None => (d, Raise StorageError)
  end.

(** ** The media store ([media_store.py]) *)

Section Store.

Context `{Libs} (BASE_DIR : string).

Definition MEDIA_ROOT : string := OsPath.join BASE_DIR "GlobalMedia".
Definition MEDIA_BASE_IMAGES : string := OsPath.join MEDIA_ROOT "base_images".
Definition MEDIA_BASE_VIDEOS : string := OsPath.join MEDIA_ROOT "base_videos".
Definition MEDIA_OVERLAYS : string := OsPath.join MEDIA_ROOT "overlays".
Definition MEDIA_REGISTRY_PATH : string :=
  OsPath.join MEDIA_ROOT "media_registry.json".

Definition get_base_image_path (filename : string) : string :=
  OsPath.join MEDIA_BASE_IMAGES filename.
Definition get_base_video_path (filename : string) : string :=
  OsPath.join MEDIA_BASE_VIDEOS filename.
Definition get_overlay_path (filename : string) : string :=
  OsPath.join MEDIA_OVERLAYS filename.

(** *** Reference resolution *)

(** [if os.path.exists(path): return path], then the rest [k]. *)
Definition try_path (d : disk) (p : string) (k : option string) : option string :=
  if path_exists d p then Some p else k.

(** One of the three blocks of [resolve_media_path] for the new format:
    the kind's directory when the reference has the kind's prefix, then the
    media root. *)
Definition resolve_kind (d : disk) (is_kind : bool) (prefix dir ref : string)
  (k : option string) : option string :=
  if is_kind then
    let k' := try_path d (OsPath.join MEDIA_ROOT ref) k in
    if Str.startswith ref prefix then try_path d (OsPath.join dir ref) k' else k'
  else k.

(** [resolve_media_path]; [root] is the entry of [project_paths] under the
    key root, if any. *)
Definition resolve_media_path (d : disk) (ref : string) (root : option string)
  : option string :=
  if negb (Str.truthy ref) then None
  else if OsPath.isabs ref then
    (if path_exists d ref then Some ref else None)
  else
    resolve_kind d (is_base_image_ref ref) "MEDIA_IMG__" MEDIA_BASE_IMAGES ref
      (resolve_kind d (is_base_video_ref ref) "MEDIA_VID__" MEDIA_BASE_VIDEOS ref
        (resolve_kind d (is_overlay_ref ref) "CANVAS__" MEDIA_OVERLAYS ref
          (try_path d (OsPath.join MEDIA_ROOT ref)
            match root with
            | Some r => try_path d (OsPath.join r ref) None
            | None => None
            end))).

(** [abs_path and os.path.exists(abs_path)] for
    [abs_path = resolve_media_path(ref, {})]. *)
Definition ref_resolves (d : disk) (ref : string) : bool :=
  match resolve_media_path d ref None with
  | Some p => path_exists d p
  | None => false
  end.

(** *** The registry *)

(** The registry document: its images and its videos section. A section
    the document lacks reads as empty, as the code inserts it. *)
Definition registry : Type := gmap string string * gmap string string.

Definition section (media_type : string) (reg : registry) : gmap string string :=
  if String.eqb media_type "image" then reg.1 else reg.2.

Definition set_section (media_type : string) (sec : gmap string string)
  (reg : registry) : registry :=
  if String.eqb media_type "image" then (sec, reg.2) else (reg.1, sec).

(** [_load_media_registry]: the document of the registry file, and the
    empty registry when the file is missing or cannot be read. *)
Definition _load_media_registry (d : disk) : registry :=
  match files d !! MEDIA_REGISTRY_PATH with
  | Some (Json i v) => (i, v)
  | _ => (∅, ∅)
  end.

(** [_save_media_registry] *)
Definition _save_media_registry (reg : registry) : M unit :=
  write_file MEDIA_REGISTRY_PATH (Json reg.1 reg.2).

(** [_compute_file_hash] *)
Definition _compute_file_hash (data : list Byte.byte) : string := sha256_hex data.

(** [_compute_pil_hash] *)
Definition _compute_pil_hash (pil_image : image) : string :=
  _compute_file_hash (im_jpeg 95 false (im_convert "RGB" pil_image)).

(** [_register_media] *)
Definition _register_media (content_hash ref media_type : string) : M unit :=
  d ← get_disk;
  let reg := _load_media_registry d in
  _save_media_registry
    (set_section media_type (<[content_hash := ref]> (section media_type reg)) reg).

Definition image_exts : list string := [".jpg"; ".jpeg"; ".png"].
Definition video_exts : list string := [".mp4"; ".mov"; ".avi"; ".mkv"; ".webm"].

(** [os.path.splitext(fn.lower())[1] in exts] *)
Definition ext_in (exts : list string) (fn : string) : bool :=
  bool_decide ((OsPath.splitext (Str.lower fn)).2 ∈ exts).

(** One round of the loop of a scan: the file [fn] of [dir] is registered
    under its hash [hash_of data] unless the hash is taken; a file that
    cannot be read is skipped. *)
Definition scan_entry (d : disk) (exts : list string) (dir refdir : string)
  (hash_of : list Byte.byte -> option string)
  (sec : gmap string string) (fn : string) : gmap string string :=
  if negb (ext_in exts fn) then sec
  else
    match files d !! OsPath.join dir fn with
    | Some c =>
        match hash_of (read_bytes c) with
        | Some h =>
            let ref := refdir +:+ "/" +:+ fn in
            if Str.truthy h && Str.truthy ref && negb (bool_decide (is_Some (sec !! h)))
            then <[h := ref]> sec
            else sec
        | None => sec
        end
    | None => sec
    end.

(** [_scan_base_images_and_register] *)
Definition _scan_base_images_and_register (d : disk) (reg : registry) : registry :=
  (fold_left
     (scan_entry d image_exts MEDIA_BASE_IMAGES "base_images"
        (fun data => _compute_pil_hash <$> im_open data))
     (listdir d MEDIA_BASE_IMAGES) reg.1,
   reg.2).

(** [_scan_base_videos_and_register] *)
Definition _scan_base_videos_and_register (d : disk) (reg : registry) : registry :=
  (reg.1,
   fold_left
     (scan_entry d video_exts MEDIA_BASE_VIDEOS "base_videos"
        (fun data => Some (_compute_file_hash data)))
     (listdir d MEDIA_BASE_VIDEOS) reg.2).

Definition scan_for (media_type : string) (d : disk) (reg : registry) : registry :=
  if String.eqb media_type "image" then _scan_base_images_and_register d reg
  else _scan_base_videos_and_register d reg.

(** [_ensure_registry_is_populated] *)
Definition _ensure_registry_is_populated (media_type : string) : M registry :=
  d ← get_disk;
  let reg := _load_media_registry d in
  if negb (path_exists d MEDIA_REGISTRY_PATH)
     || bool_decide (section media_type reg = ∅)
  then
    let reg' := scan_for media_type d reg in
    _ ← _save_media_registry reg';
    mret reg'
  else mret reg.

(** [_find_existing_by_hash_or_scan] *)
Definition _find_existing_by_hash_or_scan (content_hash media_type : string)
  : M (option string) :=
  if negb (Str.truthy content_hash) then mret None
  else
    reg ← _ensure_registry_is_populated media_type;
    d ← get_disk;
    let ref := section media_type reg !! content_hash in
    if match ref with
       | Some r => Str.truthy r && ref_resolves d r
       | None => false
       end
    then mret ref
    else
      let reg' := scan_for media_type d reg in
      _ ← _save_media_registry reg';
      mret (section media_type reg' !! content_hash).

(** *** Image normalisation *)

(** [ensure_rgb] *)
Definition ensure_rgb (img : image) : image := im_convert "RGB" img.

(** [decode_upload_to_pil]; [None] when the decoder raises. *)
Definition decode_upload_to_pil (data : list Byte.byte) (filename : string)
  : option image :=
  if Str.endswith (Str.lower filename) ".heic" then ensure_rgb <$> heif_open data
  else ensure_rgb <$> im_open data.

(** The quotient [num / den], for [den > 0], rounded to the nearest
    integer, a tie to the even one. *)
Definition round_half_even (num den : Z) : Z :=
  let q := num / den in
  let r := num mod den in
  if 2 * r <? den then q
  else if den <? 2 * r then q + 1
  else if Z.even q then q else q + 1.

(** Python's [float] is IEEE 754 binary64: 53 bits of mantissa, and the
    exponent of the infinities is 1024. *)
Definition b64_div : spec_float -> spec_float -> spec_float := SFdiv 53 1024.
Definition b64_mul : spec_float -> spec_float -> spec_float := SFmul 53 1024.

(** [float(z)] for an integer: the nearest binary64 number, a tie to the
    even mantissa; [None] for the [OverflowError] of an integer too large. *)
Definition float_of_int (z : Z) : option spec_float :=
  match binary_normalize 53 1024 z 0 false with
  | S754_infinity _ => None
  | f => Some f
  end.

(** [round(x)] for a float: the nearest integer of its exact value, a tie
    to the even one; [None] for the [OverflowError] of an infinity and the
    [ValueError] of a NaN. *)
Definition py_round (x : spec_float) : option Z :=
  match x with
  | S754_zero _ => Some 0
  | S754_finite s m e =>
      let v :=
        if 0 <=? e then Z.pos m * 2 ^ e
        else round_half_even (Z.pos m) (2 ^ (- e)) in
      Some (if s then - v else v)
  | S754_infinity _ | S754_nan => None
  end.

(** [int(round(h * (target_w / float(w))))], evaluated in binary64 as
    Python does; [None] when an integer is too large for a float or [w]
    is 0. *)
Definition scaled_height (w h target_w : Z) : option Z :=
  match float_of_int target_w, float_of_int w, float_of_int h with
  | Some ft, Some fw, Some fh =>
      match fw with
      | S754_zero _ => None
      | _ => py_round (b64_mul fh (b64_div ft fw))
      end
  | _, _, _ => None
  end.

(** [downscale_to_width]; [None] when it raises. *)
Definition downscale_to_width (img : image) (target_w : Z) : option image :=
  let '(w, h) := im_size img in
  if w <=? target_w then Some img
  else
    match scaled_height w h target_w with
    | Some h' => im_resize img target_w h'
    | None => None
    end.

(** The image [pil_to_jpg] encodes: RGB, and narrowed to [MAX_IMAGE_WIDTH]
    inside a [try] whose [except] keeps the image as it is. *)
Definition normalized_image (img : image) : image :=
  let img := ensure_rgb img in
  if negb (MAX_IMAGE_WIDTH =? 0) && (MAX_IMAGE_WIDTH <? (im_size img).1) then
    match downscale_to_width img MAX_IMAGE_WIDTH with
    | Some img' => img'
    | None => img
    end
  else img.

(** The path [pil_to_jpg] writes to. *)
Definition jpg_path (out_path : string) : string :=
  if negb (Str.endswith (Str.lower out_path) ".jpg")
  then (OsPath.splitext out_path).1 +:+ ".jpg"
  else out_path.

(** [pil_to_jpg] *)
Definition pil_to_jpg (img : image) (out_path : string) (quality : Z) : M string :=
  let out_path := jpg_path out_path in
  _ ← write_file out_path (Raw (im_jpeg quality true (normalized_image img)));
  mret out_path.

(** *** Attaching media *)

(** [existing_ref] is set and [resolve_media_path(existing_ref, {})] names
    an existing file. *)
Definition usable (d : disk) (existing_ref : option string) : bool :=
  match existing_ref with
  | Some r => Str.truthy r && ref_resolves d r
  | None => false
  end.

(** The image [_attach_image] works on: [None] when no source is given,
    [Some None] when decoding raises. An uploaded file is given by what its
    [read()] returns and by its [name] attribute, if it has one. *)
Definition attach_source
  (uploaded_file : option (list Byte.byte * option string))
  (uploaded_bytes : option (list Byte.byte)) (uploaded_filename : option string)
  (pil_image : option image) : option (option image) :=
  match pil_image, uploaded_file, uploaded_bytes with
  | Some im, _, _ => Some (Some (im_convert "RGB" im))
  | None, Some (data, name), _ =>
      Some (decode_upload_to_pil data (default "upload.jpg" name))
  | None, None, Some data =>
      Some (decode_upload_to_pil data
              (Str.or_else (default EmptyString uploaded_filename) "upload.jpg"))
  | None, None, None => None
  end.

(** [_attach_image]; [uid] is the value of [uuid.uuid4().hex[:16]] the call
    draws if it stores a new file. *)
Definition _attach_image (uid : string)
  (uploaded_file : option (list Byte.byte * option string))
  (uploaded_bytes : option (list Byte.byte)) (uploaded_filename : option string)
  (pil_image : option image) : M (option string) :=
  match attach_source uploaded_file uploaded_bytes uploaded_filename pil_image with
  | None => mret None
  | Some None => raise DecodeError
  | Some (Some img) =>
      let content_hash := _compute_pil_hash img in
      existing_ref ← _find_existing_by_hash_or_scan content_hash "image";
      d ← get_disk;
      if usable d existing_ref then mret existing_ref
      else
        let new_filename := generate_base_media_filename uid ".jpg" in
        let abs_path := get_base_image_path new_filename in
        _ ← pil_to_jpg img abs_path JPEG_QUALITY_FULL;
        let ref := "base_images/" +:+ new_filename in
        _ ← _register_media content_hash ref "image";
        mret (Some ref)
  end.

(** The bytes and the file name [_attach_video] works on. *)
Definition video_source
  (uploaded_file : option (list Byte.byte * option string))
  (uploaded_bytes : option (list Byte.byte)) (uploaded_filename : option string)
  : option (list Byte.byte * string) :=
  match uploaded_file, uploaded_bytes with
  | Some (data, name), _ => Some (data, default "video.mp4" name)
  | None, Some data =>
      Some (data, Str.or_else (default EmptyString uploaded_filename) "video.mp4")
  | None, None => None
  end.

(** [_attach_video] *)
Definition _attach_video (uid : string)
  (uploaded_file : option (list Byte.byte * option string))
  (uploaded_bytes : option (list Byte.byte)) (uploaded_filename : option string)
  : M (option string) :=
  match video_source uploaded_file uploaded_bytes uploaded_filename with
  | None => mret None
  | Some (data, filename) =>
      let content_hash := _compute_file_hash data in
      existing_ref ← _find_existing_by_hash_or_scan content_hash "video";
      d ← get_disk;
      if usable d existing_ref then mret existing_ref
      else
        let ext := (OsPath.splitext filename).2 in
        let ext := if Str.truthy ext then Str.lower ext else ".mp4" in
        let vid_filename := generate_base_video_filename uid ext in
        let abs_path := get_base_video_path vid_filename in
        _ ← write_file abs_path (Raw data);
        let ref := "base_videos/" +:+ vid_filename in
        _ ← _register_media content_hash ref "video";
        mret (Some ref)
  end.

(** The self-healing step of [attach_media] for an existing reference. *)
Definition reregister (abs_path canonical_ref media_type : string) : M unit :=
  d ← get_disk;
  match files d !! abs_path with
  | None => raise StorageError
  | Some c =>
      if String.eqb media_type "video" then
        let h := _compute_file_hash (read_bytes c) in
        if Str.truthy h then _register_media h canonical_ref "video" else mret tt
      else
        match im_open (read_bytes c) with
        | None => raise DecodeError
        | Some im =>
            let h := _compute_pil_hash im in
            if Str.truthy h then _register_media h canonical_ref "image" else mret tt
        end
  end.

(** [attach_media] *)
Definition attach_media (uid : string)
  (uploaded_file : option (list Byte.byte * option string))
  (uploaded_bytes : option (list Byte.byte)) (uploaded_filename : option string)
  (pil_image : option image) (existing_ref : option string) (media_type : string)
  : M (option string) :=
  match existing_ref with
  | Some r =>
      if Str.truthy r then
        d ← get_disk;
        match resolve_media_path d r None with
        | None => mret None
        | Some abs_path =>
            if negb (path_exists d abs_path) then mret None
            else
              let canonical_ref :=
                if is_base_image_ref r || is_base_video_ref r
                then Str.replace_char backslash "/" r
                else (if String.eqb media_type "video" then "base_videos/"
                      else "base_images/") +:+ OsPath.basename abs_path in
              _ ← try_except (reregister abs_path canonical_ref media_type) (mret tt);
              mret (Some canonical_ref)
        end
      else if String.eqb media_type "video"
      then _attach_video uid uploaded_file uploaded_bytes uploaded_filename
      else _attach_image uid uploaded_file uploaded_bytes uploaded_filename pil_image
  | None =>
      if String.eqb media_type "video"
      then _attach_video uid uploaded_file uploaded_bytes uploaded_filename
      else _attach_image uid uploaded_file uploaded_bytes uploaded_filename pil_image
  end.

(** *** Deleting media *)

(** [delete_global_media] *)
Definition delete_global_media (ref : string) : M bool :=
  if negb (Str.truthy ref) then mret false
  else
    d ← get_disk;
    match resolve_media_path d ref None with
    | Some abs_path =>
        if path_exists d abs_path
        then try_except (_ ← os_remove abs_path; mret true) (mret false)
        else mret false
    | None => mret false
    end.

(** *** Records of the project index *)

(** [d.get(key)] for a string field: [None] when the key is missing or
    null. *)
Definition field_truthy (v : option string) : bool :=
  match v with
  | Some s => Str.truthy s
  | None => false
  end.

(** [a or b] on two such fields. *)
Definition field_or (a b : option string) : option string :=
  if field_truthy a then a else b.

(** An element of [ctx_list], [add_fehler_list] or [add_after_list]. *)
Record entry := Entry {
  e_base : option string;
  e_overlay : option string;
  e_raw : option string;
  e_edited : option string;
}.

(** An element of [index["images"]], as [add_image_record] lays it out.
    The number [r_nr] is a string, or [None] for a record without the key
    [nr]; a record whose [nr] is [null] or no string is not a record of
    the model: sorting such records raises [TypeError]. *)
Record image_record := ImageRecord {
  r_nr : option string;
  r_audit_id : option string;
  r_base_image : option string;
  r_overlay : option string;
  r_raw : option string;
  r_edited : option string;
  r_after_base : option string;
  r_after_overlay : option string;
  r_after_raw : option string;
  r_after_edited : option string;
  r_ctx_list : list entry;
  r_add_fehler_list : list entry;
  r_add_after_list : list entry;
  r_videos : list string;
}.

(** The project index: [index["project"]["project_id"]] and
    [index["images"]]. The records of an index are distinct objects, so a
    record is identified by its position in the list. *)
Record project_index := ProjectIndex {
  ix_project_id : option string;
  ix_images : list image_record;
}.

(** *** Shared media detection *)

(** [v and v.replace(backslash, "/") == norm_ref] *)
Definition same_ref (norm_ref : string) (v : option string) : bool :=
  match v with
  | Some s => Str.truthy s && String.eqb (Str.replace_char backslash "/" s) norm_ref
  | None => false
  end.

(** The body every field test of [is_media_shared] runs. The state is
    [use_count], or [None] once the function has returned [True]. *)
Definition count_use (excluding : bool) (norm_ref : string)
  (st : option nat) (v : option string) : option nat :=
  match st with
  | None => None
  | Some use_count =>
      if same_ref norm_ref v then
        let use_count := S use_count in
        if (0 <? use_count)%nat && excluding then None
        else if (1 <? use_count)%nat then None
        else Some use_count
      else st
  end.

Definition entry_fields (e : entry) : list (option string) :=
  [e_base e; e_raw e; e_edited e].

(** The fields of a record in the order [is_media_shared] reads them. *)
Definition record_fields (r : image_record) : list (option string) :=
  [r_base_image r; r_after_base r; r_raw r; r_edited r; r_after_raw r;
   r_after_edited r]
  ++ flat_map entry_fields (r_ctx_list r)
  ++ flat_map entry_fields (r_add_fehler_list r)
  ++ flat_map entry_fields (r_add_after_list r)
  ++ (Some <$> r_videos r).

(** [is_media_shared]; [exclude_rec] is the position of the excluded record
    in the index, and a position outside the index stands for an object
    that is none of its records. *)
Definition is_media_shared (index : project_index) (media_ref : string)
  (exclude_rec : option nat) : bool :=
  if negb (Str.truthy media_ref) then false
  else if is_overlay_ref media_ref then false
  else
    let norm_ref := Str.replace_char backslash "/" media_ref in
    let excluding := bool_decide (is_Some exclude_rec) in
    let st :=
      fold_left
        (fun st '(i, r) =>
           if bool_decide (exclude_rec = Some i) then st
           else fold_left (count_use excluding norm_ref) (record_fields r) st)
        (imap pair (ix_images index)) (Some O) in
    match st with
    | None => true
    | Some _ => false
    end.

(** [safe_delete_global_media] *)
Definition safe_delete_global_media (index : project_index) (ref : string)
  (current_rec : option nat) : M bool :=
  if negb (Str.truthy ref) then mret false
  else if is_overlay_ref ref then delete_global_media ref
  else if is_media_shared index ref current_rec then mret false
  else delete_global_media ref.

(** *** Canvas overlays *)

(** [rec["overlay"] = v; rec["edited"] = v] *)
Definition set_main_overlay (v : option string) (r : image_record) : image_record :=
  ImageRecord (r_nr r) (r_audit_id r) (r_base_image r) v (r_raw r) v
    (r_after_base r) (r_after_overlay r) (r_after_raw r) (r_after_edited r)
    (r_ctx_list r) (r_add_fehler_list r) (r_add_after_list r) (r_videos r).

(** [rec["after_overlay"] = v; rec["after_edited"] = v] *)
Definition set_after_overlay (v : option string) (r : image_record) : image_record :=
  ImageRecord (r_nr r) (r_audit_id r) (r_base_image r) (r_overlay r) (r_raw r)
    (r_edited r) (r_after_base r) v (r_after_raw r) v
    (r_ctx_list r) (r_add_fehler_list r) (r_add_after_list r) (r_videos r).

(** The three lists of a record after their elements were changed in
    place. *)
Definition set_lists (ctx addf adda : list entry) (r : image_record) : image_record :=
  ImageRecord (r_nr r) (r_audit_id r) (r_base_image r) (r_overlay r) (r_raw r)
    (r_edited r) (r_after_base r) (r_after_overlay r) (r_after_raw r)
    (r_after_edited r) ctx addf adda (r_videos r).

(** [rec["nr"] = nr] *)
Definition set_nr (nr : string) (r : image_record) : image_record :=
  ImageRecord (Some nr) (r_audit_id r) (r_base_image r) (r_overlay r) (r_raw r)
    (r_edited r) (r_after_base r) (r_after_overlay r) (r_after_raw r)
    (r_after_edited r) (r_ctx_list r) (r_add_fehler_list r)
    (r_add_after_list r) (r_videos r).

(** [item["overlay"] = v; item["edited"] = v] *)
Definition set_entry_overlay (v : option string) (e : entry) : entry :=
  Entry (e_base e) v (e_raw e) v.

(** [save_canvas_overlay] *)
Definition save_canvas_overlay (overlay_rgba : image)
  (project_id audit_id nr overlay_type : string) (index : option Z)
  : M (string * string) :=
  let filename :=
    generate_canvas_overlay_filename project_id audit_id nr overlay_type index in
  let abs_path := get_overlay_path filename in
  let overlay_rgba :=
    if negb (String.eqb (im_mode overlay_rgba) "RGBA")
    then im_convert "RGBA" overlay_rgba else overlay_rgba in
  _ ← write_file abs_path (Raw (im_png overlay_rgba));
  mret (filename, abs_path).

(** [save_overlay_for_record] of [common.py]; [root] is [a_paths["root"]].
    The record is returned as the call leaves it. *)
Definition save_overlay_for_record (rec : image_record) (overlay_rgba : image)
  (root : string) (overlay_type : string) : M (image_record * string) :=
  let project_id := OsPath.basename root in
  let audit_id := default "AUDIT" (r_audit_id rec) in
  let nr := default "000" (r_nr rec) in
  '(filename, abs_path) ←
    save_canvas_overlay overlay_rgba project_id audit_id nr overlay_type None;
  let overlay_ref := "overlays/" +:+ filename in
  let rec' :=
    if String.eqb overlay_type OVERLAY_FEHLERBILD
    then set_main_overlay (Some overlay_ref) rec
    else if String.eqb overlay_type OVERLAY_NACHARBEIT
    then set_after_overlay (Some overlay_ref) rec
    else rec in
  mret (rec', overlay_ref).

(** *** Clearing overlays ([common.py]) *)

(** What every overlay-clearing call site runs:
    [if overlay_ref and is_overlay_ref(overlay_ref):
    delete_global_media(overlay_ref)]. *)
Definition delete_if_overlay (overlay_ref : option string) : M unit :=
  match overlay_ref with
  | Some r =>
      if Str.truthy r && is_overlay_ref r
      then _ ← delete_global_media r; mret tt
      else mret tt
  | None => mret tt
  end.

(** The loop of [detach_context_image] over all context entries. *)
Fixpoint delete_overlays_of (entries : list entry) : M unit :=
  match entries with
  | [] => mret tt
  | e :: rest =>
      _ ← delete_if_overlay (field_or (e_overlay e) (e_edited e));
      delete_overlays_of rest
  end.

(** [detach_context_image]; the record is returned as the call leaves
    it. *)
Definition detach_context_image (rec : image_record) (ctx_index : option Z)
  : M image_record :=
  match ctx_index with
  | None =>
      _ ← delete_overlays_of (r_ctx_list rec);
      mret (set_lists [] (r_add_fehler_list rec) (r_add_after_list rec) rec)
  | Some i =>
      if (0 <=? i) && (i <? Z.of_nat (length (r_ctx_list rec))) then
        match r_ctx_list rec !! Z.to_nat i with
        | Some e =>
            _ ← delete_if_overlay (field_or (e_overlay e) (e_edited e));
            mret (set_lists (delete (Z.to_nat i) (r_ctx_list rec))
                    (r_add_fehler_list rec) (r_add_after_list rec) rec)
        | None => mret rec
        end
      else mret rec
  end.

(** *** Renumbering ([reindex_audit_images] of [common.py]) *)

(** The collision loop of [rename_overlay]: the first of
    [base_counter ext], [base_(counter+1) ext], ... that does not exist,
    looked for in at most [fuel] rounds. *)
Fixpoint free_path (fuel : nat) (d : disk) (base ext : string) (counter : nat)
  : string :=
  let new_abs := base +:+ "_" +:+ pretty counter +:+ ext in
  match fuel with
  | O => new_abs
  | S fuel' =>
      if path_exists d new_abs then free_path fuel' d base ext (S counter)
      else new_abs
  end.

(** [rename_overlay], the inner function of [reindex_audit_images]. It
    returns the new reference and what it appends to [errors]. *)
Definition rename_overlay (project_id audit_id : string) (root : option string)
  (old_ref new_nr overlay_type : string) (idx : option Z)
  : M (option string * list string) :=
  if negb (Str.truthy old_ref) then mret (None, [])
  else if negb (is_overlay_ref old_ref) then mret (Some old_ref, [])
  else
    d ← get_disk;
    match resolve_media_path d old_ref root with
    | None => mret (Some old_ref, [])
    | Some old_abs =>
        if negb (path_exists d old_abs) then mret (Some old_ref, [])
        else
          let new_filename :=
            generate_canvas_overlay_filename project_id audit_id new_nr
              overlay_type idx in
          let new_abs := get_overlay_path new_filename in
          if String.eqb (OsPath.normpath old_abs) (OsPath.normpath new_abs)
          then mret (Some ("overlays/" +:+ new_filename), [])
          else
            let '(new_abs, new_filename) :=
              if path_exists d new_abs then
                let '(base, ext) := OsPath.splitext new_abs in
                let free := free_path (size (files d)) d base ext 1 in
                (free, OsPath.basename free)
              else (new_abs, new_filename) in
            try_except
              (_ ← shutil_move old_abs new_abs;
               mret (Some ("overlays/" +:+ new_filename), []))
              (mret (Some old_ref, ["Overlay rename error"]))
    end.

(** [rename_overlays_in_list]; [i] is the number [enumerate(items, 1)]
    gives the first element. *)
Fixpoint rename_overlays_in_list (project_id audit_id : string)
  (root : option string) (new_nr overlay_type : string) (i : Z)
  (items : list entry) : M (list entry * list string) :=
  match items with
  | [] => mret ([], [])
  | item :: rest =>
      '(item', errs) ←
        match field_or (e_overlay item) (e_edited item) with
        | Some overlay_ref =>
            if Str.truthy overlay_ref then
              '(new_ref, errs) ←
                rename_overlay project_id audit_id root overlay_ref new_nr
                  overlay_type (Some i);
              mret (set_entry_overlay new_ref item, errs)
            else mret (item, [])
        | None => mret (item, [])
        end;
      '(rest', errs') ←
        rename_overlays_in_list project_id audit_id root new_nr overlay_type
          (i + 1) rest;
      mret (item' :: rest', errs ++ errs')
  end.

(** The body both passes of [reindex_audit_images] run on a record: the
    main overlay, the overlay after rework, then the three lists. *)
Definition rename_record_overlays (project_id audit_id : string)
  (root : option string) (new_nr : string) (rec : image_record)
  : M (image_record * list string) :=
  '(rec, errs1) ←
    match field_or (r_overlay rec) (r_edited rec) with
    | Some overlay_ref =>
        if Str.truthy overlay_ref then
          '(new_ref, errs) ←
            rename_overlay project_id audit_id root overlay_ref new_nr
              OVERLAY_FEHLERBILD None;
          mret (set_main_overlay new_ref rec, errs)
        else mret (rec, [])
    | None => mret (rec, [])
    end;
  '(rec, errs2) ←
    match field_or (r_after_overlay rec) (r_after_edited rec) with
    | Some after_overlay =>
        if Str.truthy after_overlay then
          '(new_ref, errs) ←
            rename_overlay project_id audit_id root after_overlay new_nr
              OVERLAY_NACHARBEIT None;
          mret (set_after_overlay new_ref rec, errs)
        else mret (rec, [])
    | None => mret (rec, [])
    end;
  '(ctx, errs3) ←
    rename_overlays_in_list project_id audit_id root new_nr OVERLAY_KONTEXT 1
      (r_ctx_list rec);
  '(addf, errs4) ←
    rename_overlays_in_list project_id audit_id root new_nr
      OVERLAY_ZUSATZ_FEHLER 1 (r_add_fehler_list rec);
  '(adda, errs5) ←
    rename_overlays_in_list project_id audit_id root new_nr
      OVERLAY_ZUSATZ_NACHARBEIT 1 (r_add_after_list rec);
  mret (set_lists ctx addf adda rec, errs1 ++ errs2 ++ errs3 ++ errs4 ++ errs5).

(** One pass over [audit_images]: [order] lists the positions of the
    audit's records in the index, [i] counts them, [nr_of i] is the number
    the pass names the files after, and [renumber] tells whether the pass
    stores it in the record. *)
Fixpoint reindex_pass (project_id audit_id : string) (root : option string)
  (nr_of : nat -> string) (renumber : bool) (i : nat) (order : list nat)
  (images : list image_record) : M (list image_record * list string) :=
  match order with
  | [] => mret (images, [])
  | pos :: order' =>
      match images !! pos with
      | None =>
          reindex_pass project_id audit_id root nr_of renumber (S i) order' images
      | Some rec =>
          '(rec', errs) ←
            rename_record_overlays project_id audit_id root (nr_of i) rec;
          let rec' := if renumber then set_nr (nr_of i) rec' else rec' in
          '(images', errs') ←
            reindex_pass project_id audit_id root nr_of renumber (S i) order'
              (<[pos := rec']> images);
          mret (images', errs ++ errs')
      end
  end.

(** A stable sort by key: [x] goes in front of the first element whose key
    is not smaller. *)
Fixpoint insert_by_key (x : string * nat) (l : list (string * nat))
  : list (string * nat) :=
  match l with
  | [] => [x]
  | y :: l' => if String.leb x.1 y.1 then x :: l else y :: insert_by_key x l'
  end.

(** The positions of the records of the audit, sorted as
    [audit_images.sort(key=lambda r: r.get("nr", "999"))] sorts them: by
    the number, a record without the key [nr] under 999. *)
Definition audit_order (images : list image_record) (audit_id : string)
  : list nat :=
  (foldr insert_by_key []
     (omap (fun '(pos, r) =>
              if bool_decide (r_audit_id r = Some audit_id)
              then Some (default "999" (r_nr r), pos) else None)
           (imap pair images))).*2.

(** [reindex_audit_images]: the index as the call leaves it, and the pair
    it returns. *)
Definition reindex_audit_images (index : project_index) (audit_id : string)
  (root : option string) : M (project_index * (nat * list string)) :=
  let order := audit_order (ix_images index) audit_id in
  match order with
  | [] => mret (index, (O, ["Keine Fehlerbilder in diesem Audit gefunden."]))
  | _ =>
      let project_id := default "PROJ" (ix_project_id index) in
      '(images1, errs1) ←
        reindex_pass project_id audit_id root
          (fun i => "_TMP_" +:+ Str.pad3 i) false O order (ix_images index);
      '(images2, errs2) ←
        reindex_pass project_id audit_id root
          (fun i => Str.pad3 (S i)) true O order images1;
      mret (ProjectIndex (ix_project_id index) images2,
            (length order, errs1 ++ errs2))
  end.

End Store.

(** ** A sample interpretation of the libraries

    The closed examples below run the store on it. An image is its size,
    its mode and its pixel data; an encoder writes the size and, for JPEG,
    the quality in front of the pixel data, and the decoder reads the size
    back; the hash is the text of the bytes, so that different bytes have
    different hashes. *)

Module Sample.

Record img := Img {
  width : Z;
  height : Z;
  mode : string;
  pixels : list Byte.byte;
}.

Definition byte_of (z : Z) : Byte.byte :=
  default Byte.x00 (Byte.of_N (Z.to_N (z mod 256))).

Definition Z_of_byte (b : Byte.byte) : Z := Z.of_N (Byte.to_N b).

Definition header (i : img) : list Byte.byte :=
  [byte_of (width i / 256); byte_of (width i); byte_of (height i / 256);
   byte_of (height i)].

Definition open (data : list Byte.byte) : option img :=
  match data with
  | wh :: wl :: hh :: hl :: px =>
      Some (Img (256 * Z_of_byte wh + Z_of_byte wl)
                (256 * Z_of_byte hh + Z_of_byte hl) "RGB" px)
  | _ => None
  end.

Definition convert (m : string) (i : img) : img :=
  Img (width i) (height i) m (pixels i).

Definition resample (i : img) (w h : Z) : img := Img w h (mode i) (pixels i).

Definition jpeg (quality : Z) (optimize : bool) (i : img) : list Byte.byte :=
  header i ++ byte_of quality :: pixels i.

Definition png (i : img) : list Byte.byte := header i ++ pixels i.

Definition digest (data : list Byte.byte) : string :=
  String "#" (String.string_of_list_byte data).

#[export] Instance libs : Libs := {|
  image := img;
  im_size := fun i => (width i, height i);
  im_open := open;
  heif_open := open;
  im_convert := convert;
  im_resample := resample;
  im_mode := mode;
  im_jpeg := jpeg;
  im_png := png;
  sha256_hex := digest;
  json_dump := fun _ _ => [];
  listdir_order := fun l => l;
  im_convert_size := fun _ _ => eq_refl;
  im_resample_size := fun _ _ _ => eq_refl;
  sha256_hex_truthy := fun _ => eq_refl;
  listdir_order_perm := fun l => reflexivity l;
|}.

(** An upload that decodes to a [w] by [h] image with the pixel data [px]. *)
Definition upload (w h : Z) (px : list Byte.byte) : list Byte.byte :=
  header (Img w h "RGB" px) ++ px.

(** A record as [add_image_record] creates it, in the audit [audit]. *)
Definition photo (nr audit base : string) : image_record :=
  ImageRecord (Some nr) (Some audit) (Some base) None (Some base) None
    None None None None [] [] [] [].

(** The same record with a main overlay linked. *)
Definition annotated (nr audit base overlay : string) : image_record :=
  set_main_overlay (Some overlay) (photo nr audit base).

Definition empty_disk : disk := Disk ∅ ∅.



(** An image [w] wide and [h] high is attached to the empty store. *)
Definition image_run (w h : Z) : disk * outcome (option string) :=
  attach_media "/srv/app" "00aa" None (Some (upload w h [Byte.x41]))
    (Some "photo.png") None None "image" empty_disk.

(** An audit of two records whose overlay files carry each other's
    number: the renumbering gives each record the name the other's file
    has. *)
Definition swapped_index : project_index :=
  ProjectIndex (Some "P1")
    [annotated "001" "A1" "base_images/MEDIA_IMG__0001.jpg"
       "overlays/CANVAS__PRJ_P1__AUD_A1__NR_002__TYPE_FEHLERBILD.png";
     annotated "002" "A1" "base_images/MEDIA_IMG__0002.jpg"
       "overlays/CANVAS__PRJ_P1__AUD_A1__NR_001__TYPE_FEHLERBILD.png"].

Definition swapped_disk : disk :=
  Disk
    (<[ "/srv/app/GlobalMedia/overlays/CANVAS__PRJ_P1__AUD_A1__NR_002__TYPE_FEHLERBILD.png"
          := Raw [Byte.x01] ]>
       {[ "/srv/app/GlobalMedia/overlays/CANVAS__PRJ_P1__AUD_A1__NR_001__TYPE_FEHLERBILD.png"
            := Raw [Byte.x02] ]})
    ∅.

Definition swapped_run : disk * outcome (project_index * (nat * list string)) :=
  reindex_audit_images "/srv/app" swapped_index "A1" None swapped_disk.

(** A record whose overlay file carries a collision suffix, as
    [reindex_audit_images] names a file when the plain name is taken, and a
    store that holds the file. *)
Definition suffixed_record : image_record :=
  annotated "001" "A1" "base_images/MEDIA_IMG__0001.jpg"
    "overlays/CANVAS__PRJ_P1__AUD_A1__NR_001__TYPE_FEHLERBILD_1.png".

Definition suffixed_disk : disk :=
  Disk
    {[ "/srv/app/GlobalMedia/overlays/CANVAS__PRJ_P1__AUD_A1__NR_001__TYPE_FEHLERBILD_1.png"
         := Raw [Byte.x01] ]}
    ∅.

(** The main overlay of the record is saved again. *)
Definition resave_run : disk * outcome (image_record * string) :=
  save_overlay_for_record "/srv/app" suffixed_record
    (Img 1 1 "RGBA" [Byte.x07]) "/data/P1" OVERLAY_FEHLERBILD suffixed_disk.

End Sample.

(** ** Vocabulary of the statements *)

(** A separator of a reference: a slash or a backslash. *)
Definition is_sep (c : ascii) : Prop := c = "/"%char \/ c = backslash.

(** The textual form of a reference of a kind: the kind's file-name prefix
    in front, the kind's directory name in front followed by a separator,
    or the directory name between two equal separators; every character is
    matched as it is. *)
Definition kind_shape (prefix dir ref : string) : Prop :=
  (exists t, ref = prefix +:+ t)
  \/ (exists sep t, is_sep sep /\ ref = dir +:+ String sep t)
  \/ (exists sep a b,
        is_sep sep /\ ref = a +:+ String sep (dir +:+ String sep b)).

Section Vocabulary.

Context `{Libs} (BASE_DIR : string).

(** The paths one block of [resolve_media_path] tries, in order. *)
Definition kind_candidates (is_kind : bool) (prefix dir ref : string)
  : list string :=
  if is_kind then
    (if Str.startswith ref prefix then [OsPath.join dir ref] else [])
    ++ [OsPath.join (MEDIA_ROOT BASE_DIR) ref]
  else [].

(** The paths [resolve_media_path] tries for a reference, in order. *)
Definition resolve_candidates (ref : string) (root : option string)
  : list string :=
  if negb (Str.truthy ref) then []
  else if OsPath.isabs ref then [ref]
  else
    kind_candidates (is_base_image_ref ref) "MEDIA_IMG__"
      (MEDIA_BASE_IMAGES BASE_DIR) ref
    ++ kind_candidates (is_base_video_ref ref) "MEDIA_VID__"
         (MEDIA_BASE_VIDEOS BASE_DIR) ref
    ++ kind_candidates (is_overlay_ref ref) "CANVAS__"
         (MEDIA_OVERLAYS BASE_DIR) ref
    ++ [OsPath.join (MEDIA_ROOT BASE_DIR) ref]
    ++ match root with
       | Some r => [OsPath.join r ref]
       | None => []
       end.

End Vocabulary.

Section AttachVocabulary.

Context `{Libs} (BASE_DIR : string).

(** The directory name of a media type inside the media root. *)
Definition kind_dir (media_type : string) : string :=
  if String.eqb media_type "image" then "base_images" else "base_videos".

(** A name of a directory entry: not empty, no separator in it. *)
Definition plain (n : string) : Prop :=
  Str.truthy n = true /\ Str.contains n "/" = false.

(** [v] is the reference of a file that lies in the base directory of the
    media type. *)
Definition stored (d : disk) (media_type v : string) : Prop :=
  exists fn, v = kind_dir media_type +:+ "/" +:+ fn /\ plain fn
    /\ is_Some (files d !! (MEDIA_ROOT BASE_DIR +:+ "/" +:+ v)).

(** Every reference the registry holds for the media type is of the form
    the store itself writes: the directory name, a slash, a plain name. *)
Definition canonical_registry (d : disk) (media_type : string) : Prop :=
  forall k v, section media_type (_load_media_registry BASE_DIR d) !! k = Some v ->
    exists fn, v = kind_dir media_type +:+ "/" +:+ fn /\ plain fn.

(** The disks differ at most in the registry file. *)
Definition off_registry (d d' : disk) : Prop :=
  locked d' = locked d
  /\ forall p, p <> MEDIA_REGISTRY_PATH BASE_DIR -> files d' !! p = files d !! p.

(** The section of the media type kept its entries, and an entry it gained
    is the reference of a stored file. *)
Definition grown (d : disk) (media_type : string) (reg0 reg1 : registry) : Prop :=
  (forall k v, section media_type reg0 !! k = Some v ->
     section media_type reg1 !! k = Some v)
  /\ (forall k v, section media_type reg1 !! k = Some v ->
        section media_type reg0 !! k = Some v \/ stored d media_type v).

(** What [_attach_image] and [_attach_video] do once they have the hash
    [h] of the content, the path [P] and the content [c] of the file to
    write, and its reference [ref]. *)
Definition dedup_or_store (h media_type P : string) (c : content) (ref : string)
  : M (option string) :=
  existing_ref ← _find_existing_by_hash_or_scan BASE_DIR h media_type;
  d ← get_disk;
  if usable BASE_DIR d existing_ref then mret existing_ref
  else
    _ ← write_file P c;
    _ ← _register_media BASE_DIR h ref media_type;
    mret (Some ref).

(** The hash, the path, the content and the reference of an upload of the
    bytes [data] under the name [filename], should it be stored as a new
    file with the identifier [uid]; [None] when an image does not decode. *)
Definition upload_plan (media_type uid : string) (data : list Byte.byte)
  (filename : option string) : option (string * string * content * string) :=
  if String.eqb media_type "video" then
    let name := Str.or_else (default EmptyString filename) "video.mp4" in
    let ext := (OsPath.splitext name).2 in
    let ext := if Str.truthy ext then Str.lower ext else ".mp4" in
    let fn := generate_base_video_filename uid ext in
    Some (_compute_file_hash data, get_base_video_path BASE_DIR fn, Raw data,
          "base_videos/" +:+ fn)
  else
    let name := Str.or_else (default EmptyString filename) "upload.jpg" in
    match decode_upload_to_pil data name with
    | Some img =>
        let fn := generate_base_media_filename uid ".jpg" in
        Some (_compute_pil_hash img, get_base_image_path BASE_DIR fn,
              Raw (im_jpeg JPEG_QUALITY_FULL true (normalized_image img)),
              "base_images/" +:+ fn)
    | None => None
    end.

(** The media type [attach_media] handles an upload as: everything that is
    not a video is an image. *)
Definition kind_of (media_type : string) : string :=
  if String.eqb media_type "video" then "video" else "image".

(** The content hash of an upload; [None] when an image does not decode. *)
Definition upload_hash (media_type : string) (data : list Byte.byte)
  (filename : option string) : option string :=
  (fun plan => plan.1.1.1) <$> upload_plan media_type EmptyString data filename.

(** [attach_media(uploaded_bytes=data, uploaded_filename=filename,
    media_type=media_type)] called once for every identifier of [uids], one
    call after the other; the disk after the last call and what the calls
    returned. *)
Fixpoint attach_repeatedly (media_type : string) (data : list Byte.byte)
  (filename : option string) (uids : list string) (d : disk)
  : disk * list (outcome (option string)) :=
  match uids with
  | [] => (d, [])
  | uid :: rest =>
      let '(d1, out) :=
        attach_media BASE_DIR uid None (Some data) filename None None
          media_type d in
      let '(d2, outs) := attach_repeatedly media_type data filename rest d1 in
      (d2, out :: outs)
  end.

(** The files of the base directory of the media type that the registry
    holds for the hash [h]. *)
Definition files_registered_for (d : disk) (media_type h : string) : list string :=
  filter
    (fun n => section media_type (_load_media_registry BASE_DIR d) !! h
              = Some (kind_dir media_type +:+ "/" +:+ n))
    (listdir d (OsPath.join (MEDIA_ROOT BASE_DIR) (kind_dir media_type))).

End AttachVocabulary.

Section RenumberVocabulary.

Context (BASE_DIR : string).

(** The path of the file that a reference of the form directory, slash,
    name denotes. *)
Definition ref_path (s : string) : string := MEDIA_ROOT BASE_DIR +:+ "/" +:+ s.

(** The name of an overlay file: a plain name that is not one of the two
    dot entries of a directory. *)
Definition overlay_name_ok (n : string) : Prop :=
  plain n /\ n <> "." /\ n <> "..".

(** The overlay a position links, [x.get("overlay") or x.get("edited")],
    when it is set. *)
Definition linked (overlay edited : option string) : option string :=
  match field_or overlay edited with
  | Some s => if Str.truthy s then Some s else None
  | None => None
  end.

Definition entry_link (e : entry) : option string :=
  linked (e_overlay e) (e_edited e).

(** The overlays of a record by position: the main image, the image after
    rework, then the slots of the three lists. *)
Definition record_links (r : image_record) : list (option string) :=
  linked (r_overlay r) (r_edited r)
  :: linked (r_after_overlay r) (r_after_edited r)
  :: (entry_link <$> r_ctx_list r)
  ++ (entry_link <$> r_add_fehler_list r)
  ++ (entry_link <$> r_add_after_list r).

(** The overlays of the records at the positions [order] of the index. *)
Definition audit_links (images : list image_record) (order : list nat)
  : list (option string) :=
  flat_map (fun pos => from_option record_links [] (images !! pos)) order.

(** The overlays that are linked are pairwise different references of the
    form [overlays/name], and their files exist. *)
Definition links_ok (d : disk) (links : list (option string)) : Prop :=
  NoDup (omap id links)
  /\ forall s, Some s ∈ links ->
       exists n, s = "overlays/" +:+ n /\ overlay_name_ok n
         /\ is_Some (files d !! ref_path s).

(** The content of the file a position links. *)
Definition link_content (d : disk) (o : option string) : option content :=
  match o with
  | Some s => files d !! ref_path s
  | None => None
  end.

(** A position links an overlay after the renumbering if and only if it
    did before, and the file has the content it had. *)
Definition same_overlay (d d' : disk) (o o' : option string) : Prop :=
  link_content d' o' = link_content d o /\ (is_Some o' <-> is_Some o).

(** What a run of renames that starts on disk [d] with the links [L] and
    ends on disk [d'] with the links [L'] has to achieve. *)
Definition renamed (d : disk) (L : list (option string)) (d' : disk)
  (L' : list (option string)) : Prop :=
  locked d' = ∅ /\ links_ok d' L' /\ Forall2 (same_overlay d d') L L'.

End RenumberVocabulary.

(** The overlay linked is the file of the name generated for the number,
    the role and the slot, or of that name with the counter the collision
    loop of [rename_overlay] puts in front of the extension when another
    file holds the name. *)
Definition named (pid aid nr ot : string) (idx : option Z)
  (o : option string) : Prop :=
  match o with
  | None => True
  | Some s =>
      s = "overlays/" +:+ generate_canvas_overlay_filename pid aid nr ot idx
      \/ exists k : nat,
           s = "overlays/" +:+ canvas_overlay_stem pid aid nr ot idx
               +:+ "_" +:+ pretty k +:+ ".png"
  end.

(** The overlays of the elements of a list are named for the role of the
    list and the slots [i], [i + 1], ... *)
Definition list_named (pid aid nr ot : string) (i : Z) (items : list entry)
  : Prop :=
  forall j e, items !! j = Some e ->
    named pid aid nr ot (Some (i + Z.of_nat j)) (entry_link e).

(** The overlays of a record are named for the number [nr]: the main one
    and the one after rework for their roles without a slot, those of the
    lists for the roles of the lists and the slots 1, 2, ... *)
Definition record_named (pid aid nr : string) (r : image_record) : Prop :=
  named pid aid nr OVERLAY_FEHLERBILD None (linked (r_overlay r) (r_edited r))
  /\ named pid aid nr OVERLAY_NACHARBEIT None
       (linked (r_after_overlay r) (r_after_edited r))
  /\ list_named pid aid nr OVERLAY_KONTEXT 1 (r_ctx_list r)
  /\ list_named pid aid nr OVERLAY_ZUSATZ_FEHLER 1 (r_add_fehler_list r)
  /\ list_named pid aid nr OVERLAY_ZUSATZ_NACHARBEIT 1 (r_add_after_list r).

(** Every record of the audit carries a number: sorting the records by
    [r.get("nr", "999")] compares strings. *)
Definition numbered (images : list image_record) (audit_id : string) : Prop :=
  forall r, r ∈ images -> r_audit_id r = Some audit_id -> is_Some (r_nr r).

(** A decimal digit. *)
Definition is_digit (c : ascii) : bool :=
  let n := N_of_ascii c in ((48 <=? n) && (n <=? 57))%N.

(** The roles an overlay of a record can have. *)
Definition overlay_roles : list string :=
  [OVERLAY_FEHLERBILD; OVERLAY_NACHARBEIT; OVERLAY_KONTEXT;
   OVERLAY_ZUSATZ_FEHLER; OVERLAY_ZUSATZ_NACHARBEIT].

(** The part of an overlay name that is made from the number of the
    record. *)
Definition nr_key (nr : string) : string :=
  sanitize_filename (Str.or_else nr "000").

(** The overlay linked is the file of exactly the name generated for the
    number, the role and the slot. *)
Definition exactly_named (pid aid nr ot : string) (idx : option Z)
  (o : option string) : Prop :=
  match o with
  | None => True
  | Some s =>
      s = "overlays/" +:+ generate_canvas_overlay_filename pid aid nr ot idx
  end.

Definition list_exactly_named (pid aid nr ot : string) (i : Z)
  (items : list entry) : Prop :=
  forall j e, items !! j = Some e ->
    exactly_named pid aid nr ot (Some (i + Z.of_nat j)) (entry_link e).

Definition record_exactly_named (pid aid nr : string) (r : image_record)
  : Prop :=
  exactly_named pid aid nr OVERLAY_FEHLERBILD None
    (linked (r_overlay r) (r_edited r))
  /\ exactly_named pid aid nr OVERLAY_NACHARBEIT None
       (linked (r_after_overlay r) (r_after_edited r))
  /\ list_exactly_named pid aid nr OVERLAY_KONTEXT 1 (r_ctx_list r)
  /\ list_exactly_named pid aid nr OVERLAY_ZUSATZ_FEHLER 1
       (r_add_fehler_list r)
  /\ list_exactly_named pid aid nr OVERLAY_ZUSATZ_NACHARBEIT 1
       (r_add_after_list r).

Section FinalNameVocabulary.

Context (BASE_DIR : string).

(** Every file of the disk is one of the files [foreign] or the file of
    one of the links [L]. *)
Definition covered (foreign : string -> Prop) (d : disk)
  (L : list (option string)) : Prop :=
  forall x, is_Some (files d !! x) ->
    foreign x \/ exists s, Some s ∈ L /\ x = ref_path BASE_DIR s.

(** The overlay name [g] is the name of no file [foreign] and of none of
    the links [L]. *)
Definition vacant (foreign : string -> Prop) (L : list (option string))
  (g : string) : Prop :=
  ~ foreign (ref_path BASE_DIR ("overlays/" +:+ g))
  /\ forall t, Some t ∈ L -> t <> "overlays/" +:+ g.

(** The names the renumbering generates for the numbers 1 to the number
    of positions are taken by no file other than overlays the positions
    link: a file that has such a name is the file of one of the links. *)
Definition names_free (pid aid : string) (d : disk)
  (images : list image_record) (order : list nat) : Prop :=
  forall (k : nat) ot idx,
    (k < length order)%nat -> ot ∈ overlay_roles ->
    is_Some (files d !! ref_path BASE_DIR
               ("overlays/" +:+ generate_canvas_overlay_filename pid aid
                                  (Str.pad3 (S k)) ot idx)) ->
    Some ("overlays/" +:+ generate_canvas_overlay_filename pid aid
                            (Str.pad3 (S k)) ot idx)
    ∈ audit_links images order.

End FinalNameVocabulary.

(** The body of the loop of [is_media_shared] over the records of the
    index: what one record adds to the count. *)
Definition scan_record (exclude_rec : option nat) (norm_ref : string)
  (st : option nat) (ir : nat * image_record) : option nat :=
  let '(i, r) := ir in
  if bool_decide (exclude_rec = Some i) then st
  else fold_left (count_use (bool_decide (is_Some exclude_rec)) norm_ref)
         (record_fields r) st.


(** ** Further functions of [media_store.py] and [common.py] *)

(** [s.upper()] on the ASCII letters. *)
Definition upper_char (c : ascii) : ascii :=
  let n := N_of_ascii c in
  if ((97 <=? n) && (n <=? 122))%N then ascii_of_N (n - 32) else c.

Fixpoint upper (s : string) : string :=
  match s with
  | EmptyString => EmptyString
  | String c s' => String (upper_char c) (upper s')
  end.

(** The prefixes [is_global_media_ref] tests with [startswith], in the
    order of the tuple. *)
Definition global_prefixes : list string :=
  ["images_raw/"; "images_edited/"; "videos/";
   dir_bs "images_raw"; dir_bs "images_edited"; dir_bs "videos";
   "base_images/"; "base_videos/"; "overlays/";
   dir_bs "base_images"; dir_bs "base_videos"; dir_bs "overlays"].

(** [is_global_media_ref] *)
Definition is_global_media_ref (ref : string) : bool :=
  if negb (Str.truthy ref) || OsPath.isabs ref then false
  else
    is_base_image_ref ref || is_base_video_ref ref || is_overlay_ref ref
    || existsb (Str.startswith ref) global_prefixes.

(** [media_ref_from_path] *)
Definition media_ref_from_path (abs_path ref_type : string) : string :=
  if negb (Str.truthy abs_path) then EmptyString
  else
    let filename := OsPath.basename abs_path in
    if String.eqb ref_type "base_image" then "base_images/" +:+ filename
    else if String.eqb ref_type "base_video" then "base_videos/" +:+ filename
    else if String.eqb ref_type "overlay" then "overlays/" +:+ filename
    else filename.

(** [get_videos_for_record] of [common.py]; [root] is the entry of
    [paths] under the key root, if any. *)
Definition get_videos_for_record (BASE_DIR : string) (d : disk)
  (rec : image_record) (root : option string) : list string :=
  omap (fun video_ref =>
          if Str.truthy video_ref then
            match resolve_media_path BASE_DIR d video_ref root with
            | Some abs_path =>
                if Str.truthy abs_path && path_exists d abs_path
                then Some abs_path else None
            | None => None
            end
          else None)
       (r_videos rec).

(** *** Sorting the records ([common.py])

    The entry [rec["fehler"]] of a record, as far as the sort reads it. A
    text field is [None] when its key is missing; [f_Nacharbeit_done] is
    [bool(f.get("Nacharbeit_done", False))]. A record without the entry has
    every field missing. *)
Record fehler := Fehler {
  f_vehicle_area : option string;
  f_system_domain : option string;
  f_BI_alt : option string;
  f_BI : option string;
  f_CaseStatus : option string;
  f_Nacharbeit_done : bool;
  f_Fehlerort : option string;
}.

(** A record with its entry [fehler]. *)
Record fehlerbild := Fehlerbild {
  fb_record : image_record;
  fb_fehler : fehler;
}.

Definition VEHICLE_AREA_OPTIONS : list string :=
  ["Front_Exterieur"; "Rechte_Seite"; "Heck_Exterieur"; "Linke_Seite"; "Dach";
   "Interieur_Vorne"; "Interieur_Hinten"; "Motorraum"; "Unterboden"].

Definition SYSTEM_DOMAIN_OPTIONS : list string :=
  ["Karosserie"; "Lack"; "Exterieur"; "Interieur"; "Elektrik"; "Antrieb";
   "Fahrwerk"; "Software"; "Sonstige"].

Definition SORT_ORDER_VEHICLE_AREA : list string := VEHICLE_AREA_OPTIONS.
Definition SORT_ORDER_SYSTEM_DOMAIN : list string := SYSTEM_DOMAIN_OPTIONS.

Definition SORT_ORDER_BI : list string :=
  ["BI0-tbd."; "BI1"; "BI2"; "BI3"; "BI4"; "BI5"; "BI6-ja"; "BI6"; "BI6-nein";
   "BI7"; "BI8"].

Definition SORTING_MODE_OPTIONS : list string :=
  ["Audit-Standard (Bereich → System → BI)";
   "Nr (aufsteigend)";
   "Nr (absteigend)";
   "BI (kritisch zuerst)";
   "BI (unkritisch zuerst)";
   "Fehlerort (A→Z)";
   "Fehlerort (Z→A)";
   "Status Open (zuerst)";
   "Status Closed (zuerst)";
   "Nacharbeit = Ja (zuerst)";
   "Nacharbeit = Nein (zuerst)"].

Definition DEFAULT_SORTING_MODE : string :=
  "Audit-Standard (Bereich → System → BI)".

(** [l.index(x)], [None] for the [ValueError]. *)
Fixpoint list_index (x : string) (l : list string) : option nat :=
  match l with
  | [] => None
  | y :: l' => if String.eqb y x then Some O else S <$> list_index x l'
  end.

(** [a < b] on the tuples [fehlerbild_sort_key] returns. *)
Definition key_lt (a b : nat * nat * nat * nat * Z) : bool :=
  let '(a1, a2, a3, a4, a5) := a in
  let '(b1, b2, b3, b4, b5) := b in
  if negb (a1 =? b1)%nat then (a1 <? b1)%nat
  else if negb (a2 =? b2)%nat then (a2 <? b2)%nat
  else if negb (a3 =? b3)%nat then (a3 <? b3)%nat
  else if negb (a4 =? b4)%nat then (a4 <? b4)%nat
  else a5 <? b5.

(** [a < b] on strings. *)
Definition str_lt (a b : string) : bool := negb (String.leb b a).

(** The stable sort of [list.sort] and [sorted]: [x] is put in front of
    the sorted rest, behind the elements that are less than it. *)
Fixpoint insert_sorted {A} (lt : A -> A -> bool) (x : A) (l : list A)
  : list A :=
  match l with
  | [] => [x]
  | y :: l' => if lt y x then y :: insert_sorted lt x l' else x :: l
  end.

(** [sorted(l, key=key, reverse=reverse)]: with [reverse] the keys
    descend, and elements with equal keys keep their order all the same. *)
Definition sorted_by {A K} (lt : K -> K -> bool) (key : A -> K)
  (reverse : bool) (l : list A) : list A :=
  foldr (insert_sorted
           (fun a b =>
              if reverse then lt (key b) (key a) else lt (key a) (key b)))
    [] l.

Section Sorting.

(** [int(s)], [None] for the [ValueError], and [s.lower()]. *)
Context (py_int : string -> option Z) (py_lower : string -> string).

(** [fehlerbild_sort_key] *)
Definition fehlerbild_sort_key (rec : fehlerbild)
  : nat * nat * nat * nat * Z :=
  let f := fb_fehler rec in
  let area := default "Interieur_Vorne" (f_vehicle_area f) in
  let area_rank :=
    default (length SORT_ORDER_VEHICLE_AREA)
      (list_index area SORT_ORDER_VEHICLE_AREA) in
  let domain := default "Sonstige" (f_system_domain f) in
  let domain_rank :=
    default (length SORT_ORDER_SYSTEM_DOMAIN)
      (list_index domain SORT_ORDER_SYSTEM_DOMAIN) in
  let bi := default "BI0-tbd." (f_BI_alt f) in
  let bi_rank := default O (list_index bi SORT_ORDER_BI) in
  let status := default "Open" (f_CaseStatus f) in
  let status_rank := if negb (String.eqb status "Closed") then O else 1%nat in
  let nr_str := default "999" (r_nr (fb_record rec)) in
  let nr_int := default 9999 (py_int nr_str) in
  (area_rank, domain_rank, bi_rank, status_rank, nr_int).

(** [sort_fehlerbilder] *)
Definition sort_fehlerbilder (records : list fehlerbild) : list fehlerbild :=
  sorted_by key_lt fehlerbild_sort_key false records.

(** The helpers of [sort_fehlerbilder_with_mode]. *)
Definition _nacharbeit_flag (rec : fehlerbild) : bool :=
  f_Nacharbeit_done (fb_fehler rec).

Definition _status_flag (rec : fehlerbild) : string :=
  default "Open" (f_CaseStatus (fb_fehler rec)).

Definition _bi_index (rec : fehlerbild) : nat :=
  let f := fb_fehler rec in
  let bi :=
    match field_or (f_BI_alt f) (f_BI f) with
    | Some s => Str.or_else s "BI0-tbd."
    | None => "BI0-tbd."
    end in
  default (length SORT_ORDER_BI) (list_index bi SORT_ORDER_BI).

(** [sort_fehlerbilder_with_mode]; the empty [sorting_mode] stands for
    [None] as well. *)
Definition sort_fehlerbilder_with_mode (records : list fehlerbild)
  (sorting_mode : string) : list fehlerbild :=
  match records with
  | [] => []
  | _ =>
      let sorting_mode :=
        if negb (Str.truthy sorting_mode) then DEFAULT_SORTING_MODE
        else sorting_mode in
      let nr := fun r => default EmptyString (r_nr (fb_record r)) in
      let fehlerort :=
        fun r => py_lower (default EmptyString (f_Fehlerort (fb_fehler r))) in
      if String.eqb sorting_mode "Audit-Standard (Bereich → System → BI)" then
        sorted_by key_lt fehlerbild_sort_key false records
      else if String.eqb sorting_mode "Nr (aufsteigend)" then
        sorted_by str_lt nr false records
      else if String.eqb sorting_mode "Nr (absteigend)" then
        sorted_by str_lt nr true records
      else if String.eqb sorting_mode "BI (kritisch zuerst)" then
        sorted_by Nat.ltb _bi_index false records
      else if String.eqb sorting_mode "BI (unkritisch zuerst)" then
        sorted_by Nat.ltb _bi_index true records
      else if String.eqb sorting_mode "Fehlerort (A→Z)" then
        sorted_by str_lt fehlerort false records
      else if String.eqb sorting_mode "Fehlerort (Z→A)" then
        sorted_by str_lt fehlerort true records
      else if String.eqb sorting_mode "Status (Open zuerst)" then
        sorted_by Nat.ltb
          (fun r =>
             if negb (String.eqb (_status_flag r) "Closed") then O else 1%nat)
          false records
      else if String.eqb sorting_mode "Status (Closed zuerst)" then
        sorted_by Nat.ltb
          (fun r => if String.eqb (_status_flag r) "Closed" then O else 1%nat)
          false records
      else if String.eqb sorting_mode "Nacharbeit = Ja zuerst" then
        sorted_by Nat.ltb (fun r => if _nacharbeit_flag r then O else 1%nat)
          false records
      else if String.eqb sorting_mode "Nacharbeit = Nein zuerst" then
        sorted_by Nat.ltb
          (fun r => if negb (_nacharbeit_flag r) then O else 1%nat)
          false records
      else sorted_by key_lt fehlerbild_sort_key false records
  end.

End Sorting.

(** The order of the keys in a sorted list: no element is less than the
    one in front of it. *)
Fixpoint ascending {A K} (lt : K -> K -> bool) (key : A -> K) (l : list A)
  : Prop :=
  match l with
  | [] => True
  | a :: l' =>
      match l' with
      | [] => True
      | b :: _ => lt (key b) (key a) = false
      end
      /\ ascending lt key l'
  end.

(** *** Vocabulary of the further statements *)

(** Every character of [s] passes the test [f]. *)
Fixpoint all_chars (f : ascii -> bool) (s : string) : bool :=
  match s with
  | EmptyString => true
  | String c s' => f c && all_chars f s'
  end.

(** The one-character string of the backslash. *)
Definition bs : string := String backslash EmptyString.

(** *** Migration ([migrate_to_layered_architecture] of [common.py]) *)

(** [if x.get(legacy) and not x.get(new): x[new] = x[legacy]]: whether the
    assignment runs, and the field [new] afterwards. *)
Definition migrates (legacy new : option string) : bool :=
  field_truthy legacy && negb (field_truthy new).

Definition migrated_field (legacy new : option string) : option string :=
  if migrates legacy new then legacy else new.

(** The body of the three loops over the lists of a record. *)
Definition migrate_entry (e : entry) : entry :=
  Entry (migrated_field (e_raw e) (e_base e))
        (migrated_field (e_edited e) (e_overlay e))
        (e_raw e) (e_edited e).

(** The body of the loop over the records: the record as the round leaves
    it, and what the round adds to [migrated]. *)
Definition migrate_record (r : image_record) : image_record * nat :=
  (ImageRecord (r_nr r) (r_audit_id r)
     (migrated_field (r_raw r) (r_base_image r))
     (migrated_field (r_edited r) (r_overlay r))
     (r_raw r) (r_edited r)
     (migrated_field (r_after_raw r) (r_after_base r))
     (migrated_field (r_after_edited r) (r_after_overlay r))
     (r_after_raw r) (r_after_edited r)
     (migrate_entry <$> r_ctx_list r)
     (migrate_entry <$> r_add_fehler_list r)
     (migrate_entry <$> r_add_after_list r)
     (r_videos r),
   (Nat.b2n (migrates (r_raw r) (r_base_image r))
    + Nat.b2n (migrates (r_after_raw r) (r_after_base r)))%nat).

(** [migrate_to_layered_architecture]: the index as the call leaves it,
    and the pair it returns. No round raises on records of this type, so
    the list of errors stays empty. *)
Definition migrate_to_layered_architecture (index : project_index)
  : project_index * (nat * list string) :=
  let rounds := migrate_record <$> ix_images index in
  (ProjectIndex (ix_project_id index) rounds.*1,
   (foldr Nat.add O rounds.*2, [])).

Section StoreHelpers.

Context `{Libs} (BASE_DIR : string).

(** [rec["ctx_list"][i] = entry] and the like: the three lists of a
    record, one of them replaced. *)
Definition set_ctx_list (l : list entry) (r : image_record) : image_record :=
  set_lists l (r_add_fehler_list r) (r_add_after_list r) r.
Definition set_add_fehler_list (l : list entry) (r : image_record)
  : image_record :=
  set_lists (r_ctx_list r) l (r_add_after_list r) r.
Definition set_add_after_list (l : list entry) (r : image_record)
  : image_record :=
  set_lists (r_ctx_list r) (r_add_fehler_list r) l r.

(** What [save_ctx_annotated_index] and [save_additional_annotated_index]
    do once the list [lst], the role and the way to store the list are
    chosen: the bounds test, the save under the slot number [idx + 1], and
    the link in the element. *)
Definition save_slot_overlay (rec : image_record) (lst : list entry)
  (store : list entry -> image_record -> image_record) (idx : Z)
  (annotated_rgba : image) (root overlay_type : string) : M image_record :=
  if (idx <? 0) || (Z.of_nat (length lst) <=? idx) then mret rec
  else
    match lst !! Z.to_nat idx with
    | None => mret rec
    | Some entry =>
        let project_id := OsPath.basename root in
        let audit_id := default "AUDIT" (r_audit_id rec) in
        let nr := default "000" (r_nr rec) in
        '(filename, abs_path) ←
          save_canvas_overlay BASE_DIR annotated_rgba project_id audit_id nr
            overlay_type (Some (idx + 1));
        let overlay_ref := "overlays/" +:+ filename in
        mret (store
                (<[Z.to_nat idx := set_entry_overlay (Some overlay_ref) entry]>
                   lst)
                rec)
    end.

(** [save_ctx_annotated_index] of [common.py]; [root] is
    [a_paths["root"]]. The record is returned as the call leaves it. *)
Definition save_ctx_annotated_index (rec : image_record) (ctx_index : Z)
  (annotated_rgba : image) (root : string) : M image_record :=
  save_slot_overlay rec (r_ctx_list rec) set_ctx_list ctx_index annotated_rgba
    root OVERLAY_KONTEXT.

(** [save_additional_annotated_index] of [common.py] *)
Definition save_additional_annotated_index (rec : image_record) (idx_sel : Z)
  (annotated_rgba : image) (root phase : string) : M image_record :=
  if String.eqb (upper phase) "FEHLER" then
    save_slot_overlay rec (r_add_fehler_list rec) set_add_fehler_list idx_sel
      annotated_rgba root OVERLAY_ZUSATZ_FEHLER
  else
    save_slot_overlay rec (r_add_after_list rec) set_add_after_list idx_sel
      annotated_rgba root OVERLAY_ZUSATZ_NACHARBEIT.


(** One round of a loop of [rebuild_media_registry]: the file [fn] of
    [dir] is registered under its hash unless the hash is taken, and
    counted when it is registered; a file that cannot be read is skipped. *)
Definition rebuild_entry (d : disk) (exts : list string) (dir refdir : string)
  (hash_of : list Byte.byte -> option string)
  (st : gmap string string * nat) (fn : string) : gmap string string * nat :=
  if negb (ext_in exts fn) then st
  else
    match files d !! OsPath.join dir fn with
    | Some c =>
        match hash_of (read_bytes c) with
        | Some content_hash =>
            let ref := refdir +:+ "/" +:+ fn in
            if negb (bool_decide (is_Some (st.1 !! content_hash)))
            then (<[content_hash := ref]> st.1, S st.2)
            else st
        | None => st
        end
    | None => st
    end.

(** [rebuild_media_registry], of [media_store.py] and, with the same
    text, of [common.py]. *)
Definition rebuild_media_registry : M (nat * nat) :=
  d ← get_disk;
  let '(images, img_count) :=
    fold_left
      (rebuild_entry d image_exts (MEDIA_BASE_IMAGES BASE_DIR) "base_images"
         (fun data => _compute_pil_hash <$> im_open data))
      (listdir d (MEDIA_BASE_IMAGES BASE_DIR)) (∅, O) in
  let '(videos, vid_count) :=
    fold_left
      (rebuild_entry d video_exts (MEDIA_BASE_VIDEOS BASE_DIR) "base_videos"
         (fun data => Some (_compute_file_hash data)))
      (listdir d (MEDIA_BASE_VIDEOS BASE_DIR)) (∅, O) in
  _ ← _save_media_registry BASE_DIR (images, videos);
  mret (img_count, vid_count).

End StoreHelpers.

(** How many of the fields hold the reference [norm_ref], separators
    written as slashes. *)
Definition uses (norm_ref : string) (fields : list (option string)) : nat :=
  length (List.filter (same_ref norm_ref) fields).

(** The fields [is_media_shared] reads: those of every record of the
    index, the excluded record left out. *)
Definition considered_fields (index : project_index) (exclude_rec : option nat)
  : list (option string) :=
  flat_map
    (fun '(i, r) =>
       if bool_decide (exclude_rec = Some i) then [] else record_fields r)
    (imap pair (ix_images index)).

(** The files of [d'] are the files of [d] under names that may have
    changed: as many files, every content still there, the same refused
    paths. *)
Definition rearranged (d d' : disk) : Prop :=
  locked d' = locked d
  /\ size (files d') = size (files d)
  /\ forall p c, files d !! p = Some c -> exists p', files d' !! p' = Some c.

(** The element of a list of a record has kept its image. *)
Definition entry_base_kept (e e' : entry) : Prop :=
  e_base e' = e_base e /\ e_raw e' = e_raw e.

(** The record has kept its audit, its images and its videos. *)
Definition record_base_kept (r r' : image_record) : Prop :=
  r_audit_id r' = r_audit_id r
  /\ r_base_image r' = r_base_image r /\ r_raw r' = r_raw r
  /\ r_after_base r' = r_after_base r /\ r_after_raw r' = r_after_raw r
  /\ r_videos r' = r_videos r
  /\ Forall2 entry_base_kept (r_ctx_list r) (r_ctx_list r')
  /\ Forall2 entry_base_kept (r_add_fehler_list r) (r_add_fehler_list r')
  /\ Forall2 entry_base_kept (r_add_after_list r) (r_add_after_list r').

(** The registry file is absent or holds a registry document. *)
Definition registry_intact (BASE_DIR : string) (d : disk) : Prop :=
  match files d !! MEDIA_REGISTRY_PATH BASE_DIR with
  | Some (Raw _) => False
  | _ => True
  end.



Section SlotVocabulary.

Context `{Libs} (BASE_DIR : string).

(** The overlay as [save_canvas_overlay] encodes it. *)
Definition as_rgba (im : image) : image :=
  if negb (String.eqb (im_mode im) "RGBA") then im_convert "RGBA" im else im.

(** What saving the overlay [im] of the slot [idx] of the list [lst] of
    the record [rec] under the role [overlay_type] achieves, from the disk
    [d] to the disk [d'] and from [lst] to [lst']: outside the bounds of
    the list nothing changes; inside, the file of the generated name with
    the slot number [idx + 1] holds the overlay, no other file has
    changed, the element at [idx] links the reference of the file, which
    resolves to it, and the other elements are as they were. *)
Definition slot_saved (rec : image_record) (lst : list entry) (idx : Z)
  (im : image) (root overlay_type : string) (d d' : disk) (lst' : list entry)
  : Prop :=
  if (idx <? 0) || (Z.of_nat (length lst) <=? idx) then d' = d /\ lst' = lst
  else
    let name :=
      generate_canvas_overlay_filename (OsPath.basename root)
        (default "AUDIT" (r_audit_id rec)) (default "000" (r_nr rec))
        overlay_type (Some (idx + 1)) in
    length lst' = length lst
    /\ lst' !! Z.to_nat idx
       = set_entry_overlay (Some ("overlays/" +:+ name)) <$> lst !! Z.to_nat idx
    /\ (forall j, j <> Z.to_nat idx -> lst' !! j = lst !! j)
    /\ (forall project_root,
          resolve_media_path BASE_DIR d' ("overlays/" +:+ name) project_root
          = Some (get_overlay_path BASE_DIR name))
    /\ files d' !! get_overlay_path BASE_DIR name = Some (Raw (im_png (as_rgba im)))
    /\ (forall p, p <> get_overlay_path BASE_DIR name ->
          files d' !! p = files d !! p).

End SlotVocabulary.

(** *** Example stores *)

Module Examples.

(** A store that holds one base image. *)
Definition one_image : disk :=
  Disk {[ "/srv/app/GlobalMedia/base_images/MEDIA_IMG__00aa.jpg"
            := Raw [Byte.x01] ]} ∅.

(** A record with one context image, and the overlay drawn on it. *)
Definition ctx_record : image_record :=
  set_ctx_list
    [Entry (Some "base_images/MEDIA_IMG__00aa.jpg") None
       (Some "base_images/MEDIA_IMG__00aa.jpg") None]
    (Sample.photo "001" "A1" "base_images/MEDIA_IMG__00bb.jpg").

Definition ctx_overlay : Sample.img := Sample.Img 1 1 "RGBA" [Byte.x07].

(** The overlay is saved for the context image. *)
Definition ctx_save_run : disk * outcome image_record :=
  save_ctx_annotated_index (H := Sample.libs) "/srv/app" ctx_record 0
    ctx_overlay "/data/P1" one_image.

Definition ctx_saved_disk : disk := ctx_save_run.1.

Definition ctx_saved_record : image_record :=
  match ctx_save_run.2 with
  | Ret r => r
  | Raise _ => ctx_record
  end.

(** The store after one image 3600 wide was attached to the empty store,
    then the same store after [rebuild_media_registry], and with the
    registry file removed instead. *)
Definition stored_once : disk := (Sample.image_run 3600 2).1.

Definition rebuilt : disk * outcome (nat * nat) :=
  rebuild_media_registry (H := Sample.libs) "/srv/app" stored_once.

Definition unregistered : disk :=
  Disk (delete (MEDIA_REGISTRY_PATH "/srv/app") (files stored_once))
    (locked stored_once).

(** The same upload is attached twice more. *)
Definition attached_again (d : disk)
  : disk * list (outcome (option string)) :=
  attach_repeatedly (H := Sample.libs) "/srv/app" "image"
    (Sample.upload 3600 2 [Byte.x41]) (Some "photo.png") ["00bb"; "00cc"] d.

End Examples.

(** * Properties *)

(** ** Strings *)

Module StrFacts.

Lemma app_nil_l s : EmptyString +:+ s = s.
Proof. reflexivity. Qed.

Lemma app_cons a s t : String a s +:+ t = String a (s +:+ t).
Proof. reflexivity. Qed.

Lemma app_nil_r s : s +:+ EmptyString = s.
Proof. induction s as [|a s IH]; [done|]. by rewrite app_cons, IH. Qed.

Lemma app_assoc s t u : (s +:+ t) +:+ u = s +:+ t +:+ u.
Proof. induction s as [|a s IH]; [done|]. by rewrite !app_cons, IH. Qed.

Lemma app_length s t :
  String.length (s +:+ t) = (String.length s + String.length t)%nat.
Proof. induction s as [|a s IH]; [done|]. rewrite app_cons. simpl. by rewrite IH. Qed.

Lemma app_inj_r s1 s2 t : s1 +:+ t = s2 +:+ t -> s1 = s2.
Proof.
  revert s2. induction s1 as [|a s1 IH]; intros [|b s2] Heq; [done| | |].
  - apply (f_equal String.length) in Heq.
    rewrite app_nil_l, app_cons in Heq. simpl in Heq. rewrite app_length in Heq. lia.
  - apply (f_equal String.length) in Heq.
    rewrite app_nil_l, app_cons in Heq. simpl in Heq. rewrite app_length in Heq. lia.
  - rewrite !app_cons in Heq. injection Heq as -> Heq. f_equal. by apply IH.
Qed.

Ltac str_norm :=
  repeat (rewrite app_cons || rewrite app_assoc || rewrite app_nil_l).

Lemma eqb_true (a b : ascii) : Ascii.eqb a b = true <-> a = b.
Proof. apply Ascii.eqb_eq. Qed.

Lemma startswith_spec s p :
  Str.startswith s p = true <-> exists t, s = p +:+ t.
Proof.
  revert s. induction p as [|a p IH]; intros s; simpl.
  - split; [intros _; exists s; reflexivity|done].
  - destruct s as [|b s].
    + split; [done|]. intros [t Ht]. by rewrite app_cons in Ht.
    + destruct (Ascii.eqb a b) eqn:Hab.
      * apply Ascii.eqb_eq in Hab as ->. rewrite IH. split.
        -- intros [t ->]. by exists t.
        -- intros [t Ht]. rewrite app_cons in Ht. injection Ht as ->. by exists t.
      * split; [done|]. intros [t Ht]. rewrite app_cons in Ht. injection Ht as -> _.
        by rewrite Ascii.eqb_refl in Hab.
Qed.

Lemma startswith_app p t : Str.startswith (p +:+ t) p = true.
Proof. apply startswith_spec. by exists t. Qed.

Lemma contains_spec h n :
  Str.contains h n = true <-> exists a b, h = a +:+ n +:+ b.
Proof.
  induction h as [|c h IH]; simpl.
  - rewrite orb_false_r, startswith_spec. split.
    + intros [t Ht]. exists EmptyString, t. by rewrite app_nil_l.
    + intros ([|x a] & b & Hab).
      * rewrite app_nil_l in Hab. by exists b.
      * by rewrite app_cons in Hab.
  - rewrite orb_true_iff, startswith_spec, IH. split.
    + intros [[t Ht]|(a & b & ->)].
      * exists EmptyString, t. by rewrite app_nil_l.
      * exists (String c a), b. by rewrite app_cons.
    + intros ([|x a] & b & Hab).
      * left. exists b. by rewrite app_nil_l in Hab.
      * right. rewrite app_cons in Hab. injection Hab as -> ->. by exists a, b.
Qed.

Lemma endswith_nil p : Str.endswith EmptyString p = String.eqb EmptyString p.
Proof. unfold Str.endswith. by rewrite orb_false_r. Qed.

Lemma endswith_cons c s p :
  Str.endswith (String c s) p = String.eqb (String c s) p || Str.endswith s p.
Proof. reflexivity. Qed.

Lemma endswith_spec s p :
  Str.endswith s p = true <-> exists a, s = a +:+ p.
Proof.
  induction s as [|c s IH].
  - rewrite endswith_nil, String.eqb_eq. split.
    + intros <-. by exists EmptyString.
    + intros [[|x a] Ha]; [by rewrite app_nil_l in Ha|by rewrite app_cons in Ha].
  - rewrite endswith_cons, orb_true_iff, String.eqb_eq, IH. split.
    + intros [<-|[a ->]]; [by exists EmptyString|]. exists (String c a). by rewrite app_cons.
    + intros [[|x a] Ha].
      * left. by rewrite app_nil_l in Ha.
      * right. rewrite app_cons in Ha. injection Ha as -> ->. by exists a.
Qed.

Lemma truthy_spec s : Str.truthy s = true <-> s <> EmptyString.
Proof. destruct s; simpl; split; congruence. Qed.

Lemma has_sep_cons c s :
  Str.contains (String c s) "/" = Ascii.eqb "/" c || Str.contains s "/".
Proof.
  change (Str.contains (String c s) "/")
    with ((if Ascii.eqb "/" c then true else false) || Str.contains s "/").
  by destruct (Ascii.eqb "/" c).
Qed.

Lemma has_sep_app a b :
  Str.contains (a +:+ b) "/" = Str.contains a "/" || Str.contains b "/".
Proof.
  induction a as [|c a IH]; [by destruct b|].
  by rewrite app_cons, !has_sep_cons, IH, orb_assoc.
Qed.

Lemma plain_not_abs n : Str.contains n "/" = false -> Str.startswith n "/" = false.
Proof.
  destruct n as [|c n]; [done|]. rewrite has_sep_cons.
  change (Str.startswith (String c n) "/")
    with (if Ascii.eqb "/" c then true else false).
  by destruct (Ascii.eqb "/" c).
Qed.

Lemma remove_prefix_spec p s n :
  remove_prefix p s = Some n <-> s = p +:+ n.
Proof.
  revert s. induction p as [|a p IH]; intros s; simpl.
  - rewrite app_nil_l. split; congruence.
  - destruct s as [|b s]; [by rewrite app_cons|].
    rewrite app_cons. destruct (Ascii.eqb_spec a b) as [->|Hne].
    + rewrite IH. split; [by intros ->|by intros [= ->]].
    + split; [done|]. intros [= ? _]. congruence.
Qed.

Lemma lower_char_sep c : Ascii.eqb "/" (Str.lower_char c) = Ascii.eqb "/" c.
Proof. by destruct c as [[] [] [] [] [] [] [] []]. Qed.

Lemma lower_has_sep s : Str.contains (Str.lower s) "/" = Str.contains s "/".
Proof.
  induction s as [|c s IH]; [done|].
  change (Str.lower (String c s)) with (String (Str.lower_char c) (Str.lower s)).
  by rewrite !has_sep_cons, IH, lower_char_sep.
Qed.

Lemma lower_app s t : Str.lower (s +:+ t) = Str.lower s +:+ Str.lower t.
Proof. induction s as [|a s IH]; [done|]. rewrite app_cons. simpl. by rewrite IH, app_cons. Qed.

End StrFacts.

(** ** Classification of references *)

Lemma ref_has_kind_spec prefix dir ref :
  ref_has_kind prefix dir ref = true <-> kind_shape prefix dir ref.
Proof.
  unfold ref_has_kind, kind_shape, bs_dir_bs, dir_bs, is_sep.
  rewrite !orb_true_iff, !StrFacts.startswith_spec, !StrFacts.contains_spec.
  split.
  - intros [[[[Hp|[t ->]]|[t ->]]|(a & b & ->)]|(a & b & ->)].
    + by left.
    + right; left. exists "/"%char, t. split; [by left|]. by StrFacts.str_norm.
    + right; left. exists backslash, t. split; [by right|]. by StrFacts.str_norm.
    + right; right. exists "/"%char, a, b. split; [by left|]. by StrFacts.str_norm.
    + right; right. exists backslash, a, b. split; [by right|]. by StrFacts.str_norm.
  - intros [Hp|[(sep & t & [->| ->] & ->)|(sep & a & b & [->| ->] & ->)]].
    + by repeat left.
    + left; left; left; right. exists t. by StrFacts.str_norm.
    + left; left; right. exists t. by StrFacts.str_norm.
    + left; right. exists a, b. by StrFacts.str_norm.
    + right. exists a, b. by StrFacts.str_norm.
Qed.

Lemma is_base_image_ref_kind ref :
  is_base_image_ref ref = ref_has_kind "MEDIA_IMG__" "base_images" ref.
Proof. by destruct ref. Qed.

Lemma is_base_video_ref_kind ref :
  is_base_video_ref ref = ref_has_kind "MEDIA_VID__" "base_videos" ref.
Proof. by destruct ref. Qed.

Lemma is_overlay_ref_kind ref :
  is_overlay_ref ref = ref_has_kind "CANVAS__" "overlays" ref.
Proof. by destruct ref. Qed.

(** C6, as the code has it: a reference is classified by the exact text of
    the kind's file-name prefix or of the kind's directory name, set off by
    slashes or by backslashes; the match is case-sensitive. *)
Theorem classification_matches_exact_text ref :
  (is_base_image_ref ref = true <-> kind_shape "MEDIA_IMG__" "base_images" ref)
  /\ (is_base_video_ref ref = true <-> kind_shape "MEDIA_VID__" "base_videos" ref)
  /\ (is_overlay_ref ref = true <-> kind_shape "CANVAS__" "overlays" ref).
Proof.
  rewrite is_base_image_ref_kind, is_base_video_ref_kind, is_overlay_ref_kind.
  repeat split; apply ref_has_kind_spec.
Qed.

(** C6, counterexample: two references that differ only in letter case are
    classified differently. *)
Lemma classification_is_case_sensitive :
  ~ (forall r1 r2, Str.lower r1 = Str.lower r2 ->
       is_base_image_ref r1 = is_base_image_ref r2
       /\ is_base_video_ref r1 = is_base_video_ref r2
       /\ is_overlay_ref r1 = is_overlay_ref r2).
Proof.
  intros Hall.
  destruct (Hall "base_images/a.jpg" "BASE_IMAGES/a.jpg" eq_refl) as [Himg _].
  discriminate Himg.
Qed.

(** ** Reference resolution *)

Module Resolution.

Lemma find_app {A} (f : A -> bool) l1 l2 :
  List.find f (l1 ++ l2) =
  match List.find f l1 with
  | Some x => Some x
  | None => List.find f l2
  end.
Proof. induction l1 as [|x l1 IH]; simpl; [done|]. by destruct (f x). Qed.

Lemma try_path_find BASE_DIR d is_kind prefix dir ref k l :
  k = List.find (path_exists d) l ->
  resolve_kind BASE_DIR d is_kind prefix dir ref k =
  List.find (path_exists d) (kind_candidates BASE_DIR is_kind prefix dir ref ++ l).
Proof.
  intros ->. unfold resolve_kind, kind_candidates, try_path.
  destruct is_kind; [|done].
  destruct (Str.startswith ref prefix); simpl;
    repeat (destruct (path_exists d _); [done|]); done.
Qed.

(** [resolve_media_path] returns the first of its candidate paths that
    exists. *)
Lemma resolve_first_candidate BASE_DIR d ref root :
  resolve_media_path BASE_DIR d ref root =
  List.find (path_exists d) (resolve_candidates BASE_DIR ref root).
Proof.
  unfold resolve_media_path, resolve_candidates.
  destruct (negb (Str.truthy ref)); [done|].
  destruct (OsPath.isabs ref).
  { simpl. by destruct (path_exists d ref). }
  repeat (apply try_path_find).
  unfold try_path. destruct root as [r|]; simpl;
    repeat (destruct (path_exists d _); [done|]); done.
Qed.

End Resolution.

(** C9: a path returned by [resolve_media_path] exists; the result is
    [None] exactly when none of the candidate paths exists, in particular
    for the empty reference and for an absolute path that does not exist. *)
Theorem resolve_media_path_names_existing_file BASE_DIR d ref root :
  (forall p, resolve_media_path BASE_DIR d ref root = Some p ->
     path_exists d p = true /\ In p (resolve_candidates BASE_DIR ref root))
  /\ (resolve_media_path BASE_DIR d ref root = None <->
      forall p, In p (resolve_candidates BASE_DIR ref root) ->
        path_exists d p = false)
  /\ (ref = EmptyString -> resolve_media_path BASE_DIR d ref root = None)
  /\ (OsPath.isabs ref = true -> path_exists d ref = false ->
      resolve_media_path BASE_DIR d ref root = None).
Proof.
  rewrite Resolution.resolve_first_candidate. repeat split.
  - by apply List.find_some in H as [_ ?].
  - by apply List.find_some in H as [? _].
  - intros Hnone p Hp. by apply (List.find_none _ _ Hnone).
  - intros Hall. destruct (List.find _ _) as [p|] eqn:Hfind; [|done].
    apply List.find_some in Hfind as [Hin Hex]. by rewrite (Hall p Hin) in Hex.
  - by intros ->.
  - intros Habs Hex. unfold resolve_candidates. rewrite Habs.
    destruct (negb (Str.truthy ref)); [done|]. simpl. by rewrite Hex.
Qed.

Lemma resolve_media_path_names_existing_file_witness :
  path_exists
    (Disk {[ "/srv/app/GlobalMedia/base_images/MEDIA_IMG__00aa.jpg" := Raw [] ]} ∅)
    "/srv/app/GlobalMedia/base_images/MEDIA_IMG__00aa.jpg" = true.
Proof.
  apply (proj1 (resolve_media_path_names_existing_file "/srv/app"
                  (Disk {[ "/srv/app/GlobalMedia/base_images/MEDIA_IMG__00aa.jpg"
                           := Raw [] ]} ∅)
                  "MEDIA_IMG__00aa.jpg" None)).
  vm_compute. reflexivity.
Defined.

(** ** Shared base media *)

Module Shared.

Lemma count_use_returned excluding norm_ref l :
  fold_left (count_use excluding norm_ref) l None = None.
Proof. by induction l. Qed.

(** With a record excluded, the first matching field makes the function
    return [True]. *)
Lemma count_use_hit norm_ref l st v :
  In v l -> same_ref norm_ref v = true ->
  fold_left (count_use true norm_ref) l st = None.
Proof.
  revert st. induction l as [|x l IH]; intros st Hin Hsame; [done|].
  simpl. destruct st as [c|]; [|apply count_use_returned].
  destruct Hin as [->|Hin].
  - simpl. rewrite Hsame. simpl. apply count_use_returned.
  - by apply IH.
Qed.

Lemma fold_left_cons {A B} (f : A -> B -> A) x l a :
  fold_left f (x :: l) a = fold_left f l (f a x).
Proof. reflexivity. Qed.

Lemma scan_record_eq exclude_rec norm_ref st i r :
  scan_record exclude_rec norm_ref st (i, r) =
  if bool_decide (exclude_rec = Some i) then st
  else fold_left (count_use (bool_decide (is_Some exclude_rec)) norm_ref)
         (record_fields r) st.
Proof. reflexivity. Qed.

Lemma scan_records_returned exclude_rec norm_ref l :
  fold_left (scan_record exclude_rec norm_ref) l None = None.
Proof.
  induction l as [|[i r] l IH]; [done|].
  rewrite fold_left_cons, scan_record_eq.
  destruct (bool_decide _); [done|]. by rewrite count_use_returned.
Qed.

Lemma scan_records_hit x norm_ref l st j r v :
  In (j, r) l -> j <> x -> In v (record_fields r) ->
  same_ref norm_ref v = true ->
  fold_left (scan_record (Some x) norm_ref) l st = None.
Proof.
  revert st. induction l as [|[i r'] l IH]; intros st Hin Hne Hv Hsame; [done|].
  rewrite fold_left_cons, scan_record_eq. destruct Hin as [Heq|Hin].
  - injection Heq as -> ->. rewrite bool_decide_eq_false_2 by congruence.
    rewrite (bool_decide_eq_true_2 (is_Some (Some x))) by eauto.
    rewrite (count_use_hit _ _ _ _ Hv Hsame). apply scan_records_returned.
  - by apply IH.
Qed.

Lemma same_ref_refl m :
  Str.truthy m = true ->
  same_ref (Str.replace_char backslash "/" m) (Some m) = true.
Proof. intros Hm. simpl. by rewrite Hm, String.eqb_refl. Qed.

Lemma imap_pair_lookup {A} (l : list A) i x :
  l !! i = Some x -> In (i, x) (imap pair l).
Proof.
  intros Hl. apply list_elem_of_In, list_elem_of_lookup. exists i.
  by rewrite list_lookup_imap, Hl.
Qed.

Lemma is_media_shared_fold index m x :
  Str.truthy m = true -> is_overlay_ref m = false ->
  is_media_shared index m (Some x) =
  match fold_left (scan_record (Some x) (Str.replace_char backslash "/" m))
          (imap pair (ix_images index)) (Some O) with
  | None => true
  | Some _ => false
  end.
Proof.
  intros Hm Hov. unfold is_media_shared. rewrite Hm, Hov. simpl.
  f_equal.
Qed.

(** A reference held by a record other than the excluded one is shared. *)
Lemma is_media_shared_other index m x j r :
  Str.truthy m = true -> is_overlay_ref m = false ->
  ix_images index !! j = Some r -> j <> x ->
  In (Some m) (record_fields r) ->
  is_media_shared index m (Some x) = true.
Proof.
  intros Hm Hov Hj Hne Hin. rewrite is_media_shared_fold by done.
  by rewrite (scan_records_hit x _ _ _ j r (Some m)
                (imap_pair_lookup _ _ _ Hj) Hne Hin (same_ref_refl m Hm)).
Qed.

End Shared.

(** C4: a base-media reference (one [is_overlay_ref] rejects) that two
    records of the index hold is reported as shared whichever of the two
    is excluded, [safe_delete_global_media] then returns [False] and leaves
    the disk as it is, and an overlay reference is never reported as
    shared. *)
Theorem shared_base_media_is_kept BASE_DIR index m i j ri rj :
  Str.truthy m = true -> is_overlay_ref m = false ->
  ix_images index !! i = Some ri -> ix_images index !! j = Some rj ->
  i <> j ->
  In (Some m) (record_fields ri) -> In (Some m) (record_fields rj) ->
  is_media_shared index m (Some i) = true
  /\ is_media_shared index m (Some j) = true
  /\ (forall d, safe_delete_global_media BASE_DIR index m (Some i) d = (d, Ret false))
  /\ (forall d, safe_delete_global_media BASE_DIR index m (Some j) d = (d, Ret false))
  /\ (forall index' o exclude_rec,
        is_overlay_ref o = true -> is_media_shared index' o exclude_rec = false).
Proof.
  intros Hm Hov Hi Hj Hne Hri Hrj.
  assert (Hsi : is_media_shared index m (Some i) = true).
  { apply (Shared.is_media_shared_other index m i j rj); auto. }
  assert (Hsj : is_media_shared index m (Some j) = true).
  { apply (Shared.is_media_shared_other index m j i ri); auto. }
  repeat split; try done.
  - intros d. unfold safe_delete_global_media. by rewrite Hm, Hov, Hsi.
  - intros d. unfold safe_delete_global_media. by rewrite Hm, Hov, Hsj.
  - intros index' o exclude_rec Ho. unfold is_media_shared. rewrite Ho.
    by destruct (negb (Str.truthy o)).
Qed.

Lemma shared_base_media_is_kept_witness :
  is_media_shared
    (ProjectIndex (Some "P1")
       [Sample.photo "001" "A1" "base_images/MEDIA_IMG__00aa.jpg";
        Sample.photo "002" "A1" "base_images/MEDIA_IMG__00aa.jpg"])
    "base_images/MEDIA_IMG__00aa.jpg" (Some 0%nat) = true.
Proof.
  apply (shared_base_media_is_kept "/srv/app"
           (ProjectIndex (Some "P1")
              [Sample.photo "001" "A1" "base_images/MEDIA_IMG__00aa.jpg";
               Sample.photo "002" "A1" "base_images/MEDIA_IMG__00aa.jpg"])
           "base_images/MEDIA_IMG__00aa.jpg" 0%nat 1%nat
           (Sample.photo "001" "A1" "base_images/MEDIA_IMG__00aa.jpg")
           (Sample.photo "002" "A1" "base_images/MEDIA_IMG__00aa.jpg")).
  - reflexivity.
  - reflexivity.
  - reflexivity.
  - reflexivity.
  - lia.
  - simpl. auto.
  - simpl. auto.
Defined.

(** ** Clearing overlays *)

(** Unfold the operations of the monad. *)
Ltac m_unfold :=
  unfold mbind, M_bind, mret, M_ret, get_disk, raise, try_except in *;
  change (negb true) with false in *; change (negb false) with true in *;
  cbv beta iota in *.

Module Clearing.




End Clearing.




(** ** Image normalisation *)

Module Normalisation.

(** The rounded quotient is within one half of the exact one. *)
Lemma round_half_even_bound num den :
  0 < den ->
  - den <= 2 * (num - den * round_half_even num den) <= den.
Proof.
  intros Hden. unfold round_half_even.
  pose proof (Z.div_mod num den ltac:(lia)) as Hdm.
  pose proof (Z.mod_pos_bound num den Hden) as Hmod.
  destruct (2 * (num mod den) <? den) eqn:H1; [apply Z.ltb_lt in H1; lia|].
  apply Z.ltb_ge in H1.
  destruct (den <? 2 * (num mod den)) eqn:H2; [apply Z.ltb_lt in H2; lia|].
  apply Z.ltb_ge in H2.
  destruct (Z.even (num / den)); lia.
Qed.

Section WithLibs.

Context `{Libs}.



End WithLibs.

End Normalisation.

(** ** Paths of the store *)

Module Paths.

Import StrFacts.

Lemma endswith_sep_app a c b :
  Str.endswith (a +:+ String c b) "/" = Str.endswith (String c b) "/".
Proof.
  induction a as [|x a IH]; [done|].
  rewrite app_cons, endswith_cons, IH.
  destruct (String.eqb_spec (String x (a +:+ String c b)) "/") as [Heq|_]; [|done].
  injection Heq as _ Heq. by destruct a.
Qed.

Lemma join_rel a b :
  Str.startswith b "/" = false -> Str.truthy a = true ->
  Str.endswith a "/" = false ->
  OsPath.join a b = a +:+ "/" +:+ b.
Proof. intros Hb Ha Hs. unfold OsPath.join. by rewrite Hb, Ha, Hs. Qed.

(** Joining a name that starts with a letter to a directory [a] gives a
    path that is not empty and has no separator at its end. *)
Lemma join_name_shape a c b :
  Str.startswith (String c b) "/" = false ->
  exists pre, OsPath.join a (String c b) = pre +:+ String c b.
Proof.
  intros Hb. unfold OsPath.join. rewrite Hb.
  destruct (negb (Str.truthy a) || Str.endswith a "/").
  - by exists a.
  - exists (a +:+ "/"). by rewrite app_assoc.
Qed.

Section WithBase.

Context (BASE_DIR : string).

Local Abbreviation ROOT := (MEDIA_ROOT BASE_DIR).

Lemma root_truthy : Str.truthy ROOT = true.
Proof.
  destruct (join_name_shape BASE_DIR "G" "lobalMedia" eq_refl) as [pre Hpre].
  unfold MEDIA_ROOT. rewrite Hpre. by destruct pre.
Qed.

Lemma root_no_sep : Str.endswith ROOT "/" = false.
Proof.
  destruct (join_name_shape BASE_DIR "G" "lobalMedia" eq_refl) as [pre Hpre].
  unfold MEDIA_ROOT. rewrite Hpre. by rewrite endswith_sep_app.
Qed.

Lemma join_root b :
  Str.startswith b "/" = false -> OsPath.join ROOT b = ROOT +:+ "/" +:+ b.
Proof. intros Hb. apply join_rel; auto using root_truthy, root_no_sep. Qed.

(** A directory [name] of the media root, and a file [n] in it. *)
Lemma join_root_dir c name n :
  Str.startswith (String c name) "/" = false ->
  Str.endswith (String c name) "/" = false ->
  Str.startswith n "/" = false ->
  OsPath.join (OsPath.join ROOT (String c name)) n
  = ROOT +:+ "/" +:+ String c name +:+ "/" +:+ n.
Proof.
  intros Hc He Hn. rewrite (join_root _ Hc). rewrite join_rel; [by str_norm|done| |].
  - pose proof root_truthy. by destruct ROOT.
  - change (ROOT +:+ "/" +:+ String c name)
      with (ROOT +:+ String "/" (String c name)).
    rewrite endswith_sep_app, endswith_cons, He. by destruct name.
Qed.

Lemma join_root_ref c name n :
  Str.startswith (String c name) "/" = false ->
  OsPath.join ROOT (String c name +:+ "/" +:+ n)
  = ROOT +:+ "/" +:+ String c name +:+ "/" +:+ n.
Proof. intros Hc. rewrite join_root; [done|]. by rewrite app_cons. Qed.

Lemma base_image_path n :
  Str.startswith n "/" = false ->
  get_base_image_path BASE_DIR n = ROOT +:+ "/base_images/" +:+ n.
Proof.
  intros Hn. unfold get_base_image_path, MEDIA_BASE_IMAGES.
  by rewrite (join_root_dir "b" "ase_images" n).
Qed.

Lemma base_video_path n :
  Str.startswith n "/" = false ->
  get_base_video_path BASE_DIR n = ROOT +:+ "/base_videos/" +:+ n.
Proof.
  intros Hn. unfold get_base_video_path, MEDIA_BASE_VIDEOS.
  by rewrite (join_root_dir "b" "ase_videos" n).
Qed.

Lemma overlay_path n :
  Str.startswith n "/" = false ->
  get_overlay_path BASE_DIR n = ROOT +:+ "/overlays/" +:+ n.
Proof.
  intros Hn. unfold get_overlay_path, MEDIA_OVERLAYS.
  by rewrite (join_root_dir "o" "verlays" n).
Qed.

Lemma registry_path :
  MEDIA_REGISTRY_PATH BASE_DIR = ROOT +:+ "/media_registry.json".
Proof. unfold MEDIA_REGISTRY_PATH. by rewrite join_root. Qed.

Lemma base_images_dir : MEDIA_BASE_IMAGES BASE_DIR = ROOT +:+ "/base_images".
Proof. unfold MEDIA_BASE_IMAGES. by rewrite join_root. Qed.

Lemma base_videos_dir : MEDIA_BASE_VIDEOS BASE_DIR = ROOT +:+ "/base_videos".
Proof. unfold MEDIA_BASE_VIDEOS. by rewrite join_root. Qed.

Lemma overlays_dir : MEDIA_OVERLAYS BASE_DIR = ROOT +:+ "/overlays".
Proof. unfold MEDIA_OVERLAYS. by rewrite join_root. Qed.

End WithBase.

End Paths.

(** ** Directory listings *)

Module Dirs.

Import StrFacts.

Lemma entry_name_spec dir p n :
  entry_name dir p = Some n <-> p = dir +:+ "/" +:+ n /\ plain n.
Proof.
  unfold entry_name, plain.
  destruct (remove_prefix (dir +:+ "/") p) as [m|] eqn:Hm.
  - apply remove_prefix_spec in Hm. rewrite app_assoc in Hm. subst p.
    destruct (Str.truthy m) eqn:Ht, (Str.contains m "/") eqn:Hc; simpl.
    + split; [done|]. intros [Heq [_ Hn]]. apply (inj (String.app _)) in Heq.
      apply (inj (String.app _)) in Heq. congruence.
    + split; [by intros [= ->]|]. intros [Heq _].
      apply (inj (String.app _)) in Heq. apply (inj (String.app _)) in Heq.
      by subst.
    + split; [done|]. intros [Heq [Hn _]]. apply (inj (String.app _)) in Heq.
      apply (inj (String.app _)) in Heq. congruence.
    + split; [done|]. intros [Heq [Hn _]]. apply (inj (String.app _)) in Heq.
      apply (inj (String.app _)) in Heq. congruence.
  - split; [done|]. intros [-> _].
    assert (remove_prefix (dir +:+ "/") (dir +:+ "/" +:+ n) = Some n) as Hr.
    { apply remove_prefix_spec. by rewrite app_assoc. }
    congruence.
Qed.

Lemma elem_of_omap_entry_name dir (keys : list string) n :
  n ∈ omap (entry_name dir) keys <-> dir +:+ "/" +:+ n ∈ keys /\ plain n.
Proof.
  rewrite list_elem_of_omap. split.
  - intros (p & Hp & Hn). apply entry_name_spec in Hn as [-> Hn]. done.
  - intros [Hin Hn]. exists (dir +:+ "/" +:+ n). split; [done|].
    by apply entry_name_spec.
Qed.

Section WithLibs.

Context `{Libs}.

Lemma elem_of_listdir d dir n :
  n ∈ listdir d dir <-> plain n /\ is_Some (files d !! (dir +:+ "/" +:+ n)).
Proof.
  unfold listdir. rewrite (listdir_order_perm _), elem_of_omap_entry_name.
  rewrite <- elem_of_dom. split.
  - intros [Hin Hn]. split; [done|].
    apply list_elem_of_fmap in Hin as ([k c] & -> & Hin).
    apply elem_of_map_to_list in Hin. apply elem_of_dom. eauto.
  - intros [Hn Hin]. split; [|done].
    apply elem_of_dom in Hin as [c Hc].
    apply list_elem_of_fmap. exists (dir +:+ "/" +:+ n, c). split; [done|].
    by apply elem_of_map_to_list.
Qed.

Lemma NoDup_omap_entry_name dir (keys : list string) :
  NoDup keys -> NoDup (omap (entry_name dir) keys).
Proof.
  induction 1 as [|k keys Hk Hnd IH]; simpl; [constructor|].
  destruct (entry_name dir k) as [n|] eqn:Hn; [|done].
  constructor; [|done]. intros Hin.
  apply elem_of_omap_entry_name in Hin as [Hin _].
  apply entry_name_spec in Hn as [-> _]. done.
Qed.

Lemma NoDup_listdir d dir : NoDup (listdir d dir).
Proof.
  unfold listdir. rewrite (listdir_order_perm _).
  apply NoDup_omap_entry_name, NoDup_fst_map_to_list.
Qed.

Lemma filter_none (P : string -> Prop) `{forall x, Decision (P x)} l :
  (forall y, y ∈ l -> ~ P y) -> filter P l = [].
Proof.
  induction l as [|y l IH]; intros Hall; [done|].
  rewrite filter_cons_False by (apply Hall; left).
  apply IH. intros z Hz. apply Hall. by right.
Qed.

Lemma filter_singleton (P : string -> Prop) `{forall x, Decision (P x)} l x :
  NoDup l -> x ∈ l -> P x -> (forall y, P y -> y = x) -> filter P l = [x].
Proof.
  intros Hnd Hin Hx Huniq. induction Hnd as [|y l Hy Hnd IH].
  - by apply elem_of_nil in Hin.
  - apply elem_of_cons in Hin as [<-|Hin].
    + rewrite filter_cons_True by done. f_equal.
      apply filter_none. intros z Hz HPz. apply Huniq in HPz. by subst.
    + rewrite filter_cons_False; [by apply IH|].
      intros HPy. apply Huniq in HPy. by subst.
Qed.

End WithLibs.

End Dirs.

(** ** The registry and the attach pipeline *)

Module Pipeline.

Import StrFacts.

Section WithStore.

Context `{Libs} (BASE_DIR : string).

Local Abbreviation ROOT := (MEDIA_ROOT BASE_DIR).
Local Abbreviation REG := (MEDIA_REGISTRY_PATH BASE_DIR).
Local Abbreviation load := (_load_media_registry BASE_DIR).

Lemma save_registry_eq reg d :
  _save_media_registry BASE_DIR reg d =
  if bool_decide (REG ∈ locked d) then (d, Raise StorageError)
  else (Disk (<[REG := Json reg.1 reg.2]> (files d)) (locked d), Ret tt).
Proof. reflexivity. Qed.

Lemma load_saved reg f l : load (Disk (<[REG := Json reg.1 reg.2]> f) l) = reg.
Proof.
  unfold _load_media_registry. simpl. rewrite lookup_insert_eq. by destruct reg.
Qed.

Lemma load_same d d' : files d' !! REG = files d !! REG -> load d' = load d.
Proof. intros Heq. unfold _load_media_registry. by rewrite Heq. Qed.

Lemma off_registry_refl d : off_registry BASE_DIR d d.
Proof. by split. Qed.

Lemma off_registry_trans d1 d2 d3 :
  off_registry BASE_DIR d1 d2 -> off_registry BASE_DIR d2 d3 ->
  off_registry BASE_DIR d1 d3.
Proof.
  intros [Hl1 Hf1] [Hl2 Hf2]. split; [congruence|].
  intros p Hp. by rewrite Hf2, Hf1.
Qed.

Lemma off_registry_saved reg d :
  off_registry BASE_DIR d
    (Disk (<[REG := Json reg.1 reg.2]> (files d)) (locked d)).
Proof. split; [done|]. intros p Hp. simpl. by rewrite lookup_insert_ne. Qed.

Lemma kind_dir_cases mt :
  kind_dir mt = "base_images" \/ kind_dir mt = "base_videos".
Proof. unfold kind_dir. destruct (String.eqb mt "image"); auto. Qed.

(** The path of a file of a base directory is not the path of the
    registry. *)
Lemma stored_path_not_registry mt fn :
  ROOT +:+ "/" +:+ kind_dir mt +:+ "/" +:+ fn <> REG.
Proof.
  rewrite Paths.registry_path. intros Heq. apply (inj (String.app _)) in Heq.
  destruct (kind_dir_cases mt) as [Hk|Hk]; rewrite Hk in Heq; discriminate Heq.
Qed.

Lemma stored_off_registry d d' mt v :
  off_registry BASE_DIR d d' -> stored BASE_DIR d mt v -> stored BASE_DIR d' mt v.
Proof.
  intros [_ Hf] (fn & -> & Hfn & Hex). exists fn. repeat split; try apply Hfn.
  rewrite Hf; [done|]. apply stored_path_not_registry.
Qed.

(** A relative reference without one of the three file-name prefixes is
    looked for under the media root, then under the project root. *)
Lemma resolve_relative d ref root :
  Str.truthy ref = true -> OsPath.isabs ref = false ->
  Str.startswith ref "MEDIA_IMG__" = false ->
  Str.startswith ref "MEDIA_VID__" = false ->
  Str.startswith ref "CANVAS__" = false ->
  resolve_media_path BASE_DIR d ref root =
  if path_exists d (OsPath.join ROOT ref) then Some (OsPath.join ROOT ref)
  else match root with
       | Some r => try_path d (OsPath.join r ref) None
       | None => None
       end.
Proof.
  intros Ht Habs Hi Hv Ho. unfold resolve_media_path, resolve_kind, try_path.
  rewrite Ht, Habs, Hi, Hv, Ho. simpl.
  destruct (path_exists d (OsPath.join ROOT ref));
    by destruct (is_base_image_ref ref), (is_base_video_ref ref),
         (is_overlay_ref ref).
Qed.

Lemma kind_ref_resolves d mt fn :
  ref_resolves BASE_DIR d (kind_dir mt +:+ "/" +:+ fn)
  = path_exists d (ROOT +:+ "/" +:+ kind_dir mt +:+ "/" +:+ fn).
Proof.
  unfold ref_resolves.
  rewrite resolve_relative;
    try (destruct (kind_dir_cases mt) as [-> | ->]; reflexivity).
  rewrite Paths.join_root
    by (destruct (kind_dir_cases mt) as [-> | ->]; reflexivity).
  by destruct (path_exists d _) eqn:Hex.
Qed.

Lemma stored_usable d mt v :
  stored BASE_DIR d mt v -> usable BASE_DIR d (Some v) = true.
Proof.
  intros (fn & -> & Hfn & Hex). unfold usable.
  rewrite kind_ref_resolves. unfold path_exists.
  rewrite bool_decide_eq_true_2 by done.
  destruct (kind_dir_cases mt) as [-> | ->]; reflexivity.
Qed.

Lemma join_kind_dir mt fn :
  Str.contains fn "/" = false ->
  OsPath.join (OsPath.join ROOT (kind_dir mt)) fn
  = ROOT +:+ "/" +:+ kind_dir mt +:+ "/" +:+ fn.
Proof.
  intros Hfn. apply plain_not_abs in Hfn.
  destruct (kind_dir_cases mt) as [-> | ->]; by apply Paths.join_root_dir.
Qed.

(** A round of a scan keeps the entries of the section, and an entry it
    adds is the reference of a stored file. *)
Lemma scan_entry_spec d mt exts hash_of sec fn :
  plain fn ->
  let sec' :=
    scan_entry d exts (OsPath.join ROOT (kind_dir mt)) (kind_dir mt) hash_of
      sec fn in
  (forall k v, sec !! k = Some v -> sec' !! k = Some v)
  /\ (forall k v, sec' !! k = Some v ->
        sec !! k = Some v \/ stored BASE_DIR d mt v).
Proof.
  intros Hfn. unfold scan_entry.
  destruct (negb (ext_in exts fn)); [by auto|].
  rewrite join_kind_dir by apply Hfn.
  destruct (files d !! _) as [c|] eqn:Hc; [|by auto].
  destruct (hash_of (read_bytes c)) as [h|]; [|by auto].
  destruct (Str.truthy h && _ && negb (bool_decide (is_Some (sec !! h))))
    eqn:Hcond; [|by auto].
  apply andb_true_iff in Hcond as [_ Hfree].
  apply negb_true_iff, bool_decide_eq_false in Hfree.
  split; intros k v Hk.
  - rewrite lookup_insert_ne; [done|]. intros ->. apply Hfree. eauto.
  - destruct (decide (h = k)) as [->|Hne].
    + rewrite lookup_insert_eq in Hk. injection Hk as <-. right.
      exists fn. repeat split; try apply Hfn. eauto.
    + rewrite lookup_insert_ne in Hk by done. by left.
Qed.

Lemma scan_fold_spec d mt exts hash_of l sec :
  Forall plain l ->
  let sec' :=
    fold_left
      (scan_entry d exts (OsPath.join ROOT (kind_dir mt)) (kind_dir mt) hash_of)
      l sec in
  (forall k v, sec !! k = Some v -> sec' !! k = Some v)
  /\ (forall k v, sec' !! k = Some v ->
        sec !! k = Some v \/ stored BASE_DIR d mt v).
Proof.
  intros Hl. revert sec. induction Hl as [|fn l Hfn Hl IH]; intros sec; [by auto|].
  simpl. destruct (scan_entry_spec d mt exts hash_of sec fn Hfn) as [Hkeep Hnew].
  destruct (IH (scan_entry d exts (OsPath.join ROOT (kind_dir mt)) (kind_dir mt)
                  hash_of sec fn)) as [Hkeep' Hnew'].
  split; intros k v Hk.
  - by apply Hkeep', Hkeep.
  - apply Hnew' in Hk as [Hk|Hk]; [by apply Hnew|by right].
Qed.

Lemma listdir_plain d dir : Forall plain (listdir d dir).
Proof. apply Forall_forall. intros n Hn. by apply Dirs.elem_of_listdir in Hn as [? _]. Qed.

Lemma scan_for_grown d mt reg : grown BASE_DIR d mt reg (scan_for BASE_DIR mt d reg).
Proof.
  unfold grown, scan_for, section, _scan_base_images_and_register,
    _scan_base_videos_and_register.
  destruct (String.eqb mt "image") eqn:Hmt; simpl.
  - assert (kind_dir mt = "base_images") as Hk by (unfold kind_dir; by rewrite Hmt).
    pose proof (scan_fold_spec d mt image_exts
                  (fun data => _compute_pil_hash <$> im_open data)
                  (listdir d (MEDIA_BASE_IMAGES BASE_DIR)) reg.1
                  (listdir_plain _ _)) as Hspec.
    by rewrite Hk in Hspec.
  - assert (kind_dir mt = "base_videos") as Hk by (unfold kind_dir; by rewrite Hmt).
    pose proof (scan_fold_spec d mt video_exts
                  (fun data => Some (_compute_file_hash data))
                  (listdir d (MEDIA_BASE_VIDEOS BASE_DIR)) reg.2
                  (listdir_plain _ _)) as Hspec.
    by rewrite Hk in Hspec.
Qed.

Lemma grown_refl d mt reg : grown BASE_DIR d mt reg reg.
Proof. split; auto. Qed.

Lemma grown_trans d d' mt reg0 reg1 reg2 :
  off_registry BASE_DIR d d' ->
  grown BASE_DIR d mt reg0 reg1 -> grown BASE_DIR d' mt reg1 reg2 ->
  grown BASE_DIR d' mt reg0 reg2.
Proof.
  intros Hoff [Hk1 Hn1] [Hk2 Hn2]. split; intros k v Hk.
  - by apply Hk2, Hk1.
  - apply Hn2 in Hk as [Hk|Hk]; [|by right].
    apply Hn1 in Hk as [Hk|Hk]; [by left|right].
    by apply (stored_off_registry d d').
Qed.

Lemma grown_off_registry d d' mt reg0 reg1 :
  off_registry BASE_DIR d d' ->
  grown BASE_DIR d mt reg0 reg1 -> grown BASE_DIR d' mt reg0 reg1.
Proof.
  intros Hoff Hg. apply (grown_trans d d' mt reg0 reg1 reg1); auto using grown_refl.
Qed.

(** An entry that does not name an existing file was not added by a
    scan. *)
Lemma unusable_unchanged d mt reg0 reg1 h :
  grown BASE_DIR d mt reg0 reg1 ->
  usable BASE_DIR d (section mt reg1 !! h) = false ->
  section mt reg1 !! h = section mt reg0 !! h.
Proof.
  intros [Hkeep Hnew] Hun.
  destruct (section mt reg1 !! h) as [v|] eqn:H1.
  - apply Hnew in H1 as [H0|Hst]; [done|].
    apply stored_usable in Hst. congruence.
  - destruct (section mt reg0 !! h) as [v|] eqn:H0; [|done].
    apply Hkeep in H0. congruence.
Qed.

(** [_ensure_registry_is_populated] touches the registry file only, and
    what it returns is what the file holds afterwards. *)
Lemma ensure_spec mt d d' out :
  _ensure_registry_is_populated BASE_DIR mt d = (d', out) ->
  off_registry BASE_DIR d d'
  /\ grown BASE_DIR d' mt (load d) (load d')
  /\ match out with
     | Ret reg => reg = load d'
     | Raise e => d' = d /\ e = StorageError
     end.
Proof.
  unfold _ensure_registry_is_populated. m_unfold.
  destruct (negb (path_exists d REG) || _).
  - rewrite save_registry_eq. destruct (bool_decide (REG ∈ locked d)).
    + intros [= <- <-]. auto using off_registry_refl, grown_refl.
    + intros [= <- <-]. split; [apply off_registry_saved|].
      rewrite load_saved. split; [|done].
      apply (grown_off_registry d); [apply off_registry_saved|].
      apply scan_for_grown.
  - intros [= <- <-]. auto using off_registry_refl, grown_refl.
Qed.

Lemma usable_eq d o :
  usable BASE_DIR d o =
  match o with
  | Some r => Str.truthy r && ref_resolves BASE_DIR d r
  | None => false
  end.
Proof. reflexivity. Qed.

(** [_find_existing_by_hash_or_scan] touches the registry file only; the
    reference it returns is the one the file then holds for the hash. *)
Lemma find_spec h mt d d' out :
  Str.truthy h = true ->
  _find_existing_by_hash_or_scan BASE_DIR h mt d = (d', out) ->
  off_registry BASE_DIR d d'
  /\ grown BASE_DIR d' mt (load d) (load d')
  /\ match out with
     | Ret o => o = section mt (load d') !! h
     | Raise e =>
         e = StorageError
         /\ section mt (load d') !! h = section mt (load d) !! h
     end.
Proof.
  intros Hh. unfold _find_existing_by_hash_or_scan. rewrite Hh. m_unfold.
  destruct (_ensure_registry_is_populated BASE_DIR mt d) as [d1 o1] eqn:He.
  apply ensure_spec in He as (Hoff1 & Hg1 & Ho1).
  destruct o1 as [reg|e].
  2:{ intros [= <- <-]. destruct Ho1 as [-> ->].
      auto using off_registry_refl, grown_refl. }
  subst reg. rewrite <- usable_eq.
  destruct (usable BASE_DIR d1 (section mt (load d1) !! h)) eqn:Hus.
  { intros [= <- <-]. auto. }
  rewrite save_registry_eq. destruct (bool_decide (REG ∈ locked d1)).
  - intros [= <- <-]. split_and!; [done..|]. by apply (unusable_unchanged d1).
  - intros [= <- <-]. rewrite load_saved.
    pose proof (off_registry_saved (scan_for BASE_DIR mt d1 (load d1)) d1) as Hoff2.
    split_and!; [by apply (off_registry_trans d d1)| |done].
    apply (grown_trans d1 _ mt (load d) (load d1)); [done|done|].
    apply (grown_off_registry d1); [done|]. apply scan_for_grown.
Qed.

Lemma section_set_section mt sec reg : section mt (set_section mt sec reg) = sec.
Proof. unfold section, set_section. by destruct (String.eqb mt "image"). Qed.

Lemma register_eq h ref mt d :
  _register_media BASE_DIR h ref mt d =
  _save_media_registry BASE_DIR
    (set_section mt (<[h := ref]> (section mt (load d))) (load d)) d.
Proof. reflexivity. Qed.

(** The outcome of the part the two attach functions share. *)
Lemma dedup_or_store_spec h mt P c ref d d' out :
  Str.truthy h = true -> P <> REG -> Str.truthy ref = true ->
  (forall d0, ref_resolves BASE_DIR d0 ref = path_exists d0 P) ->
  dedup_or_store BASE_DIR h mt P c ref d = (d', out) ->
  locked d' = locked d
  /\ (forall p, p <> REG -> p <> P -> files d' !! p = files d !! p)
  /\ (forall k v, section mt (load d') !! k = Some v ->
        section mt (load d) !! k = Some v \/ stored BASE_DIR d' mt v
        \/ (k = h /\ v = ref /\ files d' !! P = Some c))
  /\ match out with
     | Ret o =>
         exists r, o = Some r /\ section mt (load d') !! h = Some r
           /\ usable BASE_DIR d' (Some r) = true
           /\ (off_registry BASE_DIR d d' \/ (r = ref /\ files d' !! P = Some c))
     | Raise e =>
         e = StorageError
         /\ section mt (load d') !! h = section mt (load d) !! h
     end.
Proof.
  intros Hh HP Href Hres. unfold dedup_or_store. m_unfold.
  destruct (_find_existing_by_hash_or_scan BASE_DIR h mt d) as [d1 o1] eqn:Hf.
  pose proof Hf as Hf'.
  apply find_spec in Hf' as ([Hl1 Hf1] & [Hk1 Hn1] & Ho1); [|done].
  assert (Hold : forall k v, section mt (load d1) !! k = Some v ->
            section mt (load d) !! k = Some v \/ stored BASE_DIR d1 mt v
            \/ (k = h /\ v = ref /\ files d1 !! P = Some c)).
  { intros k v Hk. apply Hn1 in Hk as [?|?]; auto. }
  destruct o1 as [o|e].
  2:{ intros [= <- <-]. destruct Ho1 as [-> Ho1]. split_and!; auto. }
  subst o. destruct (usable BASE_DIR d1 (section mt (load d1) !! h)) eqn:Hus.
  { intros [= <- <-]. split_and!; auto.
    destruct (section mt (load d1) !! h) as [r|] eqn:Hr; [|done].
    exists r. split_and!; auto. left. by split. }
  unfold write_file at 1. rewrite <- Hl1.
  destruct (bool_decide (P ∈ locked d1)) eqn:Hlk.
  { intros [= <- <-]. rewrite Hl1. split_and!; auto.
    by apply (unusable_unchanged d1). }
  set (d2 := Disk (<[P := c]> (files d1)) (locked d1)).
  assert (load d2 = load d1) as Hload2.
  { apply load_same. simpl. by rewrite lookup_insert_ne. }
  assert (Hst2 : forall f v, f !! P = Some c ->
            (forall p, p <> REG -> p <> P -> f !! p = files d1 !! p) ->
            stored BASE_DIR d1 mt v -> stored BASE_DIR (Disk f (locked d1)) mt v).
  { intros f v HfP Hfo (fn & -> & Hfn & Hex). exists fn.
    split_and!; try apply Hfn; [done|]. simpl.
    destruct (decide (ROOT +:+ "/" +:+ kind_dir mt +:+ "/" +:+ fn = P)) as [->|Hne].
    - by rewrite HfP.
    - rewrite Hfo; [done|apply stored_path_not_registry|done]. }
  rewrite register_eq, save_registry_eq, Hload2. simpl locked.
  destruct (bool_decide (REG ∈ locked d1)).
  - intros [= <- <-]. rewrite Hload2. split_and!; auto.
    + intros p Hp1 Hp2. simpl. rewrite lookup_insert_ne by done. auto.
    + intros k v Hk. apply Hn1 in Hk as [?|Hst]; auto. right; left.
      apply Hst2; [by rewrite lookup_insert_eq| |done].
      intros p _ Hp. by rewrite lookup_insert_ne.
    + by apply (unusable_unchanged d1).
  - intros [= <- <-]. rewrite load_saved, section_set_section. simpl.
    set (f := <[REG:=_]> (<[P:=c]> (files d1))).
    assert (f !! P = Some c) as HPc.
    { unfold f. rewrite lookup_insert_ne by done. by rewrite lookup_insert_eq. }
    split_and!; auto.
    + intros p Hp1 Hp2. unfold f. rewrite !lookup_insert_ne by done. auto.
    + intros k v Hk. destruct (decide (h = k)) as [<-|Hne].
      * rewrite lookup_insert_eq in Hk. injection Hk as <-. auto.
      * rewrite lookup_insert_ne in Hk by done.
        apply Hn1 in Hk as [?|Hst]; auto. right; left.
        apply Hst2; [done| |done].
        intros p Hp1 Hp2. unfold f. by rewrite !lookup_insert_ne.
    + exists ref. rewrite lookup_insert_eq. split_and!; auto.
      unfold usable. rewrite Href, Hres. unfold path_exists. simpl.
      rewrite HPc. by rewrite bool_decide_eq_true_2 by eauto.
Qed.

(** Once the registry holds a usable reference for the hash, the shared
    part returns it and leaves the disk as it is. *)
Lemma dedup_hit h mt P c ref d r :
  Str.truthy h = true ->
  section mt (load d) !! h = Some r -> usable BASE_DIR d (Some r) = true ->
  dedup_or_store BASE_DIR h mt P c ref d = (d, Ret (Some r)).
Proof.
  intros Hh Hr Hus.
  assert (path_exists d REG = true) as Hex.
  { unfold path_exists. apply bool_decide_eq_true_2.
    revert Hr. unfold _load_media_registry.
    destruct (files d !! REG) as [[|i v]|]; eauto;
      unfold section; destruct (String.eqb mt "image"); simpl;
      by rewrite lookup_empty. }
  assert (bool_decide (section mt (load d) = ∅) = false) as Hne.
  { apply bool_decide_eq_false_2. intros Hemp. by rewrite Hemp, lookup_empty in Hr. }
  unfold dedup_or_store, _find_existing_by_hash_or_scan,
    _ensure_registry_is_populated.
  rewrite Hh. m_unfold. rewrite Hex, Hne. simpl. rewrite Hr.
  pose proof Hus as Hus'. unfold usable in Hus'. rewrite Hus'.
  cbv beta iota. by rewrite Hus.
Qed.

Lemma jpg_path_jpg pre : jpg_path (pre +:+ ".jpg") = pre +:+ ".jpg".
Proof.
  unfold jpg_path. rewrite lower_app.
  assert (Str.endswith (Str.lower pre +:+ Str.lower ".jpg") ".jpg" = true) as ->; [|done].
  apply endswith_spec. by exists (Str.lower pre).
Qed.

Lemma image_filename uid :
  generate_base_media_filename uid ".jpg" = "MEDIA_IMG__" +:+ uid +:+ ".jpg".
Proof. reflexivity. Qed.

Lemma image_path_jpg uid :
  jpg_path (get_base_image_path BASE_DIR (generate_base_media_filename uid ".jpg"))
  = get_base_image_path BASE_DIR (generate_base_media_filename uid ".jpg").
Proof.
  rewrite image_filename, Paths.base_image_path by done.
  rewrite <- !app_assoc. apply jpg_path_jpg.
Qed.

(** An upload through [attach_media] runs the shared part on its plan, or
    raises when the image does not decode. *)
Lemma attach_media_upload uid data filename mt d :
  attach_media BASE_DIR uid None (Some data) filename None None mt d =
  match upload_plan BASE_DIR mt uid data filename with
  | Some (h, P, c, ref) => dedup_or_store BASE_DIR h (kind_of mt) P c ref d
  | None => (d, Raise DecodeError)
  end.
Proof.
  unfold attach_media, upload_plan, kind_of.
  destruct (String.eqb mt "video"); [reflexivity|].
  unfold _attach_image, attach_source.
  destruct (decode_upload_to_pil data _) as [img|]; [|reflexivity].
  unfold dedup_or_store, pil_to_jpg. rewrite image_path_jpg. m_unfold.
  destruct (_find_existing_by_hash_or_scan _ _ _ d) as [d1 [o|e]]; [|done].
  destruct (usable BASE_DIR d1 o); [done|].
  by destruct (write_file _ _ d1) as [d2 [[]|e]].
Qed.

Lemma split_component_app nd s root ext :
  OsPath.split_component nd s = Some (root, ext) -> s = root +:+ ext.
Proof.
  revert nd root ext. induction s as [|c s IH]; intros nd root ext; [done|].
  simpl. destruct (OsPath.split_component _ s) as [[r e]|] eqn:Hs.
  - intros [= <- <-]. by rewrite (IH _ _ _ Hs).
  - destruct (Ascii.eqb c "." && nd); [|done]. by intros [= <- <-].
Qed.

Lemma basename_no_sep p : Str.contains (OsPath.basename p) "/" = false.
Proof.
  induction p as [|c p IH]; [done|]. simpl.
  destruct (Str.contains p "/") eqn:Hp; [done|].
  destruct (Ascii.eqb_spec c "/") as [->|Hne]; [done|].
  rewrite has_sep_cons, Hp, orb_false_r.
  apply Ascii.eqb_neq. congruence.
Qed.

Lemma splitext_ext_no_sep p : Str.contains (OsPath.splitext p).2 "/" = false.
Proof.
  unfold OsPath.splitext.
  destruct (OsPath.split_component false (OsPath.basename p)) as [[r e]|] eqn:Hs;
    [|done].
  simpl. apply split_component_app in Hs.
  pose proof (basename_no_sep p) as Hb. rewrite Hs, has_sep_app in Hb.
  by apply orb_false_iff in Hb as [_ ?].
Qed.

Lemma dotted_lower_no_sep ext :
  Str.contains ext "/" = false -> Str.contains (dotted_lower ext) "/" = false.
Proof.
  intros Hext. unfold dotted_lower. destruct (Str.startswith ext ".").
  - by rewrite lower_has_sep.
  - by rewrite has_sep_app, lower_has_sep, Hext.
Qed.

(** What an upload plan is made of. *)
Lemma upload_plan_spec mt uid data filename h P c ref :
  upload_plan BASE_DIR mt uid data filename = Some (h, P, c, ref) ->
  Str.truthy h = true
  /\ exists fn, ref = kind_dir (kind_of mt) +:+ "/" +:+ fn
       /\ P = ROOT +:+ "/" +:+ ref
       /\ Str.truthy fn = true
       /\ (Str.contains uid "/" = false -> Str.contains fn "/" = false).
Proof.
  unfold upload_plan, kind_of. destruct (String.eqb mt "video").
  - intros [= <- <- <- <-]. split; [apply sha256_hex_truthy|].
    eexists. split_and!; [reflexivity| | |].
    + by rewrite Paths.base_video_path.
    + done.
    + intros Huid. unfold generate_base_video_filename.
      rewrite !has_sep_app, Huid. simpl. apply dotted_lower_no_sep.
      destruct (Str.truthy _); [|done].
      rewrite lower_has_sep. apply splitext_ext_no_sep.
  - destruct (decode_upload_to_pil data _) as [img|]; [|done].
    intros [= <- <- <- <-]. split; [apply sha256_hex_truthy|].
    eexists. split_and!; [reflexivity| | |].
    + by rewrite Paths.base_image_path.
    + done.
    + intros Huid. rewrite image_filename, !has_sep_app, Huid. done.
Qed.

Lemma upload_plan_ok mt uid data filename h P c ref :
  upload_plan BASE_DIR mt uid data filename = Some (h, P, c, ref) ->
  Str.truthy h = true /\ P <> REG /\ Str.truthy ref = true
  /\ (forall d0, ref_resolves BASE_DIR d0 ref = path_exists d0 P).
Proof.
  intros Hplan. apply upload_plan_spec in Hplan as (Hh & fn & -> & -> & _).
  split_and!; [done| | |].
  - apply stored_path_not_registry.
  - by destruct (kind_dir_cases (kind_of mt)) as [-> | ->].
  - intros d0. apply kind_ref_resolves.
Qed.


Lemma save_returns reg d :
  locked d = ∅ ->
  _save_media_registry BASE_DIR reg d
  = (Disk (<[REG := Json reg.1 reg.2]> (files d)) (locked d), Ret tt).
Proof.
  intros Hl. rewrite save_registry_eq, Hl.
  by rewrite bool_decide_eq_false_2 by set_solver.
Qed.

Lemma find_returns h mt d :
  locked d = ∅ ->
  exists d1 o,
    _find_existing_by_hash_or_scan BASE_DIR h mt d = (d1, Ret o)
    /\ locked d1 = ∅.
Proof.
  intros Hl. unfold _find_existing_by_hash_or_scan, _ensure_registry_is_populated.
  m_unfold. destruct (negb (Str.truthy h)); [by eauto|].
  destruct (negb (path_exists d REG) || _).
  - rewrite (save_returns _ d Hl).
    destruct (match section mt _ !! h with Some _ => _ | None => _ end);
      [by eauto|].
    rewrite save_returns by done. by eauto.
  - destruct (match section mt _ !! h with Some _ => _ | None => _ end);
      [by eauto|].
    rewrite save_returns by done. by eauto.
Qed.

(** Without refused paths the shared part does not raise. *)
Lemma dedup_or_store_returns h mt P c ref d d' out :
  locked d = ∅ ->
  dedup_or_store BASE_DIR h mt P c ref d = (d', out) ->
  exists o, out = Ret o.
Proof.
  intros Hl. unfold dedup_or_store. m_unfold.
  destruct (find_returns h mt d Hl) as (d1 & o & -> & Hl1).
  destruct (usable BASE_DIR d1 o); [intros [= <- <-]; eauto|].
  unfold write_file. rewrite Hl1. rewrite bool_decide_eq_false_2 by set_solver.
  rewrite register_eq, save_returns by done. intros [= <- <-]; eauto.
Qed.

Lemma upload_plan_hash mt uid data filename h :
  upload_hash BASE_DIR mt data filename = Some h ->
  exists P c ref, upload_plan BASE_DIR mt uid data filename = Some (h, P, c, ref).
Proof.
  unfold upload_hash, upload_plan. destruct (String.eqb mt "video").
  - intros [= <-]. by eauto.
  - destruct (decode_upload_to_pil data _) as [img|]; [|done].
    intros [= <-]. by eauto.
Qed.

Lemma attach_repeatedly_cons mt data filename uid uids d :
  attach_repeatedly BASE_DIR mt data filename (uid :: uids) d =
  let '(d1, out) :=
    attach_media BASE_DIR uid None (Some data) filename None None mt d in
  let '(d2, outs) := attach_repeatedly BASE_DIR mt data filename uids d1 in
  (d2, out :: outs).
Proof. reflexivity. Qed.

(** Once the registry holds a usable reference for the hash of an upload,
    every further attach of the upload returns it and changes nothing. *)
Lemma attach_repeatedly_hit mt data filename h r uids d :
  upload_hash BASE_DIR mt data filename = Some h ->
  section (kind_of mt) (load d) !! h = Some r ->
  usable BASE_DIR d (Some r) = true ->
  attach_repeatedly BASE_DIR mt data filename uids d
  = (d, (fun _ => Ret (Some r)) <$> uids).
Proof.
  intros Hh Hr Hus. induction uids as [|uid uids IH]; [done|].
  rewrite attach_repeatedly_cons, attach_media_upload.
  destruct (upload_plan_hash mt uid data filename h Hh) as (P & c & ref & Hplan).
  rewrite Hplan.
  pose proof (upload_plan_ok _ _ _ _ _ _ _ _ Hplan) as (Hht & _).
  rewrite (dedup_hit h (kind_of mt) P c ref d r) by done.
  by rewrite IH.
Qed.

End WithStore.

End Pipeline.

(** What holds of repeated attaches: attaching the same upload once for
    every identifier of a list that is not empty, one call after the
    other, returns the same reference from every call; after the calls
    exactly one file of the base directory is the one registered for the
    hash of the upload, the calls after the first change nothing, and all
    of them together touch at most the registry and that one file. The
    upload decodes, no path is refused, and the registry holds references
    of the form the store writes. Whether another file of the directory
    holds the same content is not said: it can, as the trace below
    shows. *)
Theorem attach_is_idempotent `{Libs} BASE_DIR mt data filename h uid uids d0 :
  mt = "image" \/ mt = "video" ->
  upload_hash BASE_DIR mt data filename = Some h ->
  locked d0 = ∅ ->
  canonical_registry BASE_DIR d0 mt ->
  Forall (fun u => Str.contains u "/" = false) (uid :: uids) ->
  exists ref n,
    let '(dN, outs) :=
      attach_repeatedly BASE_DIR mt data filename (uid :: uids) d0 in
    outs = (fun _ => Ret (Some ref)) <$> (uid :: uids)
    /\ ref = kind_dir mt +:+ "/" +:+ n
    /\ files_registered_for BASE_DIR dN mt h = [n]
    /\ dN = (attach_media BASE_DIR uid None (Some data) filename None None
               mt d0).1
    /\ (forall p, files dN !! p <> files d0 !! p ->
          p = MEDIA_REGISTRY_PATH BASE_DIR
          \/ p = MEDIA_ROOT BASE_DIR +:+ "/" +:+ ref).
Proof.
  intros Hmt Hh Hl Hcan Huids.
  assert (kind_of mt = mt) as Hkind by (by destruct Hmt as [-> | ->]).
  rewrite Pipeline.attach_repeatedly_cons, Pipeline.attach_media_upload.
  destruct (Pipeline.upload_plan_hash BASE_DIR mt uid data filename h Hh)
    as (P & c & ref0 & Hplan).
  rewrite Hplan, Hkind.
  pose proof (Pipeline.upload_plan_ok _ _ _ _ _ _ _ _ _ Hplan)
    as (Hht & HP & Href & Hres).
  pose proof (Pipeline.upload_plan_spec _ _ _ _ _ _ _ _ _ Hplan)
    as (_ & fn & Hfn & HPfn & Hfnt & Hfns).
  rewrite Hkind in Hfn.
  destruct (dedup_or_store BASE_DIR h mt P c ref0 d0) as [d1 out] eqn:Hrun.
  destruct (Pipeline.dedup_or_store_returns _ _ _ _ _ _ _ _ _ Hl Hrun) as [o ->].
  pose proof (Pipeline.dedup_or_store_spec _ _ _ _ _ _ _ _ _ Hht HP Href Hres Hrun)
    as (Hl1 & Hoff & Hent & r & -> & Hr & Hus & Hcase).
  rewrite (Pipeline.attach_repeatedly_hit BASE_DIR mt data filename h r uids d1);
    [|done|by rewrite Hkind|done].
  assert (exists n, r = kind_dir mt +:+ "/" +:+ n /\ plain n) as (n & -> & Hn).
  { destruct (Hent h r Hr) as [Hold|[(n & -> & Hn & _)|(_ & -> & _)]].
    - by apply (Hcan h r).
    - by eauto.
    - exists fn. split; [done|]. split; [done|]. apply Hfns.
      by apply Forall_cons in Huids as [? _]. }
  exists (kind_dir mt +:+ "/" +:+ n), n. simpl.
  split_and!; [done|done| |done|].
  - unfold files_registered_for.
    apply (Dirs.filter_singleton _ _ n).
    + apply Dirs.NoDup_listdir.
    + apply Dirs.elem_of_listdir. split; [done|].
      rewrite Paths.join_root
        by (destruct (Pipeline.kind_dir_cases mt) as [-> | ->]; reflexivity).
      unfold usable in Hus. apply andb_true_iff in Hus as [_ Hus].
      rewrite Pipeline.kind_ref_resolves in Hus.
      apply bool_decide_eq_true in Hus.
      by rewrite StrFacts.app_assoc.
    + done.
    + intros y Hy. rewrite Hr in Hy. injection Hy as Hy.
      apply (inj (String.app _)) in Hy. by apply (inj (String.app _)) in Hy.
  - intros p Hp. destruct (decide (p = MEDIA_REGISTRY_PATH BASE_DIR)) as [|Hne];
      [by left|right].
    destruct Hcase as [[_ Hsame]|[Heq _]]; [by rewrite Hsame in Hp|].
    destruct (decide (p = P)) as [->|HneP]; [|by rewrite Hoff in Hp].
    by rewrite HPfn, <- Heq.
Qed.

Lemma attach_is_idempotent_witness :
  exists ref n,
    let '(dN, outs) :=
      attach_repeatedly (H := Sample.libs) "/srv/app" "image" (Sample.upload 3600 2 [Byte.x41])
        (Some "photo.png") ["00aa"; "00bb"; "00cc"] Sample.empty_disk in
    outs = (fun _ => Ret (Some ref)) <$> ["00aa"; "00bb"; "00cc"]
    /\ ref = kind_dir "image" +:+ "/" +:+ n
    /\ files_registered_for (H := Sample.libs) "/srv/app" dN "image"
         (_compute_pil_hash (H := Sample.libs) (Sample.Img 3600 2 "RGB" [Byte.x41])) = [n]
    /\ dN = (attach_media (H := Sample.libs) "/srv/app" "00aa" None
               (Some (Sample.upload 3600 2 [Byte.x41])) (Some "photo.png")
               None None "image" Sample.empty_disk).1
    /\ (forall p, files dN !! p <> files Sample.empty_disk !! p ->
          p = MEDIA_REGISTRY_PATH "/srv/app"
          \/ p = MEDIA_ROOT "/srv/app" +:+ "/" +:+ ref).
Proof.
  apply (attach_is_idempotent (H := Sample.libs) "/srv/app" "image"
           (Sample.upload 3600 2 [Byte.x41]) (Some "photo.png")
           (_compute_pil_hash (H := Sample.libs) (Sample.Img 3600 2 "RGB" [Byte.x41]))
           "00aa" ["00bb"; "00cc"] Sample.empty_disk).
  - left. reflexivity.
  - reflexivity.
  - reflexivity.
  - intros k v Hk. vm_compute in Hk. discriminate Hk.
  - repeat constructor.
Defined.

(** C1 on the code: an image 3600 wide is attached to the empty store and
    stored as [MEDIA_IMG__00aa.jpg]; then [rebuild_media_registry] runs, or
    the registry file is lost. The same upload attached again is not
    found: the registry rebuilt from the files holds the stored file under
    the hash computed from the stored file, which is not the hash of the
    upload. Both further calls return the same reference, but it is the
    reference of a second file, [MEDIA_IMG__00bb.jpg], and the base
    directory holds two files with the same bytes for the one content. *)
Lemma attach_after_rebuild_stores_a_second_file :
  (Sample.image_run 3600 2).2 = Ret (Some "base_images/MEDIA_IMG__00aa.jpg")
  /\ Examples.rebuilt.2 = Ret (1%nat, 0%nat)
  /\ (forall d,
        d = Examples.rebuilt.1 \/ d = Examples.unregistered ->
        (Examples.attached_again d).2
        = [Ret (Some "base_images/MEDIA_IMG__00bb.jpg");
           Ret (Some "base_images/MEDIA_IMG__00bb.jpg")]
        /\ listdir (H := Sample.libs) (Examples.attached_again d).1
             (MEDIA_BASE_IMAGES "/srv/app")
           ≡ₚ ["MEDIA_IMG__00aa.jpg"; "MEDIA_IMG__00bb.jpg"]
        /\ exists stored,
             files (Examples.attached_again d).1
               !! "/srv/app/GlobalMedia/base_images/MEDIA_IMG__00aa.jpg"
             = Some (Raw stored)
             /\ files (Examples.attached_again d).1
                  !! "/srv/app/GlobalMedia/base_images/MEDIA_IMG__00bb.jpg"
                = Some (Raw stored)).
Proof.
  split; [by vm_compute|]. split; [by vm_compute|].
  intros d [-> | ->].
  - split; [by vm_compute|]. split.
    + apply (bool_decide_unpack _). by vm_compute.
    + eexists. split; vm_compute; reflexivity.
  - split; [by vm_compute|]. split.
    + apply (bool_decide_unpack _). by vm_compute.
    + eexists. split; vm_compute; reflexivity.
Qed.






(** The height of the stored image is the one binary64 arithmetic gives,
    not the exactly rounded quotient: for an upload 2272 wide and 142 high
    the exact height 112.5 rounds to 112, and the product of 142 and the
    float 1800/2272 lies above 112.5 and rounds to 113; likewise 2448 by
    85 gives 63 for 62.5. *)
Example scaled_height_of_a_tie :
  scaled_height 2272 142 MAX_IMAGE_WIDTH = Some 113
  /\ round_half_even (142 * MAX_IMAGE_WIDTH) 2272 = 112
  /\ scaled_height 2448 85 MAX_IMAGE_WIDTH = Some 63
  /\ round_half_even (85 * MAX_IMAGE_WIDTH) 2448 = 62
  /\ im_size (Libs := Sample.libs)
       (normalized_image (H := Sample.libs)
          (Sample.Img 2272 142 "RGB" [Byte.x41]))
     = (1800, 113).
Proof. vm_compute. repeat split. Qed.


(** C2 on the code: an image 3600 wide is attached to an empty store. The
    reference resolves to the stored file and the registry holds the
    reference under the hash of the upload, but the hash computed from the
    stored file, as the scans compute it, is another one. *)
Lemma attach_image_hash_differs_from_stored_file :
  (Sample.image_run 3600 2).2 = Ret (Some "base_images/MEDIA_IMG__00aa.jpg")
  /\ resolve_media_path "/srv/app" (Sample.image_run 3600 2).1
       "base_images/MEDIA_IMG__00aa.jpg" None
     = Some "/srv/app/GlobalMedia/base_images/MEDIA_IMG__00aa.jpg"
  /\ section "image" (_load_media_registry "/srv/app" (Sample.image_run 3600 2).1)
       !! _compute_pil_hash (H := Sample.libs) (Sample.Img 3600 2 "RGB" [Byte.x41])
     = Some "base_images/MEDIA_IMG__00aa.jpg"
  /\ exists stored,
       files (Sample.image_run 3600 2).1
         !! "/srv/app/GlobalMedia/base_images/MEDIA_IMG__00aa.jpg"
       = Some (Raw stored)
       /\ (_compute_pil_hash (H := Sample.libs)
             <$> im_open (Libs := Sample.libs) stored)
          <> Some (_compute_pil_hash (H := Sample.libs)
                     (Sample.Img 3600 2 "RGB" [Byte.x41])).
Proof.
  vm_compute. split_and!; try reflexivity.
  eexists. split; [reflexivity|]. discriminate.
Qed.

(** ** Overlay file names *)

Module Names.

Import StrFacts.

Lemma pretty_N_char_no_sep x : Ascii.eqb "/" (pretty_N_char x) = false.
Proof. unfold pretty_N_char. by repeat case_match. Qed.

Lemma pretty_N_go_no_sep x s :
  Str.contains s "/" = false -> Str.contains (pretty_N_go x s) "/" = false.
Proof.
  revert s. induction (N.lt_wf_0 x) as [x _ IH]; intros s Hs.
  destruct (decide (x = 0)%N) as [->|Hx]; [by rewrite pretty_N_go_0|].
  rewrite pretty_N_go_step by lia. apply IH.
  - apply N.div_lt; lia.
  - by rewrite has_sep_cons, pretty_N_char_no_sep, Hs.
Qed.

Lemma pretty_N_no_sep (x : N) : Str.contains (pretty x) "/" = false.
Proof.
  unfold pretty, pretty_N. destruct (decide (x = 0)%N); [done|].
  by apply pretty_N_go_no_sep.
Qed.

Lemma pretty_nat_no_sep (x : nat) : Str.contains (pretty x) "/" = false.
Proof. apply pretty_N_no_sep. Qed.

Lemma pretty_Z_no_sep (x : Z) : Str.contains (pretty x) "/" = false.
Proof.
  destruct x as [|p|p]; [done|apply pretty_N_no_sep|].
  unfold pretty, pretty_Z. rewrite has_sep_app.
  apply orb_false_iff. split; [done|apply (pretty_N_no_sep (N.pos p))].
Qed.

Lemma translate_no_sep s :
  Str.contains (Str.translate_to bad_char "_" s) "/" = false.
Proof.
  induction s as [|c s IH]; [done|].
  change (Str.translate_to bad_char "_" (String c s))
    with (String (if bad_char c then "_"%char else c)
            (Str.translate_to bad_char "_" s)).
  rewrite has_sep_cons, IH, orb_false_r.
  destruct (bad_char c) eqn:Hbad; [done|].
  destruct (Ascii.eqb_spec "/" c) as [<-|]; [|done]. discriminate Hbad.
Qed.

Lemma replace_dunder_no_sep s :
  Str.contains s "/" = false -> Str.contains (Str.replace_dunder s) "/" = false.
Proof.
  assert (forall n s, (String.length s <= n)%nat ->
            Str.contains s "/" = false ->
            Str.contains (Str.replace_dunder s) "/" = false) as Hind.
  { clear s. induction n as [|n IH]; intros [|c [|c2 s]] Hlen Hs; try done;
      simpl in Hlen; try lia.
    change (Str.replace_dunder (String c (String c2 s)))
      with (if Ascii.eqb c "_" && Ascii.eqb c2 "_"
            then String "_" (Str.replace_dunder s)
            else String c (Str.replace_dunder (String c2 s))).
    rewrite !has_sep_cons in Hs.
    apply orb_false_iff in Hs as [Hc Hs]. pose proof Hs as Hs'.
    apply orb_false_iff in Hs' as [Hc2 Hs'].
    destruct (Ascii.eqb c "_" && Ascii.eqb c2 "_"); rewrite has_sep_cons.
    - rewrite IH; [done|lia|done].
    - rewrite Hc, IH; [done|simpl; lia|by rewrite has_sep_cons]. }
  by apply (Hind (String.length s)).
Qed.

Lemma collapse_dunder_no_sep fuel s :
  Str.contains s "/" = false ->
  Str.contains (collapse_dunder fuel s) "/" = false.
Proof.
  revert s. induction fuel as [|fuel IH]; intros s Hs; [done|].
  simpl. destruct (Str.contains s "__"); [|done].
  by apply IH, replace_dunder_no_sep.
Qed.

Lemma lstrip_no_sep f s :
  Str.contains s "/" = false -> Str.contains (Str.lstrip f s) "/" = false.
Proof.
  induction s as [|c s IH]; [done|]. intros Hs. simpl.
  destruct (f c); [|done]. apply IH.
  rewrite has_sep_cons in Hs. by apply orb_false_iff in Hs as [_ ?].
Qed.

Lemma rstrip_no_sep f s :
  Str.contains s "/" = false -> Str.contains (Str.rstrip f s) "/" = false.
Proof.
  induction s as [|c s IH]; [done|]. intros Hs.
  rewrite has_sep_cons in Hs. apply orb_false_iff in Hs as [Hc Hs].
  simpl. destruct (Str.rstrip f s) as [|c' t] eqn:Ht.
  - destruct (f c); [done|]. by rewrite has_sep_cons, Hc.
  - by rewrite has_sep_cons, Hc, IH.
Qed.

Lemma sanitize_no_sep s : Str.contains (sanitize_filename s) "/" = false.
Proof.
  unfold sanitize_filename, Str.strip.
  apply rstrip_no_sep, lstrip_no_sep, collapse_dunder_no_sep, translate_no_sep.
Qed.

(** The stem of an overlay file name has no separator and starts with the
    letter C. *)
Lemma stem_no_sep project_id audit_id nr overlay_type index :
  Str.contains (canvas_overlay_stem project_id audit_id nr overlay_type index) "/"
  = false.
Proof.
  unfold canvas_overlay_stem. rewrite !has_sep_app, !sanitize_no_sep.
  destruct index as [i|]; [|done].
  by rewrite has_sep_app, pretty_Z_no_sep.
Qed.

Lemma stem_head project_id audit_id nr overlay_type index :
  exists rest,
    canvas_overlay_stem project_id audit_id nr overlay_type index
    = String "C" rest.
Proof. unfold canvas_overlay_stem. rewrite app_cons. by eexists. Qed.

(** The loop of [sanitize_filename] ends within the rounds it is given:
    every round shortens the string. *)
Lemma replace_dunder_length s :
  (String.length (Str.replace_dunder s) <= String.length s)%nat.
Proof.
  assert (forall n s, (String.length s <= n)%nat ->
            (String.length (Str.replace_dunder s) <= String.length s)%nat)
    as Hind.
  { clear s. induction n as [|n IH]; intros [|c [|c2 s]] Hlen; simpl in *;
      try lia.
    destruct (Ascii.eqb c "_" && Ascii.eqb c2 "_"); simpl.
    - specialize (IH s). lia.
    - specialize (IH (String c2 s)). simpl in IH. lia. }
  by apply (Hind (String.length s)).
Qed.

Lemma replace_dunder_shrinks s :
  Str.contains s "__" = true ->
  (String.length (Str.replace_dunder s) < String.length s)%nat.
Proof.
  assert (forall n s, (String.length s <= n)%nat ->
            Str.contains s "__" = true ->
            (String.length (Str.replace_dunder s) < String.length s)%nat)
    as Hind.
  { clear s. induction n as [|n IH]; intros [|c [|c2 s]] Hlen Hs; try done;
      simpl in Hlen; try lia.
    - apply contains_spec in Hs as (a & b & Heq).
      apply (f_equal String.length) in Heq. rewrite !app_length in Heq.
      simpl in Heq. lia.
    - change (Str.replace_dunder (String c (String c2 s)))
        with (if Ascii.eqb c "_" && Ascii.eqb c2 "_"
              then String "_" (Str.replace_dunder s)
              else String c (Str.replace_dunder (String c2 s))).
      destruct (Ascii.eqb c "_" && Ascii.eqb c2 "_") eqn:Hcc.
      + pose proof (replace_dunder_length s). simpl. lia.
      + assert (Str.contains (String c2 s) "__" = true) as Hs'.
        { revert Hs. change (Str.contains (String c (String c2 s)) "__")
            with (Str.startswith (String c (String c2 s)) "__"
                  || Str.contains (String c2 s) "__").
          change (Str.startswith (String c (String c2 s)) "__")
            with (if Ascii.eqb "_" c
                  then (if Ascii.eqb "_" c2 then true else false) else false).
          rewrite (Ascii.eqb_sym "_" c), (Ascii.eqb_sym "_" c2).
          destruct (Ascii.eqb c "_"), (Ascii.eqb c2 "_"); try done. }
        specialize (IH (String c2 s) ltac:(simpl; lia) Hs'). simpl in *. lia. }
  by apply (Hind (String.length s)).
Qed.

Lemma collapse_dunder_done fuel s :
  (String.length s <= fuel)%nat ->
  Str.contains (collapse_dunder fuel s) "__" = false.
Proof.
  revert s. induction fuel as [|fuel IH]; intros s Hlen.
  - destruct s; [done|simpl in Hlen; lia].
  - simpl. destruct (Str.contains s "__") eqn:Hs; [|done].
    apply IH. pose proof (replace_dunder_shrinks s Hs). lia.
Qed.

End Names.

(** ** Paths of overlay files *)

Module OverlayPaths.

Import StrFacts.

Lemma has_sep_join a m : Str.contains (a +:+ String "/" m) "/" = true.
Proof. rewrite has_sep_app, has_sep_cons. apply orb_true_r. Qed.

Lemma basename_join a m :
  Str.contains m "/" = false -> OsPath.basename (a +:+ String "/" m) = m.
Proof.
  intros Hm. induction a as [|c a IH].
  - rewrite app_nil_l. simpl. by rewrite Hm.
  - rewrite app_cons. simpl. by rewrite has_sep_join.
Qed.

Lemma dirpart_join a m :
  Str.contains m "/" = false ->
  OsPath.dirpart (a +:+ String "/" m) = a +:+ "/".
Proof.
  intros Hm. induction a as [|c a IH].
  - rewrite app_nil_l. simpl. by rewrite Hm.
  - rewrite !app_cons. simpl. by rewrite has_sep_join, IH.
Qed.

Lemma split_component_png s :
  OsPath.split_component true (s +:+ ".png") = Some (s, ".png").
Proof.
  induction s as [|c s IH]; [done|].
  rewrite app_cons. simpl. by rewrite IH.
Qed.

Lemma splitext_png a rest :
  Str.contains (String "C" rest) "/" = false ->
  OsPath.splitext (a +:+ String "/" (String "C" rest +:+ ".png"))
  = (a +:+ String "/" (String "C" rest), ".png").
Proof.
  intros Hm. unfold OsPath.splitext.
  assert (Str.contains (String "C" rest +:+ ".png") "/" = false) as Hm'
    by (by rewrite has_sep_app, Hm).
  rewrite basename_join, dirpart_join by done.
  rewrite app_cons.
  change (OsPath.split_component false (String "C" (rest +:+ ".png")))
    with (match OsPath.split_component true (rest +:+ ".png") with
          | Some (root, ext) => Some (String "C" root, ext)
          | None => None
          end).
  rewrite split_component_png. by str_norm.
Qed.

Lemma split_sep_nonempty p : OsPath.split_sep p <> [].
Proof.
  destruct p as [|c p]; [done|]. simpl.
  destruct (Ascii.eqb c "/"); [done|]. by destruct (OsPath.split_sep p).
Qed.

Lemma split_sep_join a b :
  OsPath.split_sep (a +:+ String "/" b) = OsPath.split_sep a ++ OsPath.split_sep b.
Proof.
  induction a as [|c a IH]; [done|].
  rewrite app_cons. simpl. rewrite IH.
  destruct (Ascii.eqb c "/"); [done|].
  pose proof (split_sep_nonempty a). by destruct (OsPath.split_sep a).
Qed.

Lemma split_sep_plain n : Str.contains n "/" = false -> OsPath.split_sep n = [n].
Proof.
  induction n as [|c n IH]; [done|]. rewrite has_sep_cons.
  intros [Hc Hn]%orb_false_iff. simpl. rewrite Ascii.eqb_sym, Hc.
  by rewrite IH.
Qed.

Lemma join_sep_snoc l n :
  OsPath.join_sep (l ++ [n]) =
  match l with
  | [] => n
  | _ => OsPath.join_sep l +:+ "/" +:+ n
  end.
Proof.
  induction l as [|x l IH]; [done|].
  destruct l as [|y l]; [done|].
  change (OsPath.join_sep ((x :: y :: l) ++ [n]))
    with (x +:+ "/" +:+ OsPath.join_sep ((y :: l) ++ [n])).
  rewrite IH.
  change (OsPath.join_sep (x :: y :: l))
    with (x +:+ "/" +:+ OsPath.join_sep (y :: l)).
  by str_norm.
Qed.

Lemma startswith_short a b q :
  (String.length q <= String.length a)%nat ->
  Str.startswith (a +:+ b) q = Str.startswith a q.
Proof.
  revert a. induction q as [|c q IH]; intros a Hlen; [done|].
  destruct a as [|x a]; [simpl in Hlen; lia|].
  rewrite app_cons. simpl. destruct (Ascii.eqb c x); [|done].
  apply IH. simpl in Hlen. lia.
Qed.

(** The normal form of a path [a/n] is a text fixed by [a], followed by
    the name [n]. *)
Lemma normpath_name a :
  (3 <= String.length a)%nat ->
  exists pfx, forall n,
    plain n -> n <> "." -> n <> ".." ->
    OsPath.normpath (a +:+ String "/" n) = pfx +:+ n.
Proof.
  intros Hlen.
  set (initial := Str.startswith a "/").
  set (two := initial && Str.startswith a "//" && negb (Str.startswith a "///")).
  set (acc := fold_left (OsPath.norm_step initial) (OsPath.split_sep a) []).
  exists ((if initial then (if two then "//" else "/") else EmptyString)
          +:+ match rev acc with
              | [] => EmptyString
              | _ => OsPath.join_sep (rev acc) +:+ "/"
              end).
  intros n [Hnt Hns] Hdot Hdd. unfold OsPath.normpath.
  assert (Str.truthy (a +:+ String "/" n) = true) as ->
    by (destruct a; [simpl in Hlen; lia|done]).
  rewrite !startswith_short by (simpl; lia).
  fold initial. fold two. change (negb true) with false. cbv iota.
  rewrite split_sep_join, (split_sep_plain n Hns), fold_left_app.
  fold acc.
  assert (fold_left (OsPath.norm_step initial) [n] acc = n :: acc) as ->.
  { simpl. unfold OsPath.norm_step.
    rewrite (proj2 (String.eqb_neq n EmptyString)) by (by destruct n).
    by rewrite (proj2 (String.eqb_neq n ".")), (proj2 (String.eqb_neq n "..")). }
  simpl rev. rewrite join_sep_snoc. unfold Str.or_else.
  assert (forall s, Str.truthy (s +:+ n) = true) as Ht.
  { intros s. destruct s; [|done]. by rewrite app_nil_l. }
  destruct initial, two, (rev acc) as [|x l];
    rewrite <- ?app_assoc, ?Ht; rewrite ?app_assoc, ?app_nil_l, ?Hnt;
    by rewrite ?app_assoc.
Qed.

End OverlayPaths.

(** ** Final and temporary names *)

Module FinalNames.

Import StrFacts.

Lemma all_chars_impl (f g : ascii -> bool) s :
  (forall c, f c = true -> g c = true) ->
  all_chars f s = true -> all_chars g s = true.
Proof.
  intros Hfg. induction s as [|c s IH]; [done|]. simpl.
  intros [Hc Hs]%andb_true_iff. by rewrite (Hfg c Hc), IH.
Qed.

Lemma rstrip_keeps f s :
  all_chars (fun c => negb (f c)) s = true -> Str.rstrip f s = s.
Proof.
  induction s as [|c s IH]; [done|]. simpl.
  intros [Hc Hs]%andb_true_iff. rewrite IH by done.
  apply negb_true_iff in Hc. rewrite Hc. by destruct s.
Qed.

Lemma rstrip_app_keeps f a s :
  Str.rstrip f s = s -> s <> EmptyString -> Str.rstrip f (a +:+ s) = a +:+ s.
Proof.
  intros Hs Hne. induction a as [|c a IH]; [done|].
  rewrite app_cons. simpl. rewrite IH.
  destruct (a +:+ s) eqn:Ha; [|done].
  destruct a; [|done]. by rewrite app_nil_l in Ha.
Qed.

Lemma translate_keeps s :
  all_chars (fun c => negb (bad_char c)) s = true ->
  Str.translate_to bad_char "_" s = s.
Proof.
  induction s as [|c s IH]; [done|]. simpl.
  intros [Hc Hs]%andb_true_iff. apply negb_true_iff in Hc.
  by rewrite Hc, IH.
Qed.

Lemma collapse_keeps fuel s :
  Str.contains s "__" = false -> collapse_dunder fuel s = s.
Proof. intros Hs. destruct fuel; [done|]. simpl. by rewrite Hs. Qed.

Lemma contains_dunder_cons c s :
  c <> "_"%char ->
  Str.contains (String c s) "__" = Str.contains s "__".
Proof.
  intros Hc.
  change (Str.contains (String c s) "__")
    with ((if Ascii.eqb "_" c then Str.startswith s "_" else false)
          || Str.contains s "__").
  apply Ascii.eqb_neq in Hc. by rewrite Ascii.eqb_sym, Hc.
Qed.

Lemma contains_dunder_one c s :
  c <> "_"%char ->
  Str.contains (String "_" (String c s)) "__" = Str.contains s "__".
Proof.
  intros Hc.
  change (Str.contains (String "_" (String c s)) "__")
    with ((if Ascii.eqb "_" c then true else false)
          || Str.contains (String c s) "__").
  rewrite contains_dunder_cons by done.
  apply Ascii.eqb_neq in Hc. by rewrite Ascii.eqb_sym, Hc.
Qed.

Lemma digit_plain c :
  is_digit c = true ->
  Str.is_space c = false /\ bad_char c = false /\ c <> "_"%char.
Proof.
  destruct c as [[] [] [] [] [] [] [] []]; intros H; try discriminate H;
    by split_and!.
Qed.

Lemma digits_no_dunder s :
  all_chars is_digit s = true -> Str.contains s "__" = false.
Proof.
  induction s as [|c s IH]; [done|]. intros Hs. simpl in Hs.
  apply andb_true_iff in Hs as [Hc Hs].
  rewrite contains_dunder_cons; [by apply IH|]. by apply digit_plain.
Qed.

(** [sanitize_filename] leaves a string of digits as it is. *)
Lemma sanitize_digits s :
  all_chars is_digit s = true -> sanitize_filename s = s.
Proof.
  intros Hs. unfold sanitize_filename, Str.strip. cbv zeta.
  assert (forall f, (forall c, is_digit c = true -> f c = false) ->
            Str.rstrip f (Str.lstrip f s) = s) as Hstrip.
  { intros f Hf.
    assert (Str.lstrip f s = s) as ->.
    { destruct s as [|c s]; [done|]. simpl in *.
      apply andb_true_iff in Hs as [Hc _]. by rewrite (Hf c Hc). }
    apply rstrip_keeps. apply (all_chars_impl is_digit); [|done].
    intros c Hc. by rewrite (Hf c Hc). }
  rewrite (Hstrip Str.is_space) by (intros c Hc; by apply digit_plain).
  rewrite translate_keeps.
  2:{ apply (all_chars_impl is_digit); [|done].
      intros c Hc. apply negb_true_iff. by apply digit_plain. }
  rewrite collapse_keeps by (by apply digits_no_dunder).
  apply Hstrip. intros c Hc. apply Ascii.eqb_neq. by apply digit_plain.
Qed.

Lemma all_chars_prefix f a s :
  all_chars f a = true -> all_chars f s = true ->
  all_chars f (a +:+ s) = true.
Proof.
  intros Ha Hs. induction a as [|c a IH]; [done|].
  rewrite app_cons. simpl in *. apply andb_true_iff in Ha as [Hc Ha].
  by rewrite Hc, IH.
Qed.

(** The number of the first pass: [sanitize_filename] takes the
    underscore in front of it away. *)
Lemma sanitize_tmp s :
  all_chars is_digit s = true -> s <> EmptyString ->
  sanitize_filename ("_TMP_" +:+ s) = "TMP_" +:+ s.
Proof.
  intros Hs Hne. unfold sanitize_filename, Str.strip. cbv zeta.
  change (Str.lstrip Str.is_space ("_TMP_" +:+ s)) with ("_TMP_" +:+ s).
  rewrite (rstrip_keeps Str.is_space).
  2:{ apply all_chars_prefix; [reflexivity|].
      apply (all_chars_impl is_digit); [|done].
      intros c Hc. apply negb_true_iff. by apply digit_plain. }
  rewrite translate_keeps.
  2:{ apply all_chars_prefix; [reflexivity|].
      apply (all_chars_impl is_digit); [|done].
      intros c Hc. apply negb_true_iff. by apply digit_plain. }
  rewrite collapse_keeps.
  2:{ destruct s as [|c s]; [done|]. simpl in Hs.
      apply andb_true_iff in Hs as [Hc Hs].
      change ("_TMP_" +:+ String c s)
        with (String "_" (String "T" (String "M" (String "P"
                (String "_" (String c s)))))).
      rewrite contains_dunder_one by done.
      rewrite !contains_dunder_cons by done.
      rewrite contains_dunder_one by (by apply digit_plain).
      by apply digits_no_dunder. }
  change (Str.lstrip is_underscore ("_TMP_" +:+ s)) with ("TMP_" +:+ s).
  apply (rstrip_app_keeps is_underscore "TMP_" s); [|done].
  apply rstrip_keeps. apply (all_chars_impl is_digit); [|done].
  intros c Hc. apply negb_true_iff, Ascii.eqb_neq. by apply digit_plain.
Qed.

Lemma pretty_N_char_digit x : is_digit (pretty_N_char x) = true.
Proof. unfold pretty_N_char. by repeat case_match. Qed.

Lemma pretty_N_go_digits x s :
  all_chars is_digit s = true -> all_chars is_digit (pretty_N_go x s) = true.
Proof.
  revert s. induction (N.lt_wf_0 x) as [x _ IH]; intros s Hs.
  destruct (decide (x = 0)%N) as [->|Hx]; [by rewrite pretty_N_go_0|].
  rewrite pretty_N_go_step by lia. apply IH.
  - apply N.div_lt; lia.
  - simpl. by rewrite pretty_N_char_digit, Hs.
Qed.

Lemma pretty_nat_digits (n : nat) : all_chars is_digit (pretty n) = true.
Proof.
  unfold pretty, pretty_nat, pretty, pretty_N.
  destruct (decide (N.of_nat n = 0)%N); [done|].
  by apply pretty_N_go_digits.
Qed.

(** The decimal text of a positive number does not start with a zero. *)
Lemma pretty_N_go_head x s :
  (0 < x)%N ->
  exists c rest, pretty_N_go x s = String c rest /\ c <> "0"%char.
Proof.
  revert s. induction (N.lt_wf_0 x) as [x _ IH]; intros s Hx.
  rewrite pretty_N_go_step by lia.
  destruct (decide (x `div` 10 = 0)%N) as [Hq|Hq].
  - rewrite Hq, pretty_N_go_0. eexists _, _. split; [done|].
    assert (x `mod` 10 = x)%N as Hm.
    { apply N.mod_small. apply N.div_small_iff in Hq; lia. }
    rewrite Hm. unfold pretty_N_char.
    assert (x < 10)%N as Hlt by (apply N.div_small_iff in Hq; lia).
    destruct x as [|p]; [lia|].
    do 10 (destruct p as [p|p|]; try (simpl in Hlt; lia); try done).
  - apply IH; [apply N.div_lt; lia|by apply N.neq_0_lt_0].
Qed.

Lemma pretty_nat_head (n : nat) :
  (0 < n)%nat -> exists c rest, pretty n = String c rest /\ c <> "0"%char.
Proof.
  intros Hn. unfold pretty, pretty_nat, pretty, pretty_N.
  destruct (decide (N.of_nat n = 0)%N); [lia|].
  apply pretty_N_go_head. lia.
Qed.

Lemma pad3_digits n : all_chars is_digit (Str.pad3 n) = true.
Proof.
  unfold Str.pad3. pose proof (pretty_nat_digits n) as Hn.
  destruct (n <? 10)%nat; [by rewrite !app_cons, app_nil_l; simpl|].
  destruct (n <? 100)%nat; [by rewrite !app_cons, app_nil_l; simpl|done].
Qed.

Lemma pad3_head n :
  exists c rest, Str.pad3 n = String c rest /\ is_digit c = true.
Proof.
  pose proof (pad3_digits n) as Hd.
  destruct (Str.pad3 n) as [|c rest] eqn:Hp.
  - exfalso. unfold Str.pad3 in Hp.
    destruct (n <? 10)%nat; [done|]. destruct (n <? 100)%nat eqn:Hlt; [done|].
    apply Nat.ltb_ge in Hlt.
    destruct (pretty_nat_head n) as (c & rest & Hc & _); [lia|]. congruence.
  - simpl in Hd. apply andb_true_iff in Hd as [Hc _]. by eexists _, _.
Qed.

Lemma pad3_truthy n : Str.or_else (Str.pad3 n) "000" = Str.pad3 n.
Proof.
  destruct (pad3_head n) as (c & rest & Hp & _). by rewrite Hp.
Qed.

Lemma pad3_inj a b : Str.pad3 a = Str.pad3 b -> a = b.
Proof.
  assert (forall n s, (0 < n)%nat -> pretty n <> String "0" s) as Hz.
  { intros n s Hn Heq. destruct (pretty_nat_head n Hn) as (c & rest & Hc & Hne).
    congruence. }
  unfold Str.pad3. intros Heq.
  destruct (a <? 10)%nat eqn:Ha1, (b <? 10)%nat eqn:Hb1;
    [|destruct (b <? 100)%nat eqn:Hb2
     |destruct (a <? 100)%nat eqn:Ha2
     |destruct (a <? 100)%nat eqn:Ha2, (b <? 100)%nat eqn:Hb2];
    rewrite ?app_cons, ?app_nil_l in Heq;
    repeat match goal with
    | H : (_ <? _)%nat = true |- _ => apply Nat.ltb_lt in H
    | H : (_ <? _)%nat = false |- _ => apply Nat.ltb_ge in H
    end.
  - injection Heq as Heq. by apply (inj pretty) in Heq.
  - injection Heq as Heq. symmetry in Heq. by apply Hz in Heq; [|lia].
  - symmetry in Heq. by apply Hz in Heq; [|lia].
  - injection Heq as Heq. by apply Hz in Heq; [|lia].
  - by apply Hz in Heq; [|lia].
  - injection Heq as Heq. by apply (inj pretty) in Heq.
  - symmetry in Heq. by apply Hz in Heq; [|lia].
  - by apply Hz in Heq; [|lia].
  - by apply (inj pretty) in Heq.
Qed.

(** Two texts that start with digits and go on with another character
    start with the same digits. *)
Lemma digit_run u v c R c' R' :
  all_chars is_digit u = true -> all_chars is_digit v = true ->
  is_digit c = false -> is_digit c' = false ->
  u +:+ String c R = v +:+ String c' R' -> u = v.
Proof.
  intros Hu Hv Hc Hc'. revert v Hv.
  induction u as [|x u IH]; intros [|y v] Hv Heq; [done| | |].
  - rewrite app_nil_l, app_cons in Heq. injection Heq as -> _.
    simpl in Hv. by rewrite Hc in Hv.
  - rewrite app_nil_l, app_cons in Heq. injection Heq as -> _.
    simpl in Hu. by rewrite Hc' in Hu.
  - rewrite !app_cons in Heq. injection Heq as -> Heq.
    simpl in Hu, Hv. apply andb_true_iff in Hu as [_ Hu].
    apply andb_true_iff in Hv as [_ Hv]. f_equal. by apply IH.
Qed.

Lemma nr_key_final n : nr_key (Str.pad3 n) = Str.pad3 n.
Proof. unfold nr_key. rewrite pad3_truthy. apply sanitize_digits, pad3_digits. Qed.

Lemma nr_key_tmp n : nr_key ("_TMP_" +:+ Str.pad3 n) = "TMP_" +:+ Str.pad3 n.
Proof.
  unfold nr_key. change (Str.or_else ("_TMP_" +:+ Str.pad3 n) "000")
    with ("_TMP_" +:+ Str.pad3 n).
  apply sanitize_tmp; [apply pad3_digits|].
  destruct (pad3_head n) as (c & rest & -> & _). done.
Qed.

(** What follows the common prefix of two stems of one audit. *)
Lemma stem_tail_eq pid aid nr ot idx nr' ot' idx' X Y :
  canvas_overlay_stem pid aid nr ot idx +:+ X
  = canvas_overlay_stem pid aid nr' ot' idx' +:+ Y ->
  nr_key nr +:+ "__TYPE_"
    +:+ sanitize_filename (Str.or_else ot OVERLAY_FEHLERBILD)
    +:+ match idx with Some i => "_" +:+ pretty i | None => EmptyString end
    +:+ X
  = nr_key nr' +:+ "__TYPE_"
    +:+ sanitize_filename (Str.or_else ot' OVERLAY_FEHLERBILD)
    +:+ match idx' with Some i => "_" +:+ pretty i | None => EmptyString end
    +:+ Y.
Proof.
  unfold canvas_overlay_stem. cbv zeta. rewrite !app_assoc. intros Heq.
  do 5 apply (inj (String.app _)) in Heq. exact Heq.
Qed.

(** Overlays of records with different numbers have different names. *)
Lemma name_nr_inj pid aid nr ot idx nr' ot' idx' :
  all_chars is_digit (nr_key nr) = true ->
  all_chars is_digit (nr_key nr') = true ->
  generate_canvas_overlay_filename pid aid nr ot idx
  = generate_canvas_overlay_filename pid aid nr' ot' idx' ->
  nr_key nr = nr_key nr'.
Proof.
  intros Hd Hd' Heq. unfold generate_canvas_overlay_filename in Heq.
  apply stem_tail_eq in Heq. rewrite !(app_cons "_") in Heq.
  by eapply digit_run in Heq.
Qed.

Lemma role_key ot :
  ot ∈ overlay_roles ->
  sanitize_filename (Str.or_else ot OVERLAY_FEHLERBILD) = ot.
Proof.
  unfold overlay_roles. rewrite !elem_of_cons, elem_of_nil.
  intros [->|[->|[->|[->|[->|[]]]]]]; reflexivity.
Qed.

(** The overlays of one record have different names by role and slot. *)
Lemma name_pos_inj pid aid nr ot idx ot' idx' :
  ot ∈ overlay_roles -> ot' ∈ overlay_roles ->
  generate_canvas_overlay_filename pid aid nr ot idx
  = generate_canvas_overlay_filename pid aid nr ot' idx' ->
  ot = ot' /\ idx = idx'.
Proof.
  intros Hot Hot' Heq. unfold generate_canvas_overlay_filename in Heq.
  apply stem_tail_eq in Heq. do 2 apply (inj (String.app _)) in Heq.
  rewrite !role_key in Heq by done.
  assert (ot = ot') as <-.
  { unfold overlay_roles in Hot, Hot'.
    rewrite !elem_of_cons, elem_of_nil in Hot, Hot'.
    destruct Hot as [->|[->|[->|[->|[->|[]]]]]];
      destruct Hot' as [->|[->|[->|[->|[->|[]]]]]]; try done;
      unfold OVERLAY_FEHLERBILD, OVERLAY_NACHARBEIT, OVERLAY_KONTEXT,
        OVERLAY_ZUSATZ_FEHLER, OVERLAY_ZUSATZ_NACHARBEIT in Heq;
      rewrite !app_cons in Heq; simplify_eq. }
  split; [done|]. apply (inj (String.app _)) in Heq.
  destruct idx as [i|], idx' as [j|]; [|done..].
  rewrite !app_assoc in Heq. apply (inj (String.app _)) in Heq.
  apply app_inj_r in Heq. by apply (inj pretty) in Heq as ->.
Qed.

(** A name of the first pass is no name of the second. *)
Lemma final_not_temp pid aid i ot idx t k ot' idx' :
  named pid aid ("_TMP_" +:+ Str.pad3 i) ot idx (Some t) ->
  t <> "overlays/"
       +:+ generate_canvas_overlay_filename pid aid (Str.pad3 k) ot' idx'.
Proof.
  assert (forall X Y,
    canvas_overlay_stem pid aid ("_TMP_" +:+ Str.pad3 i) ot idx +:+ X
    <> canvas_overlay_stem pid aid (Str.pad3 k) ot' idx' +:+ Y) as Hne.
  { intros X Y Heq%stem_tail_eq. rewrite nr_key_tmp, nr_key_final in Heq.
    destruct (pad3_head k) as (c & rest & Hk & Hc). rewrite Hk in Heq.
    rewrite !app_cons in Heq. injection Heq as <- _. done. }
  unfold named, generate_canvas_overlay_filename.
  intros [->|[j ->]] Heq; apply (inj (String.app _)) in Heq; by apply Hne in Heq.
Qed.

End FinalNames.

(** ** Renumbering *)

Module Renumber.

Import StrFacts.

Section WithBase.

Context (BASE_DIR : string).

Local Abbreviation ROOT := (MEDIA_ROOT BASE_DIR).
Local Abbreviation path := (ref_path BASE_DIR).

Lemma candidate_inj base ext (k1 k2 : nat) :
  base +:+ "_" +:+ pretty k1 +:+ ext = base +:+ "_" +:+ pretty k2 +:+ ext ->
  k1 = k2.
Proof.
  intros Heq. apply (inj (String.app _)) in Heq.
  apply (inj (String.app _)) in Heq. apply app_inj_r in Heq.
  by apply (inj pretty) in Heq.
Qed.

(** The collision loop finds a path that does not exist within the rounds
    it is given: the candidates are pairwise different, and only finitely
    many paths exist. *)
Lemma free_path_general d base ext fuel (X : gset string) c :
  (size X <= fuel)%nat ->
  (forall k : nat, (c <= k)%nat ->
     path_exists d (base +:+ "_" +:+ pretty k +:+ ext) = true ->
     base +:+ "_" +:+ pretty k +:+ ext ∈ X) ->
  exists k : nat,
    free_path fuel d base ext c = base +:+ "_" +:+ pretty k +:+ ext
    /\ path_exists d (base +:+ "_" +:+ pretty k +:+ ext) = false.
Proof.
  revert X c. induction fuel as [|fuel IH]; intros X c Hsize HX.
  - exists c. split; [done|].
    destruct (path_exists d _) eqn:Hex; [|done].
    apply HX in Hex; [|done].
    assert (size X <> 0)%nat by (apply size_non_empty_iff; set_solver). lia.
  - simpl. destruct (path_exists d (base +:+ "_" +:+ pretty c +:+ ext)) eqn:Hex;
      [|by exists c].
    apply (IH (X ∖ {[ base +:+ "_" +:+ pretty c +:+ ext ]})).
    + assert (base +:+ "_" +:+ pretty c +:+ ext ∈ X) as Hin by (by apply HX).
      pose proof (size_difference X {[ base +:+ "_" +:+ pretty c +:+ ext ]}
                    ltac:(set_solver)) as Hd.
      rewrite size_singleton in Hd.
      assert (size X <> 0)%nat by (apply size_non_empty_iff; set_solver). lia.
    + intros k Hk Hexk. apply elem_of_difference. split; [apply HX; [lia|done]|].
      intros Heq%elem_of_singleton. apply candidate_inj in Heq. lia.
Qed.

Lemma free_path_spec d base ext :
  exists k : nat,
    free_path (size (files d)) d base ext 1 = base +:+ "_" +:+ pretty k +:+ ext
    /\ path_exists d (base +:+ "_" +:+ pretty k +:+ ext) = false.
Proof.
  apply (free_path_general d base ext _ (dom (files d))).
  - by rewrite size_dom.
  - intros k _ Hex. apply bool_decide_eq_true in Hex. by apply elem_of_dom.
Qed.

Lemma overlay_ref_path n :
  path ("overlays/" +:+ n) = (ROOT +:+ "/overlays") +:+ String "/" n.
Proof. unfold ref_path. by rewrite app_assoc. Qed.

Lemma ref_path_inj s t : path s = path t -> s = t.
Proof.
  unfold ref_path. intros Heq. apply (inj (String.app _)) in Heq.
  by apply (inj (String.app _)) in Heq.
Qed.

Lemma overlay_normpath_inj n m :
  overlay_name_ok n -> overlay_name_ok m ->
  OsPath.normpath (path ("overlays/" +:+ n))
  = OsPath.normpath (path ("overlays/" +:+ m)) ->
  n = m.
Proof.
  intros (Hn & Hn1 & Hn2) (Hm & Hm1 & Hm2). rewrite !overlay_ref_path.
  destruct (OverlayPaths.normpath_name (ROOT +:+ "/overlays")) as [pfx Hp].
  { rewrite app_length. simpl. lia. }
  rewrite !Hp by done. by intros ?%(inj (String.app _)).
Qed.

Lemma overlay_ref_is_overlay n : is_overlay_ref ("overlays/" +:+ n) = true.
Proof.
  unfold is_overlay_ref, ref_has_kind.
  change ("overlays" +:+ "/") with "overlays/".
  rewrite (startswith_app "overlays/" n).
  change (Str.truthy ("overlays/" +:+ n)) with true.
  by rewrite orb_true_r.
Qed.

Lemma overlay_ref_resolves d n root :
  path_exists d (path ("overlays/" +:+ n)) = true ->
  resolve_media_path BASE_DIR d ("overlays/" +:+ n) root
  = Some (path ("overlays/" +:+ n)).
Proof.
  intros Hex. rewrite Pipeline.resolve_relative by reflexivity.
  rewrite Paths.join_root by reflexivity. fold (path ("overlays/" +:+ n)).
  by rewrite Hex.
Qed.

(** The name [rename_overlay] generates is the name of an overlay file. *)
Lemma generated_name_ok pid aid nr ot idx :
  overlay_name_ok (generate_canvas_overlay_filename pid aid nr ot idx).
Proof.
  unfold generate_canvas_overlay_filename.
  pose proof (Names.stem_no_sep pid aid nr ot idx) as Hns.
  destruct (Names.stem_head pid aid nr ot idx) as [rest Hrest].
  rewrite Hrest in *. split_and!.
  - split; [done|]. by rewrite has_sep_app, Hns.
  - by rewrite app_cons.
  - by rewrite app_cons.
Qed.

Section WithForeign.

Context (foreign : string -> Prop).

Local Abbreviation covered := (covered BASE_DIR foreign).
Local Abbreviation vacant := (vacant BASE_DIR foreign).

Lemma covered_perm d L L' : L ≡ₚ L' -> covered d L -> covered d L'.
Proof.
  intros Hp Hc x Hx. destruct (Hc x Hx) as [?|(s & Hs & ->)]; [by left|].
  right. exists s. split; [by rewrite <- Hp|done].
Qed.

Lemma vacant_sub L L' g :
  (forall t, Some t ∈ L' -> Some t ∈ L) -> vacant L g -> vacant L' g.
Proof. intros Hsub [Hf Hl]. split; [done|]. intros t Ht. by apply Hl, Hsub. Qed.

(** Membership in a list of links put together from parts. *)
Ltac among_links :=
  repeat (rewrite elem_of_app || rewrite elem_of_cons
          || rewrite elem_of_nil);
  tauto.

(** Moving a linked overlay to a free overlay name keeps the links in
    order: the other links keep their files, and no other file appears. *)
Lemma move_spec n m c F d :
  locked d = ∅ ->
  links_ok BASE_DIR d (Some ("overlays/" +:+ n) :: F) ->
  files d !! path ("overlays/" +:+ n) = Some c ->
  overlay_name_ok m ->
  path_exists d (path ("overlays/" +:+ m)) = false ->
  exists d',
    shutil_move (path ("overlays/" +:+ n)) (path ("overlays/" +:+ m)) d
    = (d', Ret ())
    /\ locked d' = ∅
    /\ links_ok BASE_DIR d' (Some ("overlays/" +:+ m) :: F)
    /\ files d' !! path ("overlays/" +:+ m) = Some c
    /\ (forall t, Some t ∈ F -> files d' !! path t = files d !! path t)
    /\ (forall x, is_Some (files d' !! x) ->
          x = path ("overlays/" +:+ m)
          \/ (x <> path ("overlays/" +:+ n) /\ is_Some (files d !! x))).
Proof.
  intros Hl [Hnd Hok] Hc Hm Hfree.
  apply bool_decide_eq_false in Hfree.
  assert (forall t, Some t ∈ F ->
            path t <> path ("overlays/" +:+ m)
            /\ path t <> path ("overlays/" +:+ n)) as Hother.
  { intros t Ht. split.
    - intros Heq. destruct (Hok t) as (? & _ & _ & Hsome); [set_solver|].
      by rewrite Heq in Hsome.
    - intros Heq%ref_path_inj. subst t. simpl in Hnd.
      apply NoDup_cons in Hnd as [Hnin _]. apply Hnin.
      apply list_elem_of_omap. by exists (Some ("overlays/" +:+ n)). }
  eexists. unfold shutil_move. rewrite Hc, Hl.
  rewrite !bool_decide_eq_false_2 by set_solver. split; [done|]. simpl.
  split_and!; [done| |by rewrite lookup_insert_eq| |].
  - split.
    + simpl in *. apply NoDup_cons in Hnd as [_ Hnd]. apply NoDup_cons.
      split; [|done]. intros (o & Ho & Heq)%list_elem_of_omap.
      simpl in Heq. subst o. by pose proof (Hother _ Ho) as [? ?].
    + intros t [Ht|Ht]%elem_of_cons.
      * injection Ht as ->. exists m. split_and!; [done..|].
        simpl. by rewrite lookup_insert_eq.
      * destruct (Hok t) as (k & Hk1 & Hk2 & Hk3);
          [by apply elem_of_cons; right|].
        exists k. split_and!; [done..|]. simpl.
        pose proof (Hother t Ht) as [? ?].
        by rewrite lookup_insert_ne, lookup_delete_ne.
  - intros t Ht. pose proof (Hother t Ht) as [? ?].
    by rewrite lookup_insert_ne, lookup_delete_ne.
  - intros x Hx.
    destruct (decide (x = path ("overlays/" +:+ m))) as [->|Hxm]; [by left|].
    right. rewrite lookup_insert_ne in Hx by done.
    destruct (decide (x = path ("overlays/" +:+ n))) as [->|Hxn].
    + rewrite lookup_delete_eq in Hx. by destruct Hx.
    + by rewrite lookup_delete_ne in Hx.
Qed.

(** [rename_overlay] on a linked overlay: it returns a reference of the
    same form, the file of the reference has the content the old file had,
    and the other links keep their files. The reference has the name
    generated, and exactly that name when no other file has it. *)
Lemma rename_overlay_spec pid aid root s new_nr ot idx F d :
  locked d = ∅ ->
  links_ok BASE_DIR d (Some s :: F) ->
  covered d (Some s :: F) ->
  exists d' s',
    rename_overlay BASE_DIR pid aid root s new_nr ot idx d
    = (d', Ret (Some s', []))
    /\ locked d' = ∅
    /\ links_ok BASE_DIR d' (Some s' :: F)
    /\ files d' !! path s' = files d !! path s
    /\ (forall t, Some t ∈ F -> files d' !! path t = files d !! path t)
    /\ named pid aid new_nr ot idx (Some s')
    /\ covered d' (Some s' :: F)
    /\ (vacant F (generate_canvas_overlay_filename pid aid new_nr ot idx) ->
        exactly_named pid aid new_nr ot idx (Some s')).
Proof.
  intros Hl Hlinks Hcov. pose proof Hlinks as [Hnd Hok].
  unfold named, exactly_named.
  destruct (Hok s) as (n & -> & Hn & [c Hc]); [set_solver|].
  assert (path_exists d (path ("overlays/" +:+ n)) = true) as Hex.
  { apply bool_decide_eq_true. by rewrite Hc. }
  unfold rename_overlay. rewrite overlay_ref_is_overlay.
  change (Str.truthy ("overlays/" +:+ n)) with true. m_unfold.
  rewrite overlay_ref_resolves by done. rewrite Hex. m_unfold.
  pose proof (generated_name_ok pid aid new_nr ot idx) as Hnf.
  pose proof (Names.stem_no_sep pid aid new_nr ot idx) as Hns.
  destruct (Names.stem_head pid aid new_nr ot idx) as [rest Hrest].
  unfold generate_canvas_overlay_filename in *. rewrite Hrest in *.
  set (nf := String "C" rest +:+ ".png") in *.
  rewrite Paths.overlay_path by (apply plain_not_abs, Hnf).
  change (ROOT +:+ "/overlays/" +:+ nf) with (path ("overlays/" +:+ nf)).
  destruct (String.eqb_spec (OsPath.normpath (path ("overlays/" +:+ n)))
              (OsPath.normpath (path ("overlays/" +:+ nf)))) as [Heq|Hne].
  { apply overlay_normpath_inj in Heq; [|done..]. subst n.
    exists d, ("overlays/" +:+ nf). split_and!; [done..|by left|done|done]. }
  assert (exists m,
    overlay_name_ok m
    /\ path_exists d (path ("overlays/" +:+ m)) = false
    /\ (m = nf
        \/ exists k : nat, m = String "C" rest +:+ "_" +:+ pretty k +:+ ".png")
    /\ (path_exists d (path ("overlays/" +:+ nf)) = false -> m = nf)
    /\ (if path_exists d (path ("overlays/" +:+ nf))
        then
          let '(base, ext) := OsPath.splitext (path ("overlays/" +:+ nf)) in
          (free_path (size (files d)) d base ext 1,
           OsPath.basename (free_path (size (files d)) d base ext 1))
        else (path ("overlays/" +:+ nf), nf))
       = (path ("overlays/" +:+ m), m))
    as (m & Hm & Hfree & Hshape & Hexact & ->).
  { destruct (path_exists d (path ("overlays/" +:+ nf))) eqn:Hexn;
      [|exists nf; split_and!; [done..|by left|done|done]].
    rewrite overlay_ref_path. subst nf.
    rewrite OverlayPaths.splitext_png by done.
    destruct (free_path_spec d
                ((ROOT +:+ "/overlays") +:+ String "/" (String "C" rest))
                ".png") as (k & -> & Hk).
    exists (String "C" rest +:+ "_" +:+ pretty k +:+ ".png").
    assert (Str.contains (String "C" rest +:+ "_" +:+ pretty k +:+ ".png") "/"
            = false) as Hsep.
    { by rewrite !has_sep_app, Hns, Names.pretty_nat_no_sep. }
    assert (((ROOT +:+ "/overlays") +:+ String "/" (String "C" rest))
            +:+ "_" +:+ pretty k +:+ ".png"
            = path ("overlays/"
                    +:+ String "C" rest +:+ "_" +:+ pretty k +:+ ".png"))
      as Hshape.
    { rewrite overlay_ref_path. rewrite (app_assoc (ROOT +:+ "/overlays")).
      by rewrite app_cons. }
    rewrite Hshape in *. split_and!.
    - split_and!; [by split|by rewrite app_cons|by rewrite app_cons].
    - done.
    - right. by exists k.
    - done.
    - rewrite !overlay_ref_path.
      by rewrite OverlayPaths.basename_join. }
  destruct (move_spec n m c F d Hl Hlinks Hc Hm Hfree)
    as (d' & Hmove & Hl' & Hlinks' & Hc' & Hframe & Hfiles).
  rewrite Hmove. exists d', ("overlays/" +:+ m).
  split_and!; [done..|by rewrite Hc'|done| | |].
  - destruct Hshape as [->|[k ->]]; [by left|right; by exists k].
  - intros x Hx. destruct (Hfiles x Hx) as [->|[Hxn Hxd]].
    { right. exists ("overlays/" +:+ m). split; [by left|done]. }
    destruct (Hcov x Hxd) as [?|(t & Ht & ->)]; [by left|right].
    apply elem_of_cons in Ht as [Ht|Ht]; [by injection Ht as ->|].
    exists t. split; [by right|done].
  - intros [Hfor Hfree']. f_equal. apply Hexact.
    destruct (path_exists d (path ("overlays/" +:+ nf))) eqn:Hexn; [|done].
    exfalso. apply bool_decide_eq_true in Hexn.
    destruct (Hcov _ Hexn) as [?|(t & Ht & Heq)]; [done|].
    apply ref_path_inj in Heq. subst t.
    apply elem_of_cons in Ht as [Ht|Ht]; [|by apply (Hfree' _ Ht)].
    injection Ht as Ht. apply (inj (String.app _)) in Ht. by subst n.
Qed.

Lemma links_ok_perm d L L' :
  L ≡ₚ L' -> links_ok BASE_DIR d L -> links_ok BASE_DIR d L'.
Proof.
  intros Hp [Hnd Hok]. split.
  - by rewrite <- Hp.
  - intros s Hs. apply Hok. by rewrite Hp.
Qed.

Lemma links_ok_truthy d L s :
  links_ok BASE_DIR d L -> Some s ∈ L -> Str.truthy s = true.
Proof. intros [_ Hok] Hs. by destruct (Hok s Hs) as (n & -> & _). Qed.

Lemma same_overlay_refl d o : same_overlay BASE_DIR d d o o.
Proof. done. Qed.

Lemma same_overlay_trans d1 d2 d3 o1 o2 o3 :
  same_overlay BASE_DIR d1 d2 o1 o2 -> same_overlay BASE_DIR d2 d3 o2 o3 ->
  same_overlay BASE_DIR d1 d3 o1 o3.
Proof.
  intros [Hc1 Hs1] [Hc2 Hs2]. split; [congruence|]. by rewrite Hs2.
Qed.

Lemma renamed_refl d L :
  locked d = ∅ -> links_ok BASE_DIR d L -> renamed BASE_DIR d L d L.
Proof.
  intros Hl Hok. split_and!; [done..|].
  apply Forall2_same_length_lookup_2; [done|].
  intros i x y Hx Hy. assert (x = y) as -> by congruence. done.
Qed.

Lemma renamed_trans d1 L1 d2 L2 d3 L3 :
  renamed BASE_DIR d1 L1 d2 L2 -> renamed BASE_DIR d2 L2 d3 L3 ->
  renamed BASE_DIR d1 L1 d3 L3.
Proof.
  intros (_ & _ & H12) (Hl & Hok & H23). split_and!; [done..|].
  eapply Forall2_trans; [|done..]. apply same_overlay_trans.
Qed.

Lemma frame_same d d' (F : list (option string)) :
  (forall t, Some t ∈ F -> files d' !! path t = files d !! path t) ->
  Forall2 (same_overlay BASE_DIR d d') F F.
Proof.
  intros Hframe. apply Forall2_same_length_lookup_2; [done|].
  intros i x y Hx Hy. assert (x = y) as -> by congruence.
  destruct y as [t|]; [|done]. split; [|done]. simpl. apply Hframe.
  by eapply list_elem_of_lookup_2.
Qed.

(** [rename_overlay] on one link of a list of links. *)
Lemma rename_in_context pid aid root s nr ot idx pre post d :
  locked d = ∅ ->
  links_ok BASE_DIR d (pre ++ Some s :: post) ->
  covered d (pre ++ Some s :: post) ->
  exists d' s',
    rename_overlay BASE_DIR pid aid root s nr ot idx d
    = (d', Ret (Some s', []))
    /\ Str.truthy s' = true
    /\ named pid aid nr ot idx (Some s')
    /\ renamed BASE_DIR d (pre ++ Some s :: post) d' (pre ++ Some s' :: post)
    /\ covered d' (pre ++ Some s' :: post)
    /\ (vacant (pre ++ post)
          (generate_canvas_overlay_filename pid aid nr ot idx) ->
        exactly_named pid aid nr ot idx (Some s')).
Proof.
  intros Hl Hok Hcov.
  apply (links_ok_perm _ _ (Some s :: pre ++ post)) in Hok;
    [|by rewrite Permutation_middle].
  apply (covered_perm _ _ (Some s :: pre ++ post)) in Hcov;
    [|by rewrite Permutation_middle].
  destruct (rename_overlay_spec pid aid root s nr ot idx _ d Hl Hok Hcov)
    as (d' & s' & Hrun & Hl' & Hok' & Hc & Hframe & Hnamed & Hcov' & Hexact).
  exists d', s'. split; [done|]. split.
  { eapply links_ok_truthy; [done|]. by left. }
  split; [done|]. clear Hnamed.
  split; [|split; [|done]].
  - split_and!; [done| |].
    + eapply links_ok_perm; [|done]. by rewrite Permutation_middle.
    + apply Forall2_app; [|apply Forall2_cons; split].
      * apply frame_same. intros t Ht. apply Hframe. set_solver.
      * done.
      * apply frame_same. intros t Ht. apply Hframe. set_solver.
  - eapply covered_perm; [|done]. by rewrite Permutation_middle.
Qed.

Lemma linked_same s : Str.truthy s = true -> linked (Some s) (Some s) = Some s.
Proof. intros Ht. unfold linked, field_or, field_truthy. by rewrite !Ht. Qed.

(** The step both passes run on a position: [x] is the record or the list
    element, [set] stores the new reference in it. *)
Lemma slot_spec {X} (set : option string -> X -> X) (x : X) a b
    pid aid root nr ot idx pre post d :
  locked d = ∅ ->
  links_ok BASE_DIR d (pre ++ linked a b :: post) ->
  covered d (pre ++ linked a b :: post) ->
  exists d' x' o',
    match field_or a b with
    | Some overlay_ref =>
        if Str.truthy overlay_ref then
          '(new_ref, errs) ←
            rename_overlay BASE_DIR pid aid root overlay_ref nr ot idx;
          mret (set new_ref x, errs)
        else mret (x, [])
    | None => mret (x, [])
    end d = (d', Ret (x', []))
    /\ renamed BASE_DIR d (pre ++ linked a b :: post) d' (pre ++ o' :: post)
    /\ ((linked a b = None /\ x' = x /\ o' = None)
        \/ exists s',
             o' = Some s' /\ Str.truthy s' = true /\ x' = set (Some s') x)
    /\ named pid aid nr ot idx o'
    /\ covered d' (pre ++ o' :: post)
    /\ (vacant (pre ++ post)
          (generate_canvas_overlay_filename pid aid nr ot idx) ->
        exactly_named pid aid nr ot idx o').
Proof.
  intros Hl Hok Hcov. unfold linked in *.
  destruct (field_or a b) as [s|]; [destruct (Str.truthy s) eqn:Ht|].
  - destruct (rename_in_context pid aid root s nr ot idx pre post d Hl Hok
                Hcov)
      as (d' & s' & Hrun & Ht' & Hnamed & Hren & Hcov' & Hexact).
    exists d', (set (Some s') x), (Some s'). m_unfold. rewrite Hrun.
    split_and!; [done..| |done|done|done]. right. by exists s'.
  - exists d, x, None.
    split_and!; [done|by apply renamed_refl|by left|done..].
  - exists d, x, None.
    split_and!; [done|by apply renamed_refl|by left|done..].
Qed.

Lemma rename_list_spec pid aid root nr ot items :
  forall i pre post d,
    locked d = ∅ ->
    links_ok BASE_DIR d (pre ++ (entry_link <$> items) ++ post) ->
    covered d (pre ++ (entry_link <$> items) ++ post) ->
    exists d' items',
      rename_overlays_in_list BASE_DIR pid aid root nr ot i items d
      = (d', Ret (items', []))
      /\ renamed BASE_DIR d (pre ++ (entry_link <$> items) ++ post)
           d' (pre ++ (entry_link <$> items') ++ post)
      /\ list_named pid aid nr ot i items'
      /\ covered d' (pre ++ (entry_link <$> items') ++ post)
      /\ (ot ∈ overlay_roles ->
          (forall j : nat,
             vacant (pre ++ (entry_link <$> items) ++ post)
               (generate_canvas_overlay_filename pid aid nr ot
                  (Some (i + Z.of_nat j)))) ->
          list_exactly_named pid aid nr ot i items').
Proof.
  induction items as [|item rest IH]; intros i pre post d Hl Hok Hcov.
  { exists d, []. split_and!; [done|by apply renamed_refl| |done|].
    - intros j e. by rewrite lookup_nil.
    - intros _ _ j e. by rewrite lookup_nil. }
  rewrite fmap_cons in *. simpl app in Hok, Hcov.
  destruct (slot_spec set_entry_overlay item (e_overlay item) (e_edited item)
              pid aid root nr ot (Some i) pre
              ((entry_link <$> rest) ++ post) d Hl Hok Hcov)
    as (d1 & item' & o' & Hrun & Hren & Hcase & Hnamed & Hcov1 & Hex1).
  assert (entry_link item' = o') as Hlink.
  { destruct Hcase as [(Hnone & -> & ->)|(s' & -> & Ht & ->)]; [done|].
    by apply linked_same. }
  subst o'. pose proof Hren as (Hl1 & Hok1 & _).
  rewrite cons_middle, (assoc_L (++)) in Hok1, Hcov1.
  destruct (IH (i + 1) _ _ d1 Hl1 Hok1 Hcov1)
    as (d2 & rest' & Hrun2 & Hren2 & Hnamed2 & Hcov2 & Hex2).
  exists d2, (item' :: rest').
  change (rename_overlays_in_list BASE_DIR pid aid root nr ot i (item :: rest))
    with ('(item', errs) ←
            match field_or (e_overlay item) (e_edited item) with
            | Some overlay_ref =>
                if Str.truthy overlay_ref then
                  '(new_ref, errs) ←
                    rename_overlay BASE_DIR pid aid root overlay_ref nr ot
                      (Some i);
                  mret (set_entry_overlay new_ref item, errs)
                else mret (item, [])
            | None => mret (item, [])
            end;
          '(rest', errs') ←
            rename_overlays_in_list BASE_DIR pid aid root nr ot (i + 1) rest;
          mret (item' :: rest', errs ++ errs')).
  unfold mbind at 1, M_bind at 1. rewrite Hrun.
  unfold mbind at 1, M_bind at 1. rewrite Hrun2.
  split_and!; [done| | | |].
  - rewrite fmap_cons. simpl app.
    eapply renamed_trans; [exact Hren|].
    rewrite <- !(assoc_L (++) pre) in Hren2. exact Hren2.
  - intros [|j] e He; simpl in He.
    + injection He as <-. by rewrite Z.add_0_r.
    + replace (i + Z.of_nat (S j)) with (i + 1 + Z.of_nat j) by lia.
      by apply Hnamed2.
  - rewrite fmap_cons. simpl app.
    rewrite <- !(assoc_L (++) pre) in Hcov2. exact Hcov2.
  - intros Hot Hv.
    assert (exactly_named pid aid nr ot (Some i) (entry_link item')) as E1.
    { apply Hex1. specialize (Hv O). rewrite Z.add_0_r in Hv.
      eapply vacant_sub; [|exact Hv]. intros t. among_links. }
    intros [|j] e He; simpl in He.
    { injection He as <-. by rewrite Z.add_0_r. }
    replace (i + Z.of_nat (S j)) with (i + 1 + Z.of_nat j) by lia.
    apply Hex2; [done| |done]. intros j'. specialize (Hv (S j')).
    replace (i + 1 + Z.of_nat j') with (i + Z.of_nat (S j')) by lia.
    destruct Hv as [Hfor Hfree]. split; [done|]. intros t Ht.
    assert (Some t = entry_link item'
            \/ Some t ∈ pre ++ (entry_link item :: (entry_link <$> rest))
                         ++ post) as [Ht'|Ht'];
      [revert Ht; among_links| |by apply Hfree].
    clear Ht. rename Ht' into Ht. rewrite <- Ht in E1. simpl in E1. subst t.
    intros Heq. apply (inj (String.app _)) in Heq.
    apply FinalNames.name_pos_inj in Heq as [_ Heq]; [|done..].
    injection Heq. lia.
Qed.

Lemma record_links_eq r post :
  record_links r ++ post
  = linked (r_overlay r) (r_edited r)
    :: linked (r_after_overlay r) (r_after_edited r)
    :: (entry_link <$> r_ctx_list r)
    ++ (entry_link <$> r_add_fehler_list r)
    ++ (entry_link <$> r_add_after_list r) ++ post.
Proof. unfold record_links. simpl. by rewrite <- !(assoc_L (++)). Qed.

Lemma vacant_step L L' g :
  vacant L g ->
  (forall t, Some t ∈ L' -> Some t ∈ L \/ t <> "overlays/" +:+ g) ->
  vacant L' g.
Proof.
  intros [Hf Hl] Hstep. split; [done|]. intros t Ht.
  destruct (Hstep t Ht) as [Hin|Hne]; [by apply Hl|done].
Qed.

Lemma exactly_named_differs pid aid nr ot idx ot' idx' t :
  exactly_named pid aid nr ot' idx' (Some t) ->
  ot ∈ overlay_roles -> ot' ∈ overlay_roles ->
  (ot', idx') <> (ot, idx) ->
  t <> "overlays/" +:+ generate_canvas_overlay_filename pid aid nr ot idx.
Proof.
  simpl. intros -> Hot Hot' Hne Heq. apply (inj (String.app _)) in Heq.
  apply FinalNames.name_pos_inj in Heq as [-> ->]; done.
Qed.

Lemma list_exact_elem pid aid nr ot i items t :
  list_exactly_named pid aid nr ot i items ->
  Some t ∈ entry_link <$> items ->
  exists j : nat,
    exactly_named pid aid nr ot (Some (i + Z.of_nat j)) (Some t).
Proof.
  intros Hl (e & He & Hin)%list_elem_of_fmap.
  apply list_elem_of_lookup_1 in Hin as [j Hj]. exists j. rewrite He.
  by apply Hl in Hj.
Qed.

Lemma record_exact_elem pid aid nr r t :
  record_exactly_named pid aid nr r -> Some t ∈ record_links r ->
  exists ot idx,
    ot ∈ overlay_roles /\ exactly_named pid aid nr ot idx (Some t).
Proof.
  intros (Hm & Ha & Hc & Hf & Hn). unfold record_links.
  rewrite !elem_of_cons, !elem_of_app.
  intros [Ht|[Ht|[Ht|[Ht|Ht]]]].
  - rewrite <- Ht in Hm. exists OVERLAY_FEHLERBILD, None.
    split; [|done]. unfold overlay_roles. among_links.
  - rewrite <- Ht in Ha. exists OVERLAY_NACHARBEIT, None.
    split; [|done]. unfold overlay_roles. among_links.
  - destruct (list_exact_elem _ _ _ _ _ _ _ Hc Ht) as [j Hj].
    eexists _, _. split; [|exact Hj]. unfold overlay_roles. among_links.
  - destruct (list_exact_elem _ _ _ _ _ _ _ Hf Ht) as [j Hj].
    eexists _, _. split; [|exact Hj]. unfold overlay_roles. among_links.
  - destruct (list_exact_elem _ _ _ _ _ _ _ Hn Ht) as [j Hj].
    eexists _, _. split; [|exact Hj]. unfold overlay_roles. among_links.
Qed.

Lemma rename_record_spec pid aid root nr rec pre post d :
  locked d = ∅ ->
  links_ok BASE_DIR d (pre ++ record_links rec ++ post) ->
  covered d (pre ++ record_links rec ++ post) ->
  exists d' rec',
    rename_record_overlays BASE_DIR pid aid root nr rec d
    = (d', Ret (rec', []))
    /\ renamed BASE_DIR d (pre ++ record_links rec ++ post)
         d' (pre ++ record_links rec' ++ post)
    /\ r_audit_id rec' = r_audit_id rec
    /\ r_nr rec' = r_nr rec
    /\ record_named pid aid nr rec'
    /\ covered d' (pre ++ record_links rec' ++ post)
    /\ ((forall ot idx, ot ∈ overlay_roles ->
           vacant (pre ++ record_links rec ++ post)
             (generate_canvas_overlay_filename pid aid nr ot idx)) ->
        record_exactly_named pid aid nr rec').
Proof.
  intros Hl Hok Hcov. rewrite record_links_eq in *.
  (* the main overlay *)
  destruct (slot_spec set_main_overlay rec (r_overlay rec) (r_edited rec)
              pid aid root nr OVERLAY_FEHLERBILD None pre _ d Hl Hok Hcov)
    as (d1 & rec1 & o1 & Hrun1 & Hren1 & Hcase1 & Hnamed1 & Hcov1 & Hex1).
  assert (linked (r_overlay rec1) (r_edited rec1) = o1
          /\ r_after_overlay rec1 = r_after_overlay rec
          /\ r_after_edited rec1 = r_after_edited rec
          /\ r_ctx_list rec1 = r_ctx_list rec
          /\ r_add_fehler_list rec1 = r_add_fehler_list rec
          /\ r_add_after_list rec1 = r_add_after_list rec
          /\ r_audit_id rec1 = r_audit_id rec
          /\ r_nr rec1 = r_nr rec)
    as (Hm1 & Ha1 & Hae1 & Hc1 & Hf1 & Hn1 & Hid1 & Hnr1).
  { destruct Hcase1 as [(Hnone & -> & ->)|(s' & -> & Ht & ->)]; [done|].
    split_and!; [by apply linked_same|done..]. }
  pose proof Hren1 as (Hl1 & Hok1 & _).
  rewrite <- Ha1, <- Hae1, cons_middle, (assoc_L (++)) in Hok1, Hcov1.
  (* the overlay after rework *)
  destruct (slot_spec set_after_overlay rec1 (r_after_overlay rec1)
              (r_after_edited rec1) pid aid root nr OVERLAY_NACHARBEIT None
              _ _ d1 Hl1 Hok1 Hcov1)
    as (d2 & rec2 & o2 & Hrun2 & Hren2 & Hcase2 & Hnamed2 & Hcov2 & Hex2).
  assert (linked (r_after_overlay rec2) (r_after_edited rec2) = o2
          /\ r_overlay rec2 = r_overlay rec1
          /\ r_edited rec2 = r_edited rec1
          /\ r_ctx_list rec2 = r_ctx_list rec
          /\ r_add_fehler_list rec2 = r_add_fehler_list rec
          /\ r_add_after_list rec2 = r_add_after_list rec
          /\ r_audit_id rec2 = r_audit_id rec
          /\ r_nr rec2 = r_nr rec)
    as (Hm2 & Ho2 & Hoe2 & Hc2 & Hf2 & Hn2 & Hid2 & Hnr2).
  { destruct Hcase2 as [(Hnone & -> & ->)|(s' & -> & Ht & ->)]; [done|].
    split_and!; [by apply linked_same|done..]. }
  pose proof Hren2 as (Hl2 & Hok2 & _).
  rewrite <- Hc2, <- Hf2, <- Hn2, cons_middle, (assoc_L (++)) in Hok2, Hcov2.
  (* the three lists *)
  destruct (rename_list_spec pid aid root nr OVERLAY_KONTEXT
              (r_ctx_list rec2) 1 _ _ d2 Hl2 Hok2 Hcov2)
    as (d3 & ctx & Hrun3 & Hren3 & Hnamed3 & Hcov3 & Hex3).
  pose proof Hren3 as (Hl3 & Hok3 & _).
  rewrite (assoc_L (++)) in Hok3, Hcov3.
  destruct (rename_list_spec pid aid root nr OVERLAY_ZUSATZ_FEHLER
              (r_add_fehler_list rec2) 1 _ _ d3 Hl3 Hok3 Hcov3)
    as (d4 & addf & Hrun4 & Hren4 & Hnamed4 & Hcov4 & Hex4).
  pose proof Hren4 as (Hl4 & Hok4 & _).
  rewrite (assoc_L (++)) in Hok4, Hcov4.
  destruct (rename_list_spec pid aid root nr OVERLAY_ZUSATZ_NACHARBEIT
              (r_add_after_list rec2) 1 _ _ d4 Hl4 Hok4 Hcov4)
    as (d5 & adda & Hrun5 & Hren5 & Hnamed5 & Hcov5 & Hex5).
  exists d5, (set_lists ctx addf adda rec2).
  split_and!; [| |done..| | |].
  - unfold rename_record_overlays.
    unfold mbind at 1, M_bind at 1. rewrite Hrun1. cbv beta iota.
    unfold mbind at 1, M_bind at 1. rewrite Hrun2. cbv beta iota.
    unfold mbind at 1, M_bind at 1. rewrite Hrun3. cbv beta iota.
    unfold mbind at 1, M_bind at 1. rewrite Hrun4. cbv beta iota.
    unfold mbind at 1, M_bind at 1. rewrite Hrun5. done.
  - rewrite record_links_eq. simpl.
    rewrite Ho2, Hoe2, Hm1, Hm2.
    eapply renamed_trans; [exact Hren1|].
    rewrite <- Ha1, <- Hae1.
    eapply renamed_trans.
    { rewrite cons_middle, (assoc_L (++)). exact Hren2. }
    rewrite <- Hc2, <- Hf2, <- Hn2.
    eapply renamed_trans.
    { rewrite cons_middle, (assoc_L (++)). exact Hren3. }
    eapply renamed_trans.
    { rewrite (assoc_L (++)). exact Hren4. }
    rewrite <- !(assoc_L (++)) in Hren5. rewrite <- !(assoc_L (++)).
    exact Hren5.
  - unfold record_named. simpl. rewrite Ho2, Hoe2, Hm1, Hm2. done.
  - rewrite record_links_eq. simpl. rewrite Ho2, Hoe2, Hm1, Hm2.
    rewrite <- !(assoc_L (++)) in Hcov5. exact Hcov5.
  - intros Hv.
    assert (OVERLAY_FEHLERBILD ∈ overlay_roles
            /\ OVERLAY_NACHARBEIT ∈ overlay_roles
            /\ OVERLAY_KONTEXT ∈ overlay_roles
            /\ OVERLAY_ZUSATZ_FEHLER ∈ overlay_roles
            /\ OVERLAY_ZUSATZ_NACHARBEIT ∈ overlay_roles)
      as (R1 & R2 & R3 & R4 & R5)
      by (unfold overlay_roles; split_and!; among_links).
    rewrite Hc2, Hf2, Hn2 in *.
    assert (exactly_named pid aid nr OVERLAY_FEHLERBILD None o1) as E1.
    { apply Hex1. eapply vacant_sub; [|by apply Hv]. intros t. among_links. }
    assert (exactly_named pid aid nr OVERLAY_NACHARBEIT None o2) as E2.
    { apply Hex2. eapply vacant_step; [by apply Hv|]. intros t Ht.
      assert (Some t = o1
              \/ Some t ∈ pre ++ linked (r_overlay rec) (r_edited rec)
                   :: linked (r_after_overlay rec) (r_after_edited rec)
                   :: (entry_link <$> r_ctx_list rec)
                   ++ (entry_link <$> r_add_fehler_list rec)
                   ++ (entry_link <$> r_add_after_list rec) ++ post)
        as [Ht'|Ht']; [revert Ht; among_links| |by left].
      right. rewrite <- Ht' in E1.
      by eapply exactly_named_differs. }
    assert (list_exactly_named pid aid nr OVERLAY_KONTEXT 1 ctx) as E3.
    { apply Hex3; [done|]. intros j.
      eapply vacant_step; [by apply Hv|]. intros t Ht.
      assert (Some t = o1 \/ Some t = o2
              \/ Some t ∈ pre ++ linked (r_overlay rec) (r_edited rec)
                   :: linked (r_after_overlay rec) (r_after_edited rec)
                   :: (entry_link <$> r_ctx_list rec)
                   ++ (entry_link <$> r_add_fehler_list rec)
                   ++ (entry_link <$> r_add_after_list rec) ++ post)
        as [Ht'|[Ht'|Ht']]; [revert Ht; among_links| | |by left].
      - right. rewrite <- Ht' in E1. by eapply exactly_named_differs.
      - right. rewrite <- Ht' in E2. by eapply exactly_named_differs. }
    assert (list_exactly_named pid aid nr OVERLAY_ZUSATZ_FEHLER 1 addf)
      as E4.
    { apply Hex4; [done|]. intros j.
      eapply vacant_step; [by apply Hv|]. intros t Ht.
      assert (Some t = o1 \/ Some t = o2
              \/ Some t ∈ entry_link <$> ctx
              \/ Some t ∈ pre ++ linked (r_overlay rec) (r_edited rec)
                   :: linked (r_after_overlay rec) (r_after_edited rec)
                   :: (entry_link <$> r_ctx_list rec)
                   ++ (entry_link <$> r_add_fehler_list rec)
                   ++ (entry_link <$> r_add_after_list rec) ++ post)
        as [Ht'|[Ht'|[Ht'|Ht']]]; [revert Ht; among_links| | | |by left].
      - right. rewrite <- Ht' in E1. by eapply exactly_named_differs.
      - right. rewrite <- Ht' in E2. by eapply exactly_named_differs.
      - right. destruct (list_exact_elem _ _ _ _ _ _ _ E3 Ht') as [j' Hj'].
        by eapply exactly_named_differs. }
    assert (list_exactly_named pid aid nr OVERLAY_ZUSATZ_NACHARBEIT 1 adda)
      as E5.
    { apply Hex5; [done|]. intros j.
      eapply vacant_step; [by apply Hv|]. intros t Ht.
      assert (Some t = o1 \/ Some t = o2
              \/ Some t ∈ entry_link <$> ctx
              \/ Some t ∈ entry_link <$> addf
              \/ Some t ∈ pre ++ linked (r_overlay rec) (r_edited rec)
                   :: linked (r_after_overlay rec) (r_after_edited rec)
                   :: (entry_link <$> r_ctx_list rec)
                   ++ (entry_link <$> r_add_fehler_list rec)
                   ++ (entry_link <$> r_add_after_list rec) ++ post)
        as [Ht'|[Ht'|[Ht'|[Ht'|Ht']]]];
        [revert Ht; among_links| | | | |by left].
      - right. rewrite <- Ht' in E1. by eapply exactly_named_differs.
      - right. rewrite <- Ht' in E2. by eapply exactly_named_differs.
      - right. destruct (list_exact_elem _ _ _ _ _ _ _ E3 Ht') as [j' Hj'].
        by eapply exactly_named_differs.
      - right. destruct (list_exact_elem _ _ _ _ _ _ _ E4 Ht') as [j' Hj'].
        by eapply exactly_named_differs. }
    unfold record_exactly_named. simpl. rewrite Ho2, Hoe2, Hm1, Hm2. done.
Qed.

Lemma audit_links_cons images pos order :
  audit_links images (pos :: order)
  = from_option record_links [] (images !! pos) ++ audit_links images order.
Proof. done. Qed.

Lemma audit_links_ext images images' order :
  (forall p, p ∈ order -> images' !! p = images !! p) ->
  audit_links images' order = audit_links images order.
Proof.
  induction order as [|pos order IH]; intros Hext; [done|].
  rewrite !audit_links_cons, Hext, IH; [done| |by left].
  intros p Hp. apply Hext. by right.
Qed.

Lemma record_links_set_nr nr r : record_links (set_nr nr r) = record_links r.
Proof. done. Qed.

(** One pass of [reindex_audit_images] over the positions [order]. *)
Lemma reindex_pass_spec pid aid root nr_of renumber order :
  forall i images pre d,
    NoDup order ->
    locked d = ∅ ->
    links_ok BASE_DIR d (pre ++ audit_links images order) ->
    covered d (pre ++ audit_links images order) ->
    exists d' images',
      reindex_pass BASE_DIR pid aid root nr_of renumber i order images d
      = (d', Ret (images', []))
      /\ renamed BASE_DIR d (pre ++ audit_links images order)
           d' (pre ++ audit_links images' order)
      /\ length images' = length images
      /\ (forall p, p ∉ order -> images' !! p = images !! p)
      /\ (renumber = true ->
          forall k p, order !! k = Some p -> is_Some (images !! p) ->
            r_nr <$> images' !! p = Some (Some (nr_of (i + k)%nat)))
      /\ (forall k p, order !! k = Some p -> is_Some (images !! p) ->
            exists r', images' !! p = Some r'
              /\ record_named pid aid (nr_of (i + k)%nat) r')
      /\ covered d' (pre ++ audit_links images' order)
      /\ ((forall a, all_chars is_digit (nr_key (nr_of a)) = true) ->
          (forall a b, nr_key (nr_of a) = nr_key (nr_of b) -> a = b) ->
          (forall (k : nat) ot idx,
             (k < length order)%nat -> ot ∈ overlay_roles ->
             vacant (pre ++ audit_links images order)
               (generate_canvas_overlay_filename pid aid
                  (nr_of (i + k)%nat) ot idx)) ->
          forall k p, order !! k = Some p -> is_Some (images !! p) ->
            exists r', images' !! p = Some r'
              /\ record_exactly_named pid aid (nr_of (i + k)%nat) r').
Proof.
  induction order as [|pos order IH]; intros i images pre d Hnd Hl Hok Hcov.
  { exists d, images.
    split_and!; [done|by apply renamed_refl|done..| |done|].
    - intros k p. by rewrite lookup_nil.
    - intros _ _ _ k p. by rewrite lookup_nil. }
  apply NoDup_cons in Hnd as [Hpos Hnd].
  rewrite audit_links_cons in Hok, Hcov. simpl reindex_pass.
  destruct (images !! pos) as [rec|] eqn:Hrec; cbn [from_option] in Hok, Hcov.
  - destruct (rename_record_spec pid aid root (nr_of i) rec pre _ d Hl Hok
                Hcov)
      as (d1 & rec1 & Hrun1 & Hren1 & _ & _ & Hnamed1 & Hcov1 & Hex1).
    set (rec' := if renumber then set_nr (nr_of i) rec1 else rec1).
    assert (record_links rec' = record_links rec1) as Hlinks
      by (by subst rec'; destruct renumber).
    pose proof Hren1 as (Hl1 & Hok1 & _).
    rewrite <- Hlinks, (assoc_L (++)) in Hok1, Hcov1.
    rewrite <- (audit_links_ext images (<[pos := rec']> images)) in Hok1.
    2:{ intros p Hp. apply list_lookup_insert_ne. by intros ->. }
    rewrite <- (audit_links_ext images (<[pos := rec']> images)) in Hcov1.
    2:{ intros p Hp. apply list_lookup_insert_ne. by intros ->. }
    destruct (IH (S i) _ _ d1 Hnd Hl1 Hok1 Hcov1)
      as (d2 & images2 & Hrun2 & Hren2 & Hlen2 & Hframe2 & Hnr2 & Hnm2
          & Hcov2 & Hex2).
    assert (images2 !! pos = Some rec') as Hpos2.
    { rewrite Hframe2 by done. apply list_lookup_insert_eq.
      by eapply lookup_lt_Some. }
    exists d2, images2. split_and!.
    + unfold mbind at 1, M_bind at 1. rewrite Hrun1. cbv beta iota.
      fold rec'. unfold mbind at 1, M_bind at 1. by rewrite Hrun2.
    + rewrite !audit_links_cons, Hrec, Hpos2. cbn [from_option].
      eapply renamed_trans; [exact Hren1|].
      rewrite <- Hlinks, !(assoc_L (++)).
      rewrite <- (audit_links_ext images (<[pos := rec']> images)) at 1;
        [done|].
      intros p Hp. apply list_lookup_insert_ne. by intros ->.
    + by rewrite Hlen2, length_insert.
    + intros p [Hne Hp]%not_elem_of_cons.
      by rewrite Hframe2, list_lookup_insert_ne.
    + intros Hren [|k] p Hk Hsome; simpl in Hk.
      * injection Hk as <-. rewrite Hpos2, Nat.add_0_r. subst rec'.
        by rewrite Hren.
      * rewrite Nat.add_succ_r. apply (Hnr2 Hren k p Hk).
        apply lookup_lt_is_Some. rewrite length_insert.
        by apply lookup_lt_is_Some.
    + intros [|k] p Hk Hsome; simpl in Hk.
      * injection Hk as <-. exists rec'. split; [done|].
        rewrite Nat.add_0_r. subst rec'. by destruct renumber.
      * rewrite Nat.add_succ_r. apply (Hnm2 k p Hk).
        apply lookup_lt_is_Some. rewrite length_insert.
        by apply lookup_lt_is_Some.
    + rewrite !audit_links_cons, Hpos2. cbn [from_option].
      by rewrite (assoc_L (++)).
    + intros Hdig Hinj Hv.
      assert (record_exactly_named pid aid (nr_of i) rec') as E1.
      { assert (record_exactly_named pid aid (nr_of i) rec1) as E1;
          [|by subst rec'; destruct renumber].
        apply Hex1. intros ot idx Hot.
        specialize (Hv O ot idx ltac:(simpl; lia) Hot).
        by rewrite Nat.add_0_r, audit_links_cons, Hrec in Hv. }
      intros [|k] p Hk Hsome; simpl in Hk.
      * injection Hk as <-. exists rec'. split; [done|].
        by rewrite Nat.add_0_r.
      * rewrite Nat.add_succ_r. apply (Hex2 Hdig Hinj); [|done|].
        2:{ apply lookup_lt_is_Some. rewrite length_insert.
            by apply lookup_lt_is_Some. }
        intros k' ot idx Hk' Hot.
        specialize (Hv (S k') ot idx ltac:(simpl; lia) Hot).
        rewrite Nat.add_succ_r, audit_links_cons, Hrec in Hv.
        cbn [from_option] in Hv.
        rewrite (audit_links_ext images (<[pos := rec']> images)).
        2:{ intros q Hq. apply list_lookup_insert_ne. by intros ->. }
        eapply vacant_step; [exact Hv|]. intros t Ht.
        assert (Some t ∈ record_links rec'
                \/ Some t ∈ pre ++ record_links rec
                             ++ audit_links images order) as [Ht'|Ht'];
          [revert Ht; among_links| |by left].
        right. destruct (record_exact_elem _ _ _ _ _ E1 Ht')
          as (ot' & idx' & _ & Heq). simpl in Heq. subst t.
        intros Heq. apply (inj (String.app _)) in Heq.
        apply FinalNames.name_nr_inj in Heq; [|done..].
        apply Hinj in Heq. lia.
  - destruct (IH (S i) images pre d Hnd Hl Hok Hcov)
      as (d2 & images2 & Hrun2 & Hren2 & Hlen2 & Hframe2 & Hnr2 & Hnm2
          & Hcov2 & Hex2).
    exists d2, images2. split_and!; [done| |done| | | | |].
    + rewrite !audit_links_cons, Hrec, Hframe2, Hrec by done. done.
    + intros p [Hne Hp]%not_elem_of_cons. by apply Hframe2.
    + intros Hren [|k] p Hk Hsome; simpl in Hk.
      * injection Hk as <-. rewrite Hrec in Hsome. by destruct Hsome.
      * rewrite Nat.add_succ_r. by apply (Hnr2 Hren k p Hk).
    + intros [|k] p Hk Hsome; simpl in Hk.
      * injection Hk as <-. rewrite Hrec in Hsome. by destruct Hsome.
      * rewrite Nat.add_succ_r. by apply (Hnm2 k p Hk).
    + rewrite !audit_links_cons, Hframe2, Hrec by done. done.
    + intros Hdig Hinj Hv [|k] p Hk Hsome; simpl in Hk.
      * injection Hk as <-. rewrite Hrec in Hsome. by destruct Hsome.
      * rewrite Nat.add_succ_r. apply (Hex2 Hdig Hinj); [|done..].
        intros k' ot idx Hk' Hot.
        specialize (Hv (S k') ot idx ltac:(simpl; lia) Hot).
        by rewrite Nat.add_succ_r, audit_links_cons, Hrec in Hv.
Qed.

(** The links of the records at the positions [order] are links of the
    records. *)
Lemma audit_links_elem images order t :
  Some t ∈ audit_links images order ->
  exists k p r,
    order !! k = Some p /\ images !! p = Some r /\ Some t ∈ record_links r.
Proof.
  induction order as [|pos order IH]; [by intros ?%elem_of_nil|].
  rewrite audit_links_cons, elem_of_app. intros [Ht|Ht].
  - destruct (images !! pos) as [r|] eqn:Hr; [|by apply elem_of_nil in Ht].
    by exists O, pos, r.
  - destruct (IH Ht) as (k & p & r & Hk & Hp & Hr). by exists (S k), p, r.
Qed.

Lemma record_named_elem pid aid nr r t :
  record_named pid aid nr r -> Some t ∈ record_links r ->
  exists ot idx, named pid aid nr ot idx (Some t).
Proof.
  assert (forall ot i items,
    list_named pid aid nr ot i items -> Some t ∈ entry_link <$> items ->
    exists idx, named pid aid nr ot idx (Some t)) as Hlist.
  { intros ot i items Hl (e & He & Hin)%list_elem_of_fmap.
    apply list_elem_of_lookup_1 in Hin as [j Hj]. eexists. rewrite He.
    by apply Hl in Hj. }
  intros (Hm & Ha & Hc & Hf & Hn). unfold record_links.
  rewrite !elem_of_cons, !elem_of_app.
  intros [Ht|[Ht|[Ht|[Ht|Ht]]]].
  - rewrite <- Ht in Hm. by eexists _, _.
  - rewrite <- Ht in Ha. by eexists _, _.
  - destruct (Hlist _ _ _ Hc Ht) as [idx Hidx]. by eexists _, _.
  - destruct (Hlist _ _ _ Hf Ht) as [idx Hidx]. by eexists _, _.
  - destruct (Hlist _ _ _ Hn Ht) as [idx Hidx]. by eexists _, _.
Qed.

End WithForeign.

(** Every file is the file of a link or one of the files that are not. *)
Lemma covered_initially d L :
  covered BASE_DIR
    (fun x => is_Some (files d !! x)
              /\ forall s, Some s ∈ L -> x <> path s) d L.
Proof.
  intros x Hx.
  destruct (decide (x ∈ path <$> omap id L)) as [Hin|Hnin].
  - right. apply list_elem_of_fmap in Hin as (s & -> & Hs).
    apply list_elem_of_omap in Hs as (o & Ho & Heq). simpl in Heq.
    subst o. by exists s.
  - left. split; [done|]. intros s Hs ->. apply Hnin.
    apply list_elem_of_fmap. exists s. split; [done|].
    apply list_elem_of_omap. by exists (Some s).
Qed.

End WithBase.

Lemma insert_by_key_perm x l : insert_by_key x l ≡ₚ x :: l.
Proof.
  induction l as [|y l IH]; simpl; [done|].
  destruct (String.leb x.1 y.1); [done|]. by rewrite IH, Permutation_swap.
Qed.

Lemma sort_perm l : foldr insert_by_key [] l ≡ₚ l.
Proof.
  induction l as [|x l IH]; simpl; [done|].
  by rewrite insert_by_key_perm, IH.
Qed.

(** The positions [audit_order] lists are the positions of the records of
    the audit, each once. *)
Lemma positions_spec aid (g : nat -> nat) images :
  (forall i j, g i = g j -> i = j) ->
  let l :=
    (omap (fun '(pos, r) =>
             if bool_decide (r_audit_id r = Some aid)
             then Some (default "999" (r_nr r), pos) else None)
          (imap (fun i r => (g i, r)) images)).*2 in
  NoDup l
  /\ forall p, p ∈ l ->
       exists i r, p = g i /\ images !! i = Some r /\ r_audit_id r = Some aid.
Proof.
  revert g. induction images as [|r images IH]; intros g Hg; simpl.
  { split; [constructor|]. by intros p Hp%elem_of_nil. }
  destruct (IH (fun i => g (S i))) as [Hnd Hin].
  { intros i j Hij. apply Hg in Hij. lia. }
  simpl in Hnd, Hin.
  assert (forall p,
    p ∈ (omap (fun '(pos, r) =>
                 if bool_decide (r_audit_id r = Some aid)
                 then Some (default "999" (r_nr r), pos) else None)
              (imap ((fun i r => (g i, r)) ∘ S) images)).*2 ->
    exists i r0,
      p = g (S i) /\ images !! i = Some r0 /\ r_audit_id r0 = Some aid)
    as Hin' by exact Hin.
  case_bool_decide as Hid; simpl.
  - split.
    + apply NoDup_cons. split; [|exact Hnd].
      intros (i & r0 & Heq & _)%Hin'. apply Hg in Heq. lia.
    + intros p [->|Hp]%elem_of_cons; [by exists O, r|].
      destruct (Hin' p Hp) as (i & r0 & -> & Hr0 & Hid0).
      by exists (S i), r0.
  - split; [exact Hnd|]. intros p Hp.
    destruct (Hin' p Hp) as (i & r0 & -> & Hr0 & Hid0). by exists (S i), r0.
Qed.

Lemma audit_order_spec images aid :
  NoDup (audit_order images aid)
  /\ forall p, p ∈ audit_order images aid ->
       exists r, images !! p = Some r /\ r_audit_id r = Some aid.
Proof.
  destruct (positions_spec aid id images) as [Hnd Hin]; [done|].
  unfold audit_order. split.
  - by rewrite sort_perm.
  - intros p Hp. rewrite sort_perm in Hp.
    destruct (Hin p Hp) as (i & r & -> & Hr & Hid). by exists r.
Qed.

End Renumber.

(** C3: on a disk that refuses no path, for an audit whose records carry
    numbers and link overlays that are pairwise different references of
    the form [overlays/name] with existing files, [reindex_audit_images]
    ends without an error; afterwards the overlays the records link are
    again pairwise different, each resolves to an existing file, every
    position that linked an overlay links one whose file has the content
    the position's file had and no other position links any, and the
    record at the k-th place of the audit carries the number k. Every
    overlay linked afterwards has the name generated for the new number
    of its record, its role and its slot, or that name with the counter
    of the collision loop when another file held the name; it has exactly
    the name generated when no file other than the overlays of the audit
    had one of the new names before. The names the files of the audit
    had before do not matter: a record's new name may be the name
    another record's file has. *)
Theorem reindex_keeps_overlays_apart BASE_DIR index audit_id root d :
  locked d = ∅ ->
  audit_order (ix_images index) audit_id <> [] ->
  numbered (ix_images index) audit_id ->
  links_ok BASE_DIR d
    (audit_links (ix_images index) (audit_order (ix_images index) audit_id)) ->
  exists d' images',
    reindex_audit_images BASE_DIR index audit_id root d
    = (d', Ret (ProjectIndex (ix_project_id index) images',
                (length (audit_order (ix_images index) audit_id), [])))
    /\ links_ok BASE_DIR d'
         (audit_links images' (audit_order (ix_images index) audit_id))
    /\ (forall s,
          Some s ∈ audit_links images' (audit_order (ix_images index) audit_id) ->
          resolve_media_path BASE_DIR d' s root = Some (ref_path BASE_DIR s)
          /\ path_exists d' (ref_path BASE_DIR s) = true)
    /\ Forall2 (same_overlay BASE_DIR d d')
         (audit_links (ix_images index) (audit_order (ix_images index) audit_id))
         (audit_links images' (audit_order (ix_images index) audit_id))
    /\ length images' = length (ix_images index)
    /\ (forall p, p ∉ audit_order (ix_images index) audit_id ->
          images' !! p = ix_images index !! p)
    /\ (forall k p,
          audit_order (ix_images index) audit_id !! k = Some p ->
          r_nr <$> images' !! p = Some (Some (Str.pad3 (S k))))
    /\ (forall k p,
          audit_order (ix_images index) audit_id !! k = Some p ->
          exists r',
            images' !! p = Some r'
            /\ record_named (default "PROJ" (ix_project_id index)) audit_id
                 (Str.pad3 (S k)) r')
    /\ (names_free BASE_DIR (default "PROJ" (ix_project_id index)) audit_id
          d (ix_images index) (audit_order (ix_images index) audit_id) ->
        forall k p,
          audit_order (ix_images index) audit_id !! k = Some p ->
          exists r',
            images' !! p = Some r'
            /\ record_exactly_named (default "PROJ" (ix_project_id index))
                 audit_id (Str.pad3 (S k)) r').
Proof.
  intros Hl Hne _ Hok. unfold reindex_audit_images.
  destruct (Renumber.audit_order_spec (ix_images index) audit_id)
    as [Hnd Hin].
  remember (audit_order (ix_images index) audit_id) as order eqn:Horder.
  destruct order as [|p0 order']; [done|]. cbv beta iota zeta.
  remember (p0 :: order') as order eqn:Horder'. clear Horder Horder' Hne.
  assert (forall k p, order !! k = Some p -> is_Some (ix_images index !! p))
    as Hrecord.
  { intros k p Hk.
    destruct (Hin p) as (r & -> & _); [by eapply list_elem_of_lookup_2|done]. }
  pose proof (Renumber.covered_initially BASE_DIR d
                (audit_links (ix_images index) order)) as Hcov.
  set (foreign := fun x : string =>
         is_Some (files d !! x)
         /\ forall s, Some s ∈ audit_links (ix_images index) order ->
              x <> ref_path BASE_DIR s) in Hcov.
  destruct (Renumber.reindex_pass_spec BASE_DIR foreign
              (default "PROJ" (ix_project_id index)) audit_id root
              (fun i => "_TMP_" +:+ Str.pad3 i) false order O
              (ix_images index) [] d Hnd Hl Hok Hcov)
    as (d1 & images1 & Hrun1 & Hren1 & Hlen1 & Hframe1 & _ & Hnm1 & Hcov1
        & _).
  pose proof Hren1 as (Hl1 & Hok1 & Hsame1).
  destruct (Renumber.reindex_pass_spec BASE_DIR foreign
              (default "PROJ" (ix_project_id index)) audit_id root
              (fun i => Str.pad3 (S i)) true order O images1 [] d1 Hnd Hl1
              Hok1 Hcov1)
    as (d2 & images2 & Hrun2 & Hren2 & Hlen2 & Hframe2 & Hnr2 & Hnm2 & _
        & Hex2).
  pose proof Hren2 as (Hl2 & Hok2 & Hsame2).
  exists d2, images2. split_and!.
  - unfold mbind at 1, M_bind at 1. rewrite Hrun1. cbv beta iota.
    unfold mbind at 1, M_bind at 1. by rewrite Hrun2.
  - exact Hok2.
  - intros s Hs. destruct Hok2 as [_ Hok2].
    destruct (Hok2 s Hs) as (n & -> & Hn & Hsome).
    assert (path_exists d2 (ref_path BASE_DIR ("overlays/" +:+ n)) = true)
      as Hex by (by apply bool_decide_eq_true).
    split; [|done]. by apply Renumber.overlay_ref_resolves.
  - eapply Forall2_trans; [|exact Hsame1|exact Hsame2].
    apply Renumber.same_overlay_trans.
  - by rewrite Hlen2.
  - intros p Hp. by rewrite Hframe2, Hframe1.
  - intros k p Hk. apply (Hnr2 eq_refl k p Hk).
    apply lookup_lt_is_Some. rewrite Hlen1. apply lookup_lt_is_Some.
    destruct (Hin p) as (r & -> & _); [by eapply list_elem_of_lookup_2|done].
  - intros k p Hk. apply (Hnm2 k p Hk).
    apply lookup_lt_is_Some. rewrite Hlen1. apply lookup_lt_is_Some.
    destruct (Hin p) as (r & -> & _); [by eapply list_elem_of_lookup_2|done].
  - intros Hfree k p Hk. apply Hex2; [| | |exact Hk|].
    + intros a. rewrite FinalNames.nr_key_final. apply FinalNames.pad3_digits.
    + intros a b. rewrite !FinalNames.nr_key_final.
      intros Heq%FinalNames.pad3_inj. lia.
    + intros k' ot idx Hk' Hot. split.
      * intros [Hsome Hno].
        by apply (Hno _ (Hfree k' ot idx Hk' Hot Hsome)).
      * intros t Ht.
        apply Renumber.audit_links_elem in Ht
          as (j & q & r & Hj & Hq & Hr).
        destruct (Hnm1 j q Hj (Hrecord j q Hj)) as (r' & Hr' & Hnamed).
        assert (r' = r) as -> by congruence.
        destruct (Renumber.record_named_elem _ _ _ _ _ Hnamed Hr)
          as (ot' & idx' & Hn).
        by eapply FinalNames.final_not_temp.
    + apply lookup_lt_is_Some. rewrite Hlen1. apply lookup_lt_is_Some.
      by eapply Hrecord.
Qed.

Lemma reindex_keeps_overlays_apart_witness :
  exists d' images',
    reindex_audit_images "/srv/app" Sample.swapped_index "A1" None
      Sample.swapped_disk
    = (d', Ret (ProjectIndex (ix_project_id Sample.swapped_index) images',
                (length (audit_order (ix_images Sample.swapped_index) "A1"),
                 [])))
    /\ links_ok "/srv/app" d'
         (audit_links images'
            (audit_order (ix_images Sample.swapped_index) "A1"))
    /\ (forall s,
          Some s ∈ audit_links images'
                     (audit_order (ix_images Sample.swapped_index) "A1") ->
          resolve_media_path "/srv/app" d' s None
          = Some (ref_path "/srv/app" s)
          /\ path_exists d' (ref_path "/srv/app" s) = true)
    /\ Forall2 (same_overlay "/srv/app" Sample.swapped_disk d')
         (audit_links (ix_images Sample.swapped_index)
            (audit_order (ix_images Sample.swapped_index) "A1"))
         (audit_links images'
            (audit_order (ix_images Sample.swapped_index) "A1"))
    /\ length images' = length (ix_images Sample.swapped_index)
    /\ (forall p,
          p ∉ audit_order (ix_images Sample.swapped_index) "A1" ->
          images' !! p = ix_images Sample.swapped_index !! p)
    /\ (forall k p,
          audit_order (ix_images Sample.swapped_index) "A1" !! k = Some p ->
          r_nr <$> images' !! p = Some (Some (Str.pad3 (S k))))
    /\ (forall k p,
          audit_order (ix_images Sample.swapped_index) "A1" !! k = Some p ->
          exists r',
            images' !! p = Some r'
            /\ record_named
                 (default "PROJ" (ix_project_id Sample.swapped_index)) "A1"
                 (Str.pad3 (S k)) r')
    /\ (names_free "/srv/app"
          (default "PROJ" (ix_project_id Sample.swapped_index)) "A1"
          Sample.swapped_disk (ix_images Sample.swapped_index)
          (audit_order (ix_images Sample.swapped_index) "A1") ->
        forall k p,
          audit_order (ix_images Sample.swapped_index) "A1" !! k = Some p ->
          exists r',
            images' !! p = Some r'
            /\ record_exactly_named
                 (default "PROJ" (ix_project_id Sample.swapped_index)) "A1"
                 (Str.pad3 (S k)) r').
Proof.
  apply (reindex_keeps_overlays_apart "/srv/app" Sample.swapped_index "A1"
           None Sample.swapped_disk).
  - reflexivity.
  - vm_compute. discriminate.
  - intros r Hr _. apply list_elem_of_In in Hr. simpl in Hr.
    destruct Hr as [<-|[<-|[]]]; by eexists.
  - split.
    + apply (bool_decide_unpack _). by vm_compute.
    + intros s Hs. vm_compute in Hs.
      apply list_elem_of_In in Hs. simpl in Hs.
      destruct Hs as [Hs|[Hs|[Hs|[Hs|[]]]]]; [|done| |done];
        injection Hs as <-.
      * exists "CANVAS__PRJ_P1__AUD_A1__NR_002__TYPE_FEHLERBILD.png".
        split_and!; [reflexivity|by repeat split|vm_compute; by eexists].
      * exists "CANVAS__PRJ_P1__AUD_A1__NR_001__TYPE_FEHLERBILD.png".
        split_and!; [reflexivity|by repeat split|vm_compute; by eexists].
Defined.

(** In the example the new names are the names of the two overlays of the
    audit and of no other file. *)
Example swapped_names_free :
  names_free "/srv/app" "P1" "A1" Sample.swapped_disk
    (ix_images Sample.swapped_index)
    (audit_order (ix_images Sample.swapped_index) "A1").
Proof.
  intros k ot idx Hk Hot [c Hc].
  unfold Sample.swapped_disk in Hc. simpl files in Hc.
  apply lookup_insert_Some in Hc as [[Heq _]|[_ Hc]].
  - change (ref_path "/srv/app"
              "overlays/CANVAS__PRJ_P1__AUD_A1__NR_002__TYPE_FEHLERBILD.png"
            = ref_path "/srv/app"
                ("overlays/" +:+ generate_canvas_overlay_filename "P1" "A1"
                                   (Str.pad3 (S k)) ot idx)) in Heq.
    apply Renumber.ref_path_inj in Heq. rewrite <- Heq.
    apply list_elem_of_In. vm_compute. tauto.
  - apply lookup_singleton_Some in Hc as [Heq _].
    change (ref_path "/srv/app"
              "overlays/CANVAS__PRJ_P1__AUD_A1__NR_001__TYPE_FEHLERBILD.png"
            = ref_path "/srv/app"
                ("overlays/" +:+ generate_canvas_overlay_filename "P1" "A1"
                                   (Str.pad3 (S k)) ot idx)) in Heq.
    apply Renumber.ref_path_inj in Heq. rewrite <- Heq.
    apply list_elem_of_In. vm_compute. tauto.
Qed.

(** The run of the example: each record ends with the file name the other
    record's file had, and with the content of its own file. *)
Example swapped_run_result :
  exists d' images',
    Sample.swapped_run
    = (d', Ret (ProjectIndex (Some "P1") images', (2%nat, [])))
    /\ (r_overlay <$> images')
       = [Some "overlays/CANVAS__PRJ_P1__AUD_A1__NR_001__TYPE_FEHLERBILD.png";
          Some "overlays/CANVAS__PRJ_P1__AUD_A1__NR_002__TYPE_FEHLERBILD.png"]
    /\ files d'
         !! "/srv/app/GlobalMedia/overlays/CANVAS__PRJ_P1__AUD_A1__NR_001__TYPE_FEHLERBILD.png"
       = Some (Raw [Byte.x01])
    /\ files d'
         !! "/srv/app/GlobalMedia/overlays/CANVAS__PRJ_P1__AUD_A1__NR_002__TYPE_FEHLERBILD.png"
       = Some (Raw [Byte.x02]).
Proof.
  eexists _, _. split; [vm_compute; reflexivity|].
  vm_compute. split_and!; reflexivity.
Qed.

(** ** Saving an overlay *)

Module Saving.

Section WithStore.

Context `{Libs} (BASE_DIR : string).

(** [save_overlay_for_record] changes at most the file of the name it
    generates: it writes that file, and it removes none. *)
Lemma save_overlay_touches_one_path rec overlay_rgba root overlay_type d p :
  p <> get_overlay_path BASE_DIR
         (generate_canvas_overlay_filename (OsPath.basename root)
            (default "AUDIT" (r_audit_id rec)) (default "000" (r_nr rec))
            overlay_type None) ->
  files (save_overlay_for_record BASE_DIR rec overlay_rgba root overlay_type
           d).1 !! p
  = files d !! p.
Proof.
  intros Hp. unfold save_overlay_for_record, save_canvas_overlay, write_file.
  m_unfold. destruct (bool_decide _); [done|]. simpl.
  by rewrite lookup_insert_ne.
Qed.

(** Two saves in a row for a record write the same file: the second
    replaces what the first wrote. *)
Lemma save_overlay_twice_same_path rec im1 im2 root overlay_type d d1 rec1 ref1 :
  overlay_type = OVERLAY_FEHLERBILD \/ overlay_type = OVERLAY_NACHARBEIT ->
  save_overlay_for_record BASE_DIR rec im1 root overlay_type d
  = (d1, Ret (rec1, ref1)) ->
  exists d2 rec2,
    save_overlay_for_record BASE_DIR rec1 im2 root overlay_type d1
    = (d2, Ret (rec2, ref1))
    /\ forall p, is_Some (files d2 !! p) <-> is_Some (files d1 !! p).
Proof.
  intros Hot. unfold save_overlay_for_record, save_canvas_overlay, write_file.
  m_unfold. destruct (bool_decide _) eqn:Hlock; [done|].
  intros [= <- <- <-]. simpl locked. simpl files.
  assert (forall v,
            r_audit_id (if (overlay_type =? OVERLAY_FEHLERBILD)%string
                        then set_main_overlay v rec
                        else if (overlay_type =? OVERLAY_NACHARBEIT)%string
                             then set_after_overlay v rec else rec)
            = r_audit_id rec
            /\ r_nr (if (overlay_type =? OVERLAY_FEHLERBILD)%string
                     then set_main_overlay v rec
                     else if (overlay_type =? OVERLAY_NACHARBEIT)%string
                          then set_after_overlay v rec else rec)
               = r_nr rec) as Hsame.
  { intros v. by destruct Hot as [-> | ->]. }
  destruct (Hsame (Some ("overlays/" +:+
              generate_canvas_overlay_filename (OsPath.basename root)
                (default "AUDIT" (r_audit_id rec)) (default "000" (r_nr rec))
                overlay_type None))) as [-> ->].
  rewrite Hlock. eexists _, _. split; [done|].
  intros p. simpl. rewrite !lookup_insert. by repeat case_decide.
Qed.

End WithStore.

End Saving.

(** C5 on the code: the main overlay of a record whose linked overlay file
    has another name than the one the save generates is saved again. The
    record links the new file, and the file it linked before is still in
    the overlay directory: [save_overlay_for_record] has no step that
    removes the overlay linked before. *)
Lemma save_overlay_leaves_previous_file :
  exists d' rec',
    Sample.resave_run
    = (d', Ret (rec', "overlays/CANVAS__PRJ_P1__AUD_A1__NR_001__TYPE_FEHLERBILD.png"))
    /\ r_overlay rec'
       = Some "overlays/CANVAS__PRJ_P1__AUD_A1__NR_001__TYPE_FEHLERBILD.png"
    /\ r_overlay Sample.suffixed_record
       = Some "overlays/CANVAS__PRJ_P1__AUD_A1__NR_001__TYPE_FEHLERBILD_1.png"
    /\ files d'
         !! "/srv/app/GlobalMedia/overlays/CANVAS__PRJ_P1__AUD_A1__NR_001__TYPE_FEHLERBILD.png"
       = Some (Raw (im_png (Libs := Sample.libs)
                      (Sample.Img 1 1 "RGBA" [Byte.x07])))
    /\ files d'
         !! "/srv/app/GlobalMedia/overlays/CANVAS__PRJ_P1__AUD_A1__NR_001__TYPE_FEHLERBILD_1.png"
       = Some (Raw [Byte.x01]).
Proof.
  eexists _, _. split; [vm_compute; reflexivity|].
  vm_compute. split_and!; reflexivity.
Qed.

(** * Further properties *)

(** ** File names *)

Module NameFacts.

Import StrFacts.

Lemma all_chars_app f s t :
  all_chars f (s +:+ t) = all_chars f s && all_chars f t.
Proof.
  induction s as [|c s IH]; [done|].
  rewrite app_cons. simpl. by rewrite IH, andb_assoc.
Qed.

Lemma translate_all_chars s :
  all_chars (fun c => negb (bad_char c)) (Str.translate_to bad_char "_" s) = true.
Proof.
  induction s as [|c s IH]; [done|].
  change (Str.translate_to bad_char "_" (String c s))
    with (String (if bad_char c then "_"%char else c)
            (Str.translate_to bad_char "_" s)).
  change (all_chars ?f (String ?x ?t)) with (f x && all_chars f t).
  rewrite IH, andb_true_r. by destruct (bad_char c) eqn:Hbad; [|rewrite Hbad].
Qed.

Lemma replace_dunder_all_chars f s :
  f "_"%char = true ->
  all_chars f s = true -> all_chars f (Str.replace_dunder s) = true.
Proof.
  intros Hu.
  assert (forall n s, (String.length s <= n)%nat ->
            all_chars f s = true -> all_chars f (Str.replace_dunder s) = true)
    as Hind.
  { clear s. induction n as [|n IH]; intros [|c [|c2 s]] Hlen Hs; try done;
      simpl in Hlen; try lia.
    change (Str.replace_dunder (String c (String c2 s)))
      with (if Ascii.eqb c "_" && Ascii.eqb c2 "_"
            then String "_" (Str.replace_dunder s)
            else String c (Str.replace_dunder (String c2 s))).
    simpl in Hs. apply andb_true_iff in Hs as [Hc Hs]. pose proof Hs as Hs'.
    apply andb_true_iff in Hs' as [Hc2 Hs'].
    destruct (Ascii.eqb c "_" && Ascii.eqb c2 "_").
    - change (all_chars f (String "_" (Str.replace_dunder s)))
        with (f "_"%char && all_chars f (Str.replace_dunder s)).
      rewrite Hu, IH; [done|lia|done].
    - change (all_chars f (String c (Str.replace_dunder (String c2 s))))
        with (f c && all_chars f (Str.replace_dunder (String c2 s))).
      rewrite Hc, IH; [done|simpl; lia|by simpl; rewrite Hc2]. }
  by apply (Hind (String.length s)).
Qed.

Lemma collapse_dunder_all_chars f fuel s :
  f "_"%char = true ->
  all_chars f s = true -> all_chars f (collapse_dunder fuel s) = true.
Proof.
  intros Hu. revert s. induction fuel as [|fuel IH]; intros s Hs; [done|].
  simpl. destruct (Str.contains s "__"); [|done].
  by apply IH, replace_dunder_all_chars.
Qed.

(** What [lstrip] returns is the end of its argument, what [rstrip]
    returns is the start. *)
Lemma lstrip_suffix f s : exists pre, s = pre +:+ Str.lstrip f s.
Proof.
  induction s as [|c s [pre IH]]; [by exists EmptyString|].
  simpl. destruct (f c).
  - exists (String c pre). by rewrite app_cons, <- IH.
  - by exists EmptyString.
Qed.

Lemma rstrip_prefix f s : exists post, s = Str.rstrip f s +:+ post.
Proof.
  induction s as [|c s [post IH]]; [by exists EmptyString|].
  simpl. destruct (Str.rstrip f s) as [|c' t] eqn:Ht.
  - destruct (f c).
    + by exists (String c s).
    + exists post. rewrite app_cons. by rewrite app_nil_l in IH; subst.
  - exists post. by rewrite app_cons, <- IH.
Qed.

Lemma all_chars_strip f g s :
  all_chars f s = true -> all_chars f (Str.strip g s) = true.
Proof.
  intros Hs. unfold Str.strip.
  destruct (lstrip_suffix g s) as [pre Hpre].
  destruct (rstrip_prefix g (Str.lstrip g s)) as [post Hpost].
  rewrite Hpre, Hpost, !all_chars_app in Hs.
  by apply andb_true_iff in Hs as [_ [? _]%andb_true_iff].
Qed.

Lemma contains_strip g s n :
  Str.contains s n = false -> Str.contains (Str.strip g s) n = false.
Proof.
  intros Hs. unfold Str.strip.
  destruct (lstrip_suffix g s) as [pre Hpre].
  destruct (rstrip_prefix g (Str.lstrip g s)) as [post Hpost].
  destruct (Str.contains (Str.rstrip g (Str.lstrip g s)) n) eqn:Hc; [|done].
  apply contains_spec in Hc as (a & b & Hab).
  assert (Str.contains s n = true) as Hs'; [|congruence].
  apply contains_spec. exists (pre +:+ a), (b +:+ post).
  rewrite Hpre, Hpost, Hab. by rewrite !app_assoc.
Qed.

Lemma lstrip_head f s c t : Str.lstrip f s = String c t -> f c = false.
Proof.
  induction s as [|x s IH]; [done|]. simpl.
  destruct (f x) eqn:Hx; [done|]. by intros [= <- <-].
Qed.

Lemma rstrip_head f s c t :
  Str.rstrip f s = String c t -> exists t', s = String c t'.
Proof.
  destruct s as [|x s]; [done|]. simpl.
  destruct (Str.rstrip f s); [destruct (f x)|]; intros [= <- <-]; eauto.
Qed.

Lemma rstrip_last f s a c :
  Str.rstrip f s = a +:+ String c EmptyString -> f c = false.
Proof.
  revert a. induction s as [|x s IH]; intros a.
  - simpl. by destruct a.
  - simpl. destruct (Str.rstrip f s) as [|y t] eqn:Ht.
    + destruct (f x) eqn:Hx; [by destruct a|].
      destruct a as [|a0 a]; [by intros [= <-]|].
      rewrite app_cons. intros [= _ Ha]. by destruct a.
    + destruct a as [|a0 a].
      * rewrite app_nil_l. done.
      * rewrite app_cons. intros [= _ Ha]. by apply (IH a).
Qed.

Lemma sanitize_all_chars s :
  all_chars (fun c => negb (bad_char c)) (sanitize_filename s) = true.
Proof.
  unfold sanitize_filename.
  apply all_chars_strip, collapse_dunder_all_chars;
    [done|apply translate_all_chars].
Qed.

End NameFacts.

(** X1: what [sanitize_filename] returns holds none of the characters it
    replaces (less-than, greater-than, colon, double quote, slash,
    backslash, the letter n, question mark, asterisk), holds no two
    underscores in a row, and neither starts nor ends with an underscore. *)
Theorem sanitize_filename_is_clean s :
  all_chars (fun c => negb (bad_char c)) (sanitize_filename s) = true
  /\ Str.contains (sanitize_filename s) "__" = false
  /\ Str.startswith (sanitize_filename s) "_" = false
  /\ Str.endswith (sanitize_filename s) "_" = false.
Proof.
  split_and!; [apply NameFacts.sanitize_all_chars|unfold sanitize_filename..].
  - apply NameFacts.contains_strip, Names.collapse_dunder_done. lia.
  - unfold Str.strip.
    destruct (Str.rstrip is_underscore _) as [|c t] eqn:Hr; [done|].
    apply NameFacts.rstrip_head in Hr as [t' Hl].
    apply NameFacts.lstrip_head in Hl.
    change (Str.startswith (String c t) "_")
      with (if Ascii.eqb "_" c then true else false).
    unfold is_underscore in Hl. by rewrite Ascii.eqb_sym, Hl.
  - destruct (Str.endswith _ "_") eqn:He; [|done].
    apply StrFacts.endswith_spec in He as [a Ha].
    by apply NameFacts.rstrip_last in Ha.
Qed.

Module CharFacts.

Import StrFacts.

Lemma contains_char_cons c x s :
  Str.contains (String x s) (String c EmptyString)
  = Ascii.eqb c x || Str.contains s (String c EmptyString).
Proof.
  change (Str.contains (String x s) (String c EmptyString))
    with ((if Ascii.eqb c x then true else false)
          || Str.contains s (String c EmptyString)).
  by destruct (Ascii.eqb c x).
Qed.

Lemma contains_char_app c s t :
  Str.contains (s +:+ t) (String c EmptyString)
  = Str.contains s (String c EmptyString)
    || Str.contains t (String c EmptyString).
Proof.
  induction s as [|x s IH]; [done|].
  by rewrite app_cons, !contains_char_cons, IH, orb_assoc.
Qed.

(** A string whose characters all pass a test holds no character that
    fails it. *)
Lemma all_chars_lacks f s c :
  all_chars f s = true -> f c = false ->
  Str.contains s (String c EmptyString) = false.
Proof.
  intros Hs Hc. induction s as [|x s IH]; [done|].
  simpl in Hs. apply andb_true_iff in Hs as [Hx Hs].
  rewrite contains_char_cons, IH, orb_false_r by done.
  apply Ascii.eqb_neq. congruence.
Qed.

(** A string that lacks a character holds no text with the character. *)
Lemma contains_lacking h needle c :
  Str.contains h (String c EmptyString) = false ->
  Str.contains needle (String c EmptyString) = true ->
  Str.contains h needle = false.
Proof.
  intros Hh Hn. destruct (Str.contains h needle) eqn:Hc; [|done].
  apply contains_spec in Hc as (a & b & ->).
  by rewrite !contains_char_app, Hn, orb_true_r in Hh.
Qed.

Lemma startswith_lacking h p c :
  Str.contains h (String c EmptyString) = false ->
  Str.contains p (String c EmptyString) = true ->
  Str.startswith h p = false.
Proof.
  intros Hh Hp. destruct (Str.startswith h p) eqn:Hs; [|done].
  apply startswith_spec in Hs as [t ->].
  by rewrite contains_char_app, Hp in Hh.
Qed.


Lemma pretty_N_go_chars f x s :
  (forall d, f (pretty_N_char d) = true) ->
  all_chars f s = true -> all_chars f (pretty_N_go x s) = true.
Proof.
  intros Hd. revert s. induction (N.lt_wf_0 x) as [x _ IH]; intros s Hs.
  destruct (decide (x = 0)%N) as [->|Hx]; [by rewrite pretty_N_go_0|].
  rewrite pretty_N_go_step by lia. apply IH.
  - apply N.div_lt; lia.
  - simpl. by rewrite Hd, Hs.
Qed.

Lemma pretty_Z_chars f (z : Z) :
  f "0"%char = true -> f "-"%char = true ->
  (forall d, f (pretty_N_char d) = true) ->
  all_chars f (pretty z) = true.
Proof.
  intros H0 Hm Hd.
  assert (forall x : N, all_chars f (pretty x) = true) as HN.
  { intros x. unfold pretty, pretty_N. destruct (decide (x = 0)%N).
    - simpl. by rewrite H0.
    - by apply pretty_N_go_chars. }
  destruct z as [|p|p]; [by simpl; rewrite H0|apply HN|].
  unfold pretty, pretty_Z. rewrite NameFacts.all_chars_app. simpl.
  rewrite Hm. apply (HN (N.pos p)).
Qed.

Lemma pretty_Z_lacks (z : Z) c :
  c <> "0"%char -> c <> "-"%char ->
  (forall d, pretty_N_char d <> c) ->
  Str.contains (pretty z) (String c EmptyString) = false.
Proof.
  intros H0 Hm Hd.
  apply (all_chars_lacks (fun x => negb (Ascii.eqb x c))).
  - apply pretty_Z_chars.
    + by apply negb_true_iff, Ascii.eqb_neq.
    + by apply negb_true_iff, Ascii.eqb_neq.
    + intros d. by apply negb_true_iff, Ascii.eqb_neq.
  - by rewrite Ascii.eqb_refl.
Qed.

Lemma sanitize_lacks s c :
  bad_char c = true ->
  Str.contains (sanitize_filename s) (String c EmptyString) = false.
Proof.
  intros Hc.
  apply (all_chars_lacks _ _ _ (NameFacts.sanitize_all_chars s)).
  by rewrite Hc.
Qed.

(** For a reference without a slash and without a backslash the test of a
    kind comes down to the file-name prefix. *)
Lemma lacks_kind prefix dir ref :
  Str.contains ref "/" = false -> Str.contains ref bs = false ->
  ref_has_kind prefix dir ref = Str.startswith ref prefix.
Proof.
  intros Hsep Hbs. unfold ref_has_kind.
  rewrite (startswith_lacking ref (dir +:+ "/") "/"%char Hsep).
  2:{ rewrite contains_char_app. apply orb_true_r. }
  rewrite (startswith_lacking ref (dir_bs dir) backslash Hbs).
  2:{ unfold dir_bs. rewrite contains_char_app.
      rewrite contains_char_cons, Ascii.eqb_refl. apply orb_true_r. }
  rewrite (contains_lacking ref ("/" +:+ dir +:+ "/") "/"%char Hsep).
  2:{ rewrite app_cons, contains_char_cons. done. }
  rewrite (contains_lacking ref (bs_dir_bs dir) backslash Hbs).
  2:{ unfold bs_dir_bs. by rewrite contains_char_cons, Ascii.eqb_refl. }
  by rewrite !orb_false_r.
Qed.

(** An overlay file name holds no backslash. *)
Lemma stem_no_backslash project_id audit_id nr overlay_type index :
  Str.contains (canvas_overlay_stem project_id audit_id nr overlay_type index)
    bs = false.
Proof.
  unfold canvas_overlay_stem, bs.
  rewrite !contains_char_app, !sanitize_lacks by done.
  destruct index as [i|]; [|done].
  rewrite contains_char_app, pretty_Z_lacks; [done..|].
  intros d. unfold pretty_N_char. by repeat case_match.
Qed.

End CharFacts.

(** X2: the name [generate_canvas_overlay_filename] builds starts with
    the overlay prefix, ends in [.png] and holds neither a slash nor a
    backslash, whatever the project, the audit, the number and the role
    are; it classifies as an overlay and as no base medium; and two slots
    of a role get the same name only if they are the same slot. *)
Theorem canvas_overlay_filename_shape project_id audit_id nr overlay_type :
  (forall index,
     Str.startswith
       (generate_canvas_overlay_filename project_id audit_id nr overlay_type
          index) "CANVAS__" = true
     /\ Str.endswith
          (generate_canvas_overlay_filename project_id audit_id nr
             overlay_type index) ".png" = true
     /\ Str.contains
          (generate_canvas_overlay_filename project_id audit_id nr
             overlay_type index) "/" = false
     /\ Str.contains
          (generate_canvas_overlay_filename project_id audit_id nr
             overlay_type index) bs = false
     /\ is_overlay_ref
          (generate_canvas_overlay_filename project_id audit_id nr
             overlay_type index) = true
     /\ is_base_image_ref
          (generate_canvas_overlay_filename project_id audit_id nr
             overlay_type index) = false
     /\ is_base_video_ref
          (generate_canvas_overlay_filename project_id audit_id nr
             overlay_type index) = false)
  /\ (forall i j : Z,
        generate_canvas_overlay_filename project_id audit_id nr overlay_type
          (Some i)
        = generate_canvas_overlay_filename project_id audit_id nr
            overlay_type (Some j)
        <-> i = j).
Proof.
  split.
  - intros index.
    set (name := generate_canvas_overlay_filename _ _ _ _ _).
    assert (Str.contains name "/" = false) as Hsep.
    { unfold name, generate_canvas_overlay_filename.
      by rewrite StrFacts.has_sep_app, Names.stem_no_sep. }
    assert (Str.contains name bs = false) as Hbs.
    { unfold name, generate_canvas_overlay_filename.
      pose proof (CharFacts.stem_no_backslash project_id audit_id nr
                    overlay_type index) as Hstem.
      unfold bs in *. by rewrite CharFacts.contains_char_app, Hstem. }
    assert (forall q, (String.length q <= 12)%nat ->
              Str.startswith name q = Str.startswith "CANVAS__PRJ_" q)
      as Hstart.
    { intros q Hq. unfold name, generate_canvas_overlay_filename,
        canvas_overlay_stem.
      rewrite (StrFacts.app_assoc "CANVAS__PRJ_").
      by apply OverlayPaths.startswith_short. }
    assert (Str.endswith name ".png" = true) as Hend.
    { apply StrFacts.endswith_spec. by eexists. }
    clearbody name. split_and!; [|exact Hend|exact Hsep|exact Hbs|..].
    + by rewrite Hstart by (simpl; lia).
    + unfold is_overlay_ref. rewrite CharFacts.lacks_kind by done.
      rewrite Hstart by (simpl; lia).
      destruct name; [discriminate Hend|reflexivity].
    + unfold is_base_image_ref. rewrite CharFacts.lacks_kind by done.
      rewrite Hstart by (simpl; lia). by destruct (negb _).
    + unfold is_base_video_ref. rewrite CharFacts.lacks_kind by done.
      rewrite Hstart by (simpl; lia). by destruct (negb _).
  - intros i j. split; [|by intros ->].
    unfold generate_canvas_overlay_filename, canvas_overlay_stem.
    intros Heq. apply StrFacts.app_inj_r in Heq.
    do 8 apply (inj (String.app _)) in Heq.
    apply (inj (String.app _)) in Heq. by apply (inj pretty) in Heq.
Qed.

(** ** Classification of the references the store hands out *)

Module KindFacts.

Import StrFacts CharFacts.

Lemma app_eq_split x u a v :
  x +:+ u = a +:+ v ->
  (exists w, a = x +:+ w /\ u = w +:+ v)
  \/ (exists w, x = a +:+ w /\ v = w +:+ u).
Proof.
  revert a. induction x as [|c x IH]; intros a Heq.
  - left. exists a. by rewrite !app_nil_l in *.
  - destruct a as [|c' a].
    + right. exists (String c x). by rewrite !app_nil_l in *.
    + rewrite !app_cons in Heq. injection Heq as <- Heq.
      destruct (IH a Heq) as [(w & -> & ->)|(w & -> & ->)].
      * left. exists w. by rewrite app_cons.
      * right. exists w. by rewrite app_cons.
Qed.

(** A text with the character [c] in front and once more further on does
    not occur in a string that holds [c] once. *)
Lemma contains_one_sep a n c m r :
  Str.contains a (String c EmptyString) = false ->
  Str.contains n (String c EmptyString) = false ->
  Str.contains (a +:+ String c n) (String c (m +:+ String c r)) = false.
Proof.
  intros Ha Hn.
  destruct (Str.contains _ (String c (m +:+ String c r))) eqn:Hc; [|done].
  apply contains_spec in Hc as (x & y & Heq). exfalso.
  assert (Str.contains (m +:+ String c r +:+ y) (String c EmptyString) = true)
    as Hrest.
  { rewrite !contains_char_app, contains_char_cons, Ascii.eqb_refl.
    apply orb_true_r. }
  rewrite app_cons, app_assoc in Heq. symmetry in Heq.
  destruct (app_eq_split _ _ _ _ Heq) as [(w & Hw & Hu)|(w & Hw & Hu)].
  - destruct w as [|c' w].
    + rewrite app_nil_l in Hu. injection Hu as Hu. congruence.
    + rewrite app_cons in Hu. injection Hu as <- _.
      rewrite Hw, contains_char_app, contains_char_cons, Ascii.eqb_refl in Ha.
      by rewrite orb_true_r in Ha.
  - destruct w as [|c' w].
    + rewrite app_nil_l in Hu. injection Hu as Hu. congruence.
    + rewrite app_cons in Hu. injection Hu as <- Hu.
      rewrite Hu, contains_char_app, contains_char_cons, Ascii.eqb_refl in Hn.
      by rewrite orb_true_r in Hn.
Qed.

(** The directory of a kind in front, then a name without separators: the
    reference holds neither the directory of a kind between two slashes
    nor anything between two backslashes. *)
Lemma dir_ref_inner a n dir :
  Str.contains a "/" = false -> Str.contains a bs = false ->
  Str.contains n "/" = false -> Str.contains n bs = false ->
  Str.contains (a +:+ String "/" n) ("/" +:+ dir +:+ "/") = false
  /\ Str.contains (a +:+ String "/" n) (bs_dir_bs dir) = false.
Proof.
  intros Ha Hab Hn Hnb. split.
  - rewrite app_cons, app_nil_l. by apply contains_one_sep.
  - apply (contains_lacking _ _ backslash).
    + unfold bs in *. rewrite contains_char_app, contains_char_cons.
      by rewrite Hab, Hnb.
    + unfold bs_dir_bs. by rewrite contains_char_cons, Ascii.eqb_refl.
Qed.

End KindFacts.

(** X3: a reference of the form the store hands out, the directory of a
    kind, a slash and a name without slash and backslash, classifies as
    that kind and as no other, and it is a global media reference. *)
Theorem store_reference_has_one_kind n :
  Str.contains n "/" = false -> Str.contains n bs = false ->
  (is_base_image_ref ("base_images/" +:+ n) = true
   /\ is_base_video_ref ("base_images/" +:+ n) = false
   /\ is_overlay_ref ("base_images/" +:+ n) = false
   /\ is_global_media_ref ("base_images/" +:+ n) = true)
  /\ (is_base_image_ref ("base_videos/" +:+ n) = false
      /\ is_base_video_ref ("base_videos/" +:+ n) = true
      /\ is_overlay_ref ("base_videos/" +:+ n) = false
      /\ is_global_media_ref ("base_videos/" +:+ n) = true)
  /\ (is_base_image_ref ("overlays/" +:+ n) = false
      /\ is_base_video_ref ("overlays/" +:+ n) = false
      /\ is_overlay_ref ("overlays/" +:+ n) = true
      /\ is_global_media_ref ("overlays/" +:+ n) = true).
Proof.
  intros Hn Hnb.
  assert (forall a dir,
            Str.contains a "/" = false -> Str.contains a bs = false ->
            forall prefix,
              ref_has_kind prefix dir (a +:+ String "/" n)
              = Str.startswith (a +:+ String "/" n) prefix
                || Str.startswith (a +:+ String "/" n) (dir +:+ "/")
                || Str.startswith (a +:+ String "/" n) (dir_bs dir)) as Hkind.
  { intros a dir Ha Hab prefix. unfold ref_has_kind.
    destruct (KindFacts.dir_ref_inner a n dir Ha Hab Hn Hnb) as [-> ->].
    by rewrite !orb_false_r. }
  unfold is_global_media_ref, is_base_image_ref, is_base_video_ref,
    is_overlay_ref.
  change ("base_images/" +:+ n) with ("base_images" +:+ String "/" n).
  change ("base_videos/" +:+ n) with ("base_videos" +:+ String "/" n).
  change ("overlays/" +:+ n) with ("overlays" +:+ String "/" n).
  rewrite !Hkind by done.
  repeat split; reflexivity.
Qed.

Lemma store_reference_has_one_kind_witness :
  (is_base_image_ref ("base_images/" +:+ "MEDIA_IMG__00aa.jpg") = true
   /\ is_base_video_ref ("base_images/" +:+ "MEDIA_IMG__00aa.jpg") = false
   /\ is_overlay_ref ("base_images/" +:+ "MEDIA_IMG__00aa.jpg") = false
   /\ is_global_media_ref ("base_images/" +:+ "MEDIA_IMG__00aa.jpg") = true)
  /\ (is_base_image_ref ("base_videos/" +:+ "MEDIA_IMG__00aa.jpg") = false
      /\ is_base_video_ref ("base_videos/" +:+ "MEDIA_IMG__00aa.jpg") = true
      /\ is_overlay_ref ("base_videos/" +:+ "MEDIA_IMG__00aa.jpg") = false
      /\ is_global_media_ref ("base_videos/" +:+ "MEDIA_IMG__00aa.jpg") = true)
  /\ (is_base_image_ref ("overlays/" +:+ "MEDIA_IMG__00aa.jpg") = false
      /\ is_base_video_ref ("overlays/" +:+ "MEDIA_IMG__00aa.jpg") = false
      /\ is_overlay_ref ("overlays/" +:+ "MEDIA_IMG__00aa.jpg") = true
      /\ is_global_media_ref ("overlays/" +:+ "MEDIA_IMG__00aa.jpg") = true).
Proof.
  apply (store_reference_has_one_kind "MEDIA_IMG__00aa.jpg"); reflexivity.
Defined.

(** ** From a path to a reference and back *)

Module RefFacts.

Import StrFacts.

Section WithBase.

Context (BASE_DIR : string).

Local Abbreviation ROOT := (MEDIA_ROOT BASE_DIR).

Lemma root_path_truthy t : Str.truthy (ROOT +:+ t) = true.
Proof. pose proof (Paths.root_truthy BASE_DIR). by destruct ROOT. Qed.

(** The reference of a file [fn] of the directory [dir] of the media
    root resolves to the file, if it exists. *)
Lemma dir_ref_resolves d (dir : string) fn root :
  Str.truthy (dir +:+ "/" +:+ fn) = true ->
  OsPath.isabs (dir +:+ "/" +:+ fn) = false ->
  Str.startswith (dir +:+ "/" +:+ fn) "MEDIA_IMG__" = false ->
  Str.startswith (dir +:+ "/" +:+ fn) "MEDIA_VID__" = false ->
  Str.startswith (dir +:+ "/" +:+ fn) "CANVAS__" = false ->
  path_exists d (ROOT +:+ "/" +:+ dir +:+ "/" +:+ fn) = true ->
  resolve_media_path BASE_DIR d (dir +:+ "/" +:+ fn) root
  = Some (ROOT +:+ "/" +:+ dir +:+ "/" +:+ fn).
Proof.
  intros Ht Habs Hi Hv Ho Hex.
  rewrite Pipeline.resolve_relative by done.
  rewrite Paths.join_root by done. by rewrite Hex.
Qed.

End WithBase.

End RefFacts.

(** X4: [media_ref_from_path] returns the reference of the kind for the
    path of a file of that kind's directory, and [resolve_media_path]
    takes the reference back to the path when the file exists: a path of
    the store survives the round trip through its reference. *)
Theorem media_ref_round_trip BASE_DIR d fn root :
  plain fn ->
  (media_ref_from_path (get_base_image_path BASE_DIR fn) "base_image"
   = "base_images/" +:+ fn
   /\ (path_exists d (get_base_image_path BASE_DIR fn) = true ->
       resolve_media_path BASE_DIR d
         (media_ref_from_path (get_base_image_path BASE_DIR fn) "base_image")
         root
       = Some (get_base_image_path BASE_DIR fn)))
  /\ (media_ref_from_path (get_base_video_path BASE_DIR fn) "base_video"
      = "base_videos/" +:+ fn
      /\ (path_exists d (get_base_video_path BASE_DIR fn) = true ->
          resolve_media_path BASE_DIR d
            (media_ref_from_path (get_base_video_path BASE_DIR fn)
               "base_video") root
          = Some (get_base_video_path BASE_DIR fn)))
  /\ (media_ref_from_path (get_overlay_path BASE_DIR fn) "overlay"
      = "overlays/" +:+ fn
      /\ (path_exists d (get_overlay_path BASE_DIR fn) = true ->
          resolve_media_path BASE_DIR d
            (media_ref_from_path (get_overlay_path BASE_DIR fn) "overlay")
            root
          = Some (get_overlay_path BASE_DIR fn))).
Proof.
  intros [Hfn Hsep].
  pose proof (StrFacts.plain_not_abs fn Hsep) as Habs.
  rewrite Paths.base_image_path, Paths.base_video_path, Paths.overlay_path
    by done.
  assert (forall dir : string,
            media_ref_from_path
              (MEDIA_ROOT BASE_DIR +:+ String "/" dir +:+ String "/" fn)
            = fun t =>
                let filename := fn in
                if String.eqb t "base_image" then "base_images/" +:+ filename
                else if String.eqb t "base_video"
                     then "base_videos/" +:+ filename
                     else if String.eqb t "overlay"
                          then "overlays/" +:+ filename else filename) as Hm.
  { intros dir. unfold media_ref_from_path.
    rewrite RefFacts.root_path_truthy.
    rewrite <- (StrFacts.app_assoc (MEDIA_ROOT BASE_DIR) (String "/" dir)).
    by rewrite OverlayPaths.basename_join. }
  change (MEDIA_ROOT BASE_DIR +:+ "/base_images/" +:+ fn)
    with (MEDIA_ROOT BASE_DIR +:+ String "/" "base_images" +:+ String "/" fn).
  change (MEDIA_ROOT BASE_DIR +:+ "/base_videos/" +:+ fn)
    with (MEDIA_ROOT BASE_DIR +:+ String "/" "base_videos" +:+ String "/" fn).
  change (MEDIA_ROOT BASE_DIR +:+ "/overlays/" +:+ fn)
    with (MEDIA_ROOT BASE_DIR +:+ String "/" "overlays" +:+ String "/" fn).
  rewrite !Hm. cbv beta zeta.
  change (String.eqb "base_image" "base_image") with true.
  change (String.eqb "base_video" "base_image") with false.
  change (String.eqb "base_video" "base_video") with true.
  change (String.eqb "overlay" "base_image") with false.
  change (String.eqb "overlay" "base_video") with false.
  change (String.eqb "overlay" "overlay") with true. cbv iota.
  split_and!; try reflexivity; intros Hex.
  - by apply (RefFacts.dir_ref_resolves BASE_DIR d "base_images" fn root).
  - by apply (RefFacts.dir_ref_resolves BASE_DIR d "base_videos" fn root).
  - by apply (RefFacts.dir_ref_resolves BASE_DIR d "overlays" fn root).
Qed.

Lemma media_ref_round_trip_witness :
  resolve_media_path "/srv/app" Examples.one_image
    (media_ref_from_path
       (get_base_image_path "/srv/app" "MEDIA_IMG__00aa.jpg") "base_image")
    None
  = Some (get_base_image_path "/srv/app" "MEDIA_IMG__00aa.jpg").
Proof.
  apply (proj2 (proj1 (media_ref_round_trip "/srv/app" Examples.one_image
                         "MEDIA_IMG__00aa.jpg" None
                         (conj eq_refl eq_refl)))).
  reflexivity.
Defined.

(** ** Saving overlays *)

Module SaveFacts.

Import StrFacts.

Section WithStore.

Context `{Libs} (BASE_DIR : string).

(** What [save_canvas_overlay] does: unless the path is refused, the file
    of the generated name holds the PNG encoding of the overlay in mode
    RGBA, nothing else changes, and the name is returned with its path. *)
Lemma save_canvas_overlay_eq im pid aid nr ot idx d :
  save_canvas_overlay BASE_DIR im pid aid nr ot idx d
  = let name := generate_canvas_overlay_filename pid aid nr ot idx in
    let rgba :=
      if negb (String.eqb (im_mode im) "RGBA") then im_convert "RGBA" im
      else im in
    if bool_decide (get_overlay_path BASE_DIR name ∈ locked d)
    then (d, Raise StorageError)
    else (Disk (<[get_overlay_path BASE_DIR name := Raw (im_png rgba)]>
                  (files d)) (locked d),
          Ret (name, get_overlay_path BASE_DIR name)).
Proof.
  unfold save_canvas_overlay, write_file. m_unfold. cbv zeta.
  by destruct (bool_decide _).
Qed.

(** The reference of a generated overlay name resolves to the path
    [save_canvas_overlay] writes, once the file is there. *)
Lemma overlay_name_resolves pid aid nr ot idx d root :
  path_exists d
    (get_overlay_path BASE_DIR
       (generate_canvas_overlay_filename pid aid nr ot idx)) = true ->
  resolve_media_path BASE_DIR d
    ("overlays/" +:+ generate_canvas_overlay_filename pid aid nr ot idx) root
  = Some (get_overlay_path BASE_DIR
            (generate_canvas_overlay_filename pid aid nr ot idx)).
Proof.
  destruct (Names.stem_head pid aid nr ot idx) as [rest Hrest].
  unfold generate_canvas_overlay_filename. rewrite Hrest.
  rewrite Paths.overlay_path by done. intros Hex.
  by apply (Renumber.overlay_ref_resolves BASE_DIR d _ root).
Qed.

Lemma save_slot_overlay_spec rec lst store idx im root ot d :
  match save_slot_overlay BASE_DIR rec lst store idx im root ot d with
  | (d', Raise e) => e = StorageError /\ d' = d
  | (d', Ret rec') =>
      exists lst',
        slot_saved BASE_DIR rec lst idx im root ot d d' lst'
        /\ rec' = (if (idx <? 0) || (Z.of_nat (length lst) <=? idx) then rec
                   else store lst' rec)
  end.
Proof.
  unfold save_slot_overlay, slot_saved.
  destruct ((idx <? 0) || (Z.of_nat (length lst) <=? idx)) eqn:Hb.
  { by exists lst. }
  apply orb_false_iff in Hb as [Hlo%Z.ltb_ge Hhi%Z.leb_gt].
  destruct (lookup_lt_is_Some_2 lst (Z.to_nat idx) ltac:(lia)) as [e He].
  rewrite He. unfold mbind at 1, M_bind at 1.
  rewrite save_canvas_overlay_eq. cbv zeta.
  destruct (bool_decide _); [done|]. m_unfold.
  eexists. split; [|reflexivity]. split_and!.
  - by rewrite length_insert.
  - rewrite list_lookup_insert_eq by (by eapply lookup_lt_Some). done.
  - intros j Hj. by rewrite list_lookup_insert_ne.
  - intros pr. apply overlay_name_resolves. apply bool_decide_eq_true. simpl.
    by rewrite lookup_insert_eq.
  - simpl. by rewrite lookup_insert_eq.
  - intros p Hp. simpl. by rewrite lookup_insert_ne.
Qed.

End WithStore.

End SaveFacts.

(** X5: [save_overlay_for_record] either raises because the file cannot
    be written, and then nothing has changed, or it returns the reference
    [overlays/name] of the generated name; the reference resolves to the
    file just written, which holds the PNG encoding of the overlay in mode
    RGBA, and no other file has changed. The record links the reference as
    its main overlay for the role FEHLERBILD and as its overlay after
    rework for the role NACHARBEIT; for any other role the file is written
    and the record stays as it was. *)
Theorem save_overlay_for_record_links_written_file `{Libs} BASE_DIR rec
  overlay_rgba root overlay_type d project_root :
  match save_overlay_for_record BASE_DIR rec overlay_rgba root overlay_type d
  with
  | (d', Raise e) => e = StorageError /\ d' = d
  | (d', Ret (rec', ref)) =>
      exists name,
        name = generate_canvas_overlay_filename (OsPath.basename root)
                 (default "AUDIT" (r_audit_id rec)) (default "000" (r_nr rec))
                 overlay_type None
        /\ ref = "overlays/" +:+ name
        /\ resolve_media_path BASE_DIR d' ref project_root
           = Some (get_overlay_path BASE_DIR name)
        /\ files d' !! get_overlay_path BASE_DIR name
           = Some (Raw (im_png
                          (if negb (String.eqb (im_mode overlay_rgba) "RGBA")
                           then im_convert "RGBA" overlay_rgba
                           else overlay_rgba)))
        /\ (forall p, p <> get_overlay_path BASE_DIR name ->
              files d' !! p = files d !! p)
        /\ rec'
           = (if String.eqb overlay_type OVERLAY_FEHLERBILD
              then set_main_overlay (Some ref) rec
              else if String.eqb overlay_type OVERLAY_NACHARBEIT
                   then set_after_overlay (Some ref) rec
                   else rec)
  end.
Proof.
  unfold save_overlay_for_record. unfold mbind at 1, M_bind at 1.
  rewrite SaveFacts.save_canvas_overlay_eq. cbv zeta.
  destruct (bool_decide _); [done|]. m_unfold.
  eexists. split; [reflexivity|]. split; [reflexivity|].
  split_and!.
  - apply SaveFacts.overlay_name_resolves. apply bool_decide_eq_true. simpl.
    by rewrite lookup_insert_eq.
  - simpl. by rewrite lookup_insert_eq.
  - intros p Hp. simpl. by rewrite lookup_insert_ne.
  - done.
Qed.

(** X6: [save_ctx_annotated_index] leaves the record and the disk as they
    are when the index is negative or not below the length of the context
    list. Otherwise it raises only because the file cannot be written,
    changing nothing, or it writes the overlay under the role KONTEXT and
    the slot number index + 1, links its reference in the element at the
    index and changes no other element, no other field and no other file;
    the reference resolves to the file. *)
Theorem save_ctx_annotated_index_slot `{Libs} BASE_DIR rec ctx_index
  annotated_rgba root d :
  match save_ctx_annotated_index BASE_DIR rec ctx_index annotated_rgba root d
  with
  | (d', Raise e) => e = StorageError /\ d' = d
  | (d', Ret rec') =>
      slot_saved BASE_DIR rec (r_ctx_list rec) ctx_index annotated_rgba root
        OVERLAY_KONTEXT d d' (r_ctx_list rec')
      /\ rec' = set_ctx_list (r_ctx_list rec') rec
  end.
Proof.
  unfold save_ctx_annotated_index.
  pose proof (SaveFacts.save_slot_overlay_spec BASE_DIR rec (r_ctx_list rec)
                set_ctx_list ctx_index annotated_rgba root OVERLAY_KONTEXT d)
    as Hspec.
  destruct (save_slot_overlay _ _ _ _ _ _ _ _ _) as [d' [rec'|e]]; [|done].
  destruct Hspec as (lst' & Hslot & ->).
  destruct ((ctx_index <? 0) || _) eqn:Hb.
  - unfold slot_saved in *. rewrite Hb in *. destruct Hslot as [-> ->].
    split; [done|]. by destruct rec.
  - done.
Qed.

(** X7: [save_additional_annotated_index] works on the additional images
    of the defect when the phase, in upper case, is FEHLER, and on those
    after rework for every other phase. It leaves the record and the disk
    as they are when the index is outside the list; otherwise it raises
    only because the file cannot be written, or it writes the overlay under
    the role of the list and the slot number index + 1 and links its
    reference in the element at the index, changing nothing else. *)
Theorem save_additional_annotated_index_slot `{Libs} BASE_DIR rec idx_sel
  annotated_rgba root phase d :
  match
    save_additional_annotated_index BASE_DIR rec idx_sel annotated_rgba root
      phase d
  with
  | (d', Raise e) => e = StorageError /\ d' = d
  | (d', Ret rec') =>
      if String.eqb (upper phase) "FEHLER" then
        slot_saved BASE_DIR rec (r_add_fehler_list rec) idx_sel annotated_rgba
          root OVERLAY_ZUSATZ_FEHLER d d' (r_add_fehler_list rec')
        /\ rec' = set_add_fehler_list (r_add_fehler_list rec') rec
      else
        slot_saved BASE_DIR rec (r_add_after_list rec) idx_sel annotated_rgba
          root OVERLAY_ZUSATZ_NACHARBEIT d d' (r_add_after_list rec')
        /\ rec' = set_add_after_list (r_add_after_list rec') rec
  end.
Proof.
  unfold save_additional_annotated_index.
  destruct (String.eqb (upper phase) "FEHLER").
  - pose proof (SaveFacts.save_slot_overlay_spec BASE_DIR rec
                  (r_add_fehler_list rec) set_add_fehler_list idx_sel
                  annotated_rgba root OVERLAY_ZUSATZ_FEHLER d) as Hspec.
    destruct (save_slot_overlay _ _ _ _ _ _ _ _ _) as [d' [rec'|e]]; [|done].
    destruct Hspec as (lst' & Hslot & ->).
    destruct ((idx_sel <? 0) || _) eqn:Hb; [|done].
    unfold slot_saved in *. rewrite Hb in *. destruct Hslot as [-> ->].
    split; [done|]. by destruct rec.
  - pose proof (SaveFacts.save_slot_overlay_spec BASE_DIR rec
                  (r_add_after_list rec) set_add_after_list idx_sel
                  annotated_rgba root OVERLAY_ZUSATZ_NACHARBEIT d) as Hspec.
    destruct (save_slot_overlay _ _ _ _ _ _ _ _ _) as [d' [rec'|e]]; [|done].
    destruct Hspec as (lst' & Hslot & ->).
    destruct ((idx_sel <? 0) || _) eqn:Hb; [|done].
    unfold slot_saved in *. rewrite Hb in *. destruct Hslot as [-> ->].
    split; [done|]. by destruct rec.
Qed.

(** ** Deleting media *)

(** X8: [delete_global_media] never raises. It returns [True] exactly
    when it has removed the file at the path the reference resolves to,
    and then that file is the only change; it returns [False] and changes
    nothing when the reference is empty or resolves to nothing, or when
    the file cannot be removed. *)
Theorem delete_global_media_outcome BASE_DIR r d :
  exists b d',
    delete_global_media BASE_DIR r d = (d', Ret b)
    /\ locked d' = locked d
    /\ (if b
        then exists p,
               resolve_media_path BASE_DIR d r None = Some p
               /\ is_Some (files d !! p)
               /\ (p ∉ locked d)
               /\ files d' = delete p (files d)
        else d' = d
             /\ (Str.truthy r = false
                 \/ resolve_media_path BASE_DIR d r None = None
                 \/ exists p,
                      resolve_media_path BASE_DIR d r None = Some p
                      /\ (p ∈ locked d))).
Proof.
  unfold delete_global_media, os_remove. m_unfold.
  destruct (Str.truthy r) eqn:Ht; simpl.
  2:{ exists false, d. split_and!; [done..|]. by left. }
  destruct (resolve_media_path BASE_DIR d r None) as [p|] eqn:Hres.
  2:{ exists false, d. split_and!; [done..|]. right. by left. }
  assert (path_exists d p = true) as Hex.
  { rewrite Resolution.resolve_first_candidate in Hres.
    by apply List.find_some in Hres as [_ ?]. }
  rewrite Hex. simpl. case_bool_decide as Hlock; simpl; rewrite Hex; simpl.
  - exists false, d. split_and!; [done..|]. right. right. by exists p.
  - eexists true, _. split; [reflexivity|]. split; [done|].
    exists p. split_and!; [done| |done..].
    by apply bool_decide_eq_true in Hex.
Qed.

(** ** Counting the uses of a reference *)

Module CountFacts.

Lemma uses_cons norm_ref v l :
  uses norm_ref (v :: l)
  = ((if same_ref norm_ref v then 1 else 0) + uses norm_ref l)%nat.
Proof. unfold uses. simpl. by destruct (same_ref norm_ref v). Qed.

(** The loop over fields counts up to the number at which the function
    returns [True]: one when a record is excluded, two otherwise. *)
Lemma fold_count (excluding : bool) norm_ref l c :
  (c < (if excluding then 1 else 2))%nat ->
  fold_left (count_use excluding norm_ref) l (Some c)
  = if ((if excluding then 1 else 2) <=? c + uses norm_ref l)%nat then None
    else Some (c + uses norm_ref l)%nat.
Proof.
  revert c. induction l as [|v l IH]; intros c Hc.
  - unfold uses. simpl. rewrite Nat.add_0_r.
    by rewrite (proj2 (Nat.leb_gt _ _) Hc).
  - rewrite Shared.fold_left_cons, uses_cons. unfold count_use at 2.
    destruct (same_ref norm_ref v); [|by rewrite IH].
    destruct excluding; simpl (_ && _).
    + rewrite Shared.count_use_returned.
      by rewrite (proj2 (Nat.leb_le _ _)) by lia.
    + destruct c as [|c].
      * change (1 <? 1)%nat with false. cbv iota.
        rewrite IH by lia. by replace (0 + (1 + uses norm_ref l))%nat
          with (1 + uses norm_ref l)%nat by lia.
      * assert (c = O) as -> by lia. change (1 <? 2)%nat with true. cbv iota.
        rewrite Shared.count_use_returned.
        by rewrite (proj2 (Nat.leb_le _ _)) by lia.
Qed.

Lemma fold_scan exclude_rec norm_ref (l : list (nat * image_record)) st :
  fold_left (scan_record exclude_rec norm_ref) l st
  = fold_left (count_use (bool_decide (is_Some exclude_rec)) norm_ref)
      (flat_map
         (fun '(i, r) =>
            if bool_decide (exclude_rec = Some i) then [] else record_fields r)
         l) st.
Proof.
  revert st. induction l as [|[i r] l IH]; intros st; [done|].
  rewrite Shared.fold_left_cons, Shared.scan_record_eq. simpl flat_map.
  rewrite fold_left_app, IH. by destruct (bool_decide (exclude_rec = Some i)).
Qed.

End CountFacts.

(** X9: [is_media_shared] counts the fields of the records that hold the
    reference, separators read as slashes, and not the records: without an
    excluded record it returns [True] from the second such field on, with
    an excluded record from the first such field of another record on. It
    returns [False] for the empty reference and for an overlay
    reference. *)
Theorem is_media_shared_counts_fields index media_ref exclude_rec :
  is_media_shared index media_ref exclude_rec
  = Str.truthy media_ref && negb (is_overlay_ref media_ref)
    && ((if bool_decide (is_Some exclude_rec) then 1 else 2)
        <=? uses (Str.replace_char backslash "/" media_ref)
              (considered_fields index exclude_rec))%nat.
Proof.
  unfold is_media_shared.
  destruct (Str.truthy media_ref); [|done].
  destruct (is_overlay_ref media_ref); [done|]. simpl.
  change (fold_left _ (imap pair (ix_images index)) (Some O))
    with (fold_left
            (scan_record exclude_rec (Str.replace_char backslash "/" media_ref))
            (imap pair (ix_images index)) (Some O)).
  rewrite CountFacts.fold_scan. fold (considered_fields index exclude_rec).
  rewrite CountFacts.fold_count by (destruct (bool_decide _); lia).
  simpl. by destruct (_ <=? _)%nat.
Qed.

(** The record [add_image_record] creates holds its image in two fields,
    so that the image counts as shared in an index of one record. *)
Example single_record_counts_twice :
  is_media_shared
    (ProjectIndex (Some "P1")
       [Sample.photo "001" "A1" "base_images/MEDIA_IMG__00aa.jpg"])
    "base_images/MEDIA_IMG__00aa.jpg" None = true.
Proof. reflexivity. Qed.

(** ** The registry *)

Module RegistryFacts.

Section WithStore.

Context `{Libs} (BASE_DIR : string).

(** A loop of [rebuild_media_registry] builds the section a scan builds,
    and counts its entries. *)
Lemma rebuild_fold d exts dir (refdir : string) hash_of l sec :
  (forall data h, hash_of data = Some h -> Str.truthy h = true) ->
  (forall fn, Str.truthy (refdir +:+ "/" +:+ fn) = true) ->
  fold_left (rebuild_entry d exts dir refdir hash_of) l (sec, size sec)
  = (fold_left (scan_entry d exts dir refdir hash_of) l sec,
     size (fold_left (scan_entry d exts dir refdir hash_of) l sec)).
Proof.
  intros Hh Href. revert sec. induction l as [|fn l IH]; intros sec; [done|].
  rewrite !Shared.fold_left_cons.
  assert (rebuild_entry d exts dir refdir hash_of (sec, size sec) fn
          = (scan_entry d exts dir refdir hash_of sec fn,
             size (scan_entry d exts dir refdir hash_of sec fn))) as ->;
    [|apply IH].
  unfold rebuild_entry, scan_entry.
  destruct (negb (ext_in exts fn)); [done|].
  destruct (files d !! OsPath.join dir fn) as [c|]; [|done].
  destruct (hash_of (read_bytes c)) as [h|] eqn:Hhash; [|done].
  rewrite (Hh _ _ Hhash), Href. simpl.
  destruct (bool_decide (is_Some (sec !! h))) eqn:Hin; [done|]. simpl.
  rewrite map_size_insert_None; [done|].
  apply bool_decide_eq_false in Hin. by apply eq_None_not_Some.
Qed.

End WithStore.

End RegistryFacts.

(** X10: on a store whose registry file is absent or holds a registry
    document, [_register_media] raises only when the registry file cannot
    be written, and then nothing has changed. Otherwise the registry read
    back holds the reference under the hash in the section of the media
    type, images for the type image and videos for every other type; the
    other hashes of that section and the other section are as they were,
    and no file but the registry file has changed. *)
Theorem register_media_round_trip `{Libs} BASE_DIR content_hash ref
  media_type d :
  registry_intact BASE_DIR d ->
  match _register_media BASE_DIR content_hash ref media_type d with
  | (d', Raise e) =>
      e = StorageError /\ d' = d /\ MEDIA_REGISTRY_PATH BASE_DIR ∈ locked d
  | (d', Ret _) =>
      section media_type (_load_media_registry BASE_DIR d') !! content_hash
      = Some ref
      /\ (forall k, k <> content_hash ->
            section media_type (_load_media_registry BASE_DIR d') !! k
            = section media_type (_load_media_registry BASE_DIR d) !! k)
      /\ (if String.eqb media_type "image"
          then (_load_media_registry BASE_DIR d').2
               = (_load_media_registry BASE_DIR d).2
          else (_load_media_registry BASE_DIR d').1
               = (_load_media_registry BASE_DIR d).1)
      /\ off_registry BASE_DIR d d'
  end.
Proof.
  intros _. rewrite Pipeline.register_eq, Pipeline.save_registry_eq.
  destruct (bool_decide (MEDIA_REGISTRY_PATH BASE_DIR ∈ locked d)) eqn:Hl.
  { by apply bool_decide_eq_true in Hl. }
  rewrite Pipeline.load_saved, Pipeline.section_set_section. split_and!.
  - by rewrite lookup_insert_eq.
  - intros k Hk. by rewrite lookup_insert_ne.
  - unfold set_section. by destruct (String.eqb media_type "image").
  - apply Pipeline.off_registry_saved.
Qed.

Lemma register_media_round_trip_witness :
  match
    _register_media "/srv/app" "#01" "base_images/MEDIA_IMG__00aa.jpg"
      "image" Examples.one_image
  with
  | (d', Raise e) =>
      e = StorageError /\ d' = Examples.one_image
      /\ MEDIA_REGISTRY_PATH "/srv/app" ∈ locked Examples.one_image
  | (d', Ret _) =>
      section "image" (_load_media_registry "/srv/app" d') !! "#01"
      = Some "base_images/MEDIA_IMG__00aa.jpg"
      /\ (forall k, k <> "#01" ->
            section "image" (_load_media_registry "/srv/app" d') !! k
            = section "image"
                (_load_media_registry "/srv/app" Examples.one_image) !! k)
      /\ (if String.eqb "image" "image"
          then (_load_media_registry "/srv/app" d').2
               = (_load_media_registry "/srv/app" Examples.one_image).2
          else (_load_media_registry "/srv/app" d').1
               = (_load_media_registry "/srv/app" Examples.one_image).1)
      /\ off_registry "/srv/app" Examples.one_image d'
  end.
Proof.
  apply (register_media_round_trip (H := Sample.libs) "/srv/app" "#01"
           "base_images/MEDIA_IMG__00aa.jpg" "image" Examples.one_image).
  vm_compute. exact I.
Defined.

(** X11: [rebuild_media_registry] starts from an empty registry, whatever
    the registry file holds: it saves the sections the two self-healing
    scans build from the files of the base directories, and the two
    numbers it returns are the numbers of entries of the sections. It
    raises only when the registry file cannot be written, and changes no
    other file. *)
Theorem rebuild_media_registry_counts `{Libs} BASE_DIR d :
  rebuild_media_registry BASE_DIR d
  = let reg :=
      _scan_base_videos_and_register BASE_DIR d
        (_scan_base_images_and_register BASE_DIR d (∅, ∅)) in
    if bool_decide (MEDIA_REGISTRY_PATH BASE_DIR ∈ locked d)
    then (d, Raise StorageError)
    else (Disk (<[MEDIA_REGISTRY_PATH BASE_DIR := Json reg.1 reg.2]> (files d))
            (locked d),
          Ret (size reg.1, size reg.2)).
Proof.
  unfold rebuild_media_registry, _scan_base_videos_and_register,
    _scan_base_images_and_register. m_unfold.
  change (@pair (gmap string string) nat ∅ O)
    with (@pair (gmap string string) nat ∅ (size (∅ : gmap string string))).
  rewrite !RegistryFacts.rebuild_fold.
  - rewrite Pipeline.save_registry_eq. cbv zeta. simpl.
    by destruct (bool_decide _).
  - intros data h [= <-]. apply sha256_hex_truthy.
  - done.
  - intros data h. destruct (im_open data); [|done].
    intros [= <-]. apply sha256_hex_truthy.
  - done.
Qed.

(** ** Attaching an existing file *)

Module ExistingFacts.

Section WithStore.

Context `{Libs} (BASE_DIR : string).

(** The self-healing step changes at most the registry file. *)
Lemma reregister_off_registry abs_path canonical_ref media_type d d' out :
  reregister BASE_DIR abs_path canonical_ref media_type d = (d', out) ->
  off_registry BASE_DIR d d'.
Proof.
  unfold reregister. m_unfold.
  assert (forall h mt d' out,
            _register_media BASE_DIR h canonical_ref mt d = (d', out) ->
            off_registry BASE_DIR d d') as Hreg.
  { intros h mt d1 out1. rewrite Pipeline.register_eq, Pipeline.save_registry_eq.
    destruct (bool_decide _); intros [= <- <-];
      [apply Pipeline.off_registry_refl|apply Pipeline.off_registry_saved]. }
  destruct (files d !! abs_path) as [c|];
    [|intros [= <- <-]; apply Pipeline.off_registry_refl].
  destruct (String.eqb media_type "video").
  - destruct (Str.truthy _); [apply Hreg|].
    intros [= <- <-]. apply Pipeline.off_registry_refl.
  - destruct (im_open (read_bytes c)) as [im|];
      [|intros [= <- <-]; apply Pipeline.off_registry_refl].
    destruct (Str.truthy _); [apply Hreg|].
    intros [= <- <-]. apply Pipeline.off_registry_refl.
Qed.

End WithStore.

End ExistingFacts.

(** X12: [attach_media] with an existing reference never raises and
    never writes or copies a media file: at most the registry file
    changes. It returns [None], and changes nothing, exactly when the
    reference does not resolve; otherwise it returns a base-media
    reference as it is, backslashes written as slashes, and for any other
    reference the base directory of the media type followed by the file
    name of the resolved path. *)
Theorem attach_existing_ref_writes_no_media `{Libs} BASE_DIR uid uploaded_file
  uploaded_bytes uploaded_filename pil_image existing_ref media_type d :
  Str.truthy existing_ref = true ->
  exists d' o,
    attach_media BASE_DIR uid uploaded_file uploaded_bytes uploaded_filename
      pil_image (Some existing_ref) media_type d = (d', Ret o)
    /\ off_registry BASE_DIR d d'
    /\ match resolve_media_path BASE_DIR d existing_ref None with
       | None => o = None /\ d' = d
       | Some abs_path =>
           o = Some
                 (if is_base_image_ref existing_ref
                     || is_base_video_ref existing_ref
                  then Str.replace_char backslash "/" existing_ref
                  else (if String.eqb media_type "video" then "base_videos/"
                        else "base_images/") +:+ OsPath.basename abs_path)
       end.
Proof.
  intros Ht. unfold attach_media. rewrite Ht. m_unfold.
  destruct (resolve_media_path BASE_DIR d existing_ref None) as [p|] eqn:Hres.
  2:{ exists d, None. split; [done|].
      split; [apply Pipeline.off_registry_refl|done]. }
  assert (path_exists d p = true) as ->.
  { rewrite Resolution.resolve_first_candidate in Hres.
    by apply List.find_some in Hres as [_ ?]. }
  m_unfold.
  destruct (reregister BASE_DIR p _ media_type d) as [d1 out1] eqn:Hre.
  apply ExistingFacts.reregister_off_registry in Hre.
  exists d1. eexists. by destruct out1.
Qed.

Lemma attach_existing_ref_writes_no_media_witness :
  exists d' o,
    attach_media (H := Sample.libs) "/srv/app" "00bb" None None None None
      (Some "base_images/MEDIA_IMG__00aa.jpg") "image" Examples.one_image
    = (d', Ret o)
    /\ off_registry "/srv/app" Examples.one_image d'
    /\ match
         resolve_media_path "/srv/app" Examples.one_image
           "base_images/MEDIA_IMG__00aa.jpg" None
       with
       | None => o = None /\ d' = Examples.one_image
       | Some abs_path =>
           o = Some
                 (if is_base_image_ref "base_images/MEDIA_IMG__00aa.jpg"
                     || is_base_video_ref "base_images/MEDIA_IMG__00aa.jpg"
                  then Str.replace_char backslash "/"
                         "base_images/MEDIA_IMG__00aa.jpg"
                  else (if String.eqb "image" "video" then "base_videos/"
                        else "base_images/") +:+ OsPath.basename abs_path)
       end.
Proof.
  apply (attach_existing_ref_writes_no_media (H := Sample.libs) "/srv/app"
           "00bb" None None None None "base_images/MEDIA_IMG__00aa.jpg"
           "image" Examples.one_image).
  reflexivity.
Defined.

(** ** Migration *)

Module MigrateFacts.

Lemma migrated_field_settled legacy new :
  migrates legacy (migrated_field legacy new) = false.
Proof.
  unfold migrated_field, migrates.
  destruct (field_truthy legacy) eqn:Hl, (field_truthy new) eqn:Hn; simpl;
    by rewrite ?Hl, ?Hn.
Qed.

Lemma migrated_field_idem legacy new :
  migrated_field legacy (migrated_field legacy new) = migrated_field legacy new.
Proof.
  unfold migrated_field at 1. by rewrite migrated_field_settled.
Qed.

Lemma migrate_entry_idem e : migrate_entry (migrate_entry e) = migrate_entry e.
Proof. unfold migrate_entry. simpl. by rewrite !migrated_field_idem. Qed.

Lemma migrate_entries_idem (l : list entry) :
  migrate_entry <$> (migrate_entry <$> l) = migrate_entry <$> l.
Proof.
  rewrite <- list_fmap_compose. apply list_fmap_ext.
  intros i e _. apply migrate_entry_idem.
Qed.

Lemma migrate_record_idem r :
  migrate_record (migrate_record r).1 = ((migrate_record r).1, O).
Proof.
  unfold migrate_record. simpl.
  by rewrite !migrated_field_idem, !migrated_field_settled,
    !migrate_entries_idem.
Qed.

Lemma migrated_field_keeps legacy new :
  field_truthy new = true -> migrated_field legacy new = new.
Proof.
  intros Hn. unfold migrated_field, migrates. rewrite Hn.
  by rewrite andb_false_r.
Qed.

End MigrateFacts.

(** X13: [migrate_to_layered_architecture] is idempotent: run on the
    index it has left, it changes nothing and reports no migrated image.
    It never changes a field of the layered format that is set, nor a
    legacy field, and the number it reports is at most two for every
    record. *)
Theorem migration_is_idempotent index :
  migrate_to_layered_architecture (migrate_to_layered_architecture index).1
  = ((migrate_to_layered_architecture index).1, (O, []))
  /\ ((migrate_to_layered_architecture index).2.1
      <= 2 * length (ix_images index))%nat
  /\ Forall2
       (fun r r' =>
          r_raw r' = r_raw r /\ r_edited r' = r_edited r
          /\ r_after_raw r' = r_after_raw r
          /\ r_after_edited r' = r_after_edited r
          /\ r_videos r' = r_videos r /\ r_nr r' = r_nr r
          /\ r_audit_id r' = r_audit_id r
          /\ (field_truthy (r_base_image r) = true ->
              r_base_image r' = r_base_image r)
          /\ (field_truthy (r_overlay r) = true -> r_overlay r' = r_overlay r)
          /\ (field_truthy (r_after_base r) = true ->
              r_after_base r' = r_after_base r)
          /\ (field_truthy (r_after_overlay r) = true ->
              r_after_overlay r' = r_after_overlay r)
          /\ (field_truthy (r_raw r) = true ->
              field_truthy (r_base_image r') = true))
       (ix_images index) (ix_images (migrate_to_layered_architecture index).1).
Proof.
  unfold migrate_to_layered_architecture. simpl. split_and!.
  - f_equal.
    + f_equal. rewrite <- !list_fmap_compose. apply list_fmap_ext.
      intros i r _. unfold compose.
      by rewrite MigrateFacts.migrate_record_idem.
    + f_equal. induction (ix_images index) as [|r l IH]; [done|].
      rewrite !fmap_cons. simpl foldr.
      by rewrite !MigrateFacts.migrated_field_settled, IH.
  - induction (ix_images index) as [|r l IH]; [done|].
    rewrite !fmap_cons. simpl.
    destruct (migrates (r_raw r) (r_base_image r)),
      (migrates (r_after_raw r) (r_after_base r)); simpl; lia.
  - rewrite <- list_fmap_compose.
    apply Forall2_fmap_r, Forall_Forall2_diag, Forall_forall. intros r _.
    simpl. split_and!; try done;
      try (intros Hset; by apply MigrateFacts.migrated_field_keeps).
    intros Hraw. unfold migrated_field, migrates. rewrite Hraw. simpl.
    by destruct (field_truthy (r_base_image r)) eqn:Hb.
Qed.

(** ** Renumbering on any index and any disk *)

Module ReindexFacts.

Lemma rearranged_refl d : rearranged d d.
Proof. split_and!; [done..|]. intros p c Hp. by exists p. Qed.

Lemma rearranged_trans d1 d2 d3 :
  rearranged d1 d2 -> rearranged d2 d3 -> rearranged d1 d3.
Proof.
  intros (Hl1 & Hs1 & Hc1) (Hl2 & Hs2 & Hc2). split_and!; [congruence..|].
  intros p c Hp. destruct (Hc1 p c Hp) as [p' Hp']. by apply (Hc2 p').
Qed.

(** Moving a file to a path that does not exist rearranges the disk. *)
Lemma rearranged_move d src dst c :
  files d !! src = Some c -> files d !! dst = None ->
  rearranged d (Disk (<[dst := c]> (delete src (files d))) (locked d)).
Proof.
  intros Hsrc Hdst. split_and!; [done| |].
  - simpl. rewrite map_size_insert_None.
    + rewrite map_size_delete, Hsrc.
      assert (size (files d) <> 0)%nat; [|simpl; lia].
      apply map_size_non_empty_iff. intros Hemp.
      by rewrite Hemp, lookup_empty in Hsrc.
    + by rewrite lookup_delete_ne by congruence.
  - intros p c' Hp. simpl. destruct (decide (p = src)) as [->|Hne].
    + exists dst. rewrite lookup_insert_eq. congruence.
    + exists p. rewrite lookup_insert_ne by congruence.
      by rewrite lookup_delete_ne.
Qed.

Lemma entry_base_kept_refl e : entry_base_kept e e.
Proof. done. Qed.

Lemma entries_kept_refl (l : list entry) : Forall2 entry_base_kept l l.
Proof. by apply Forall_Forall2_diag, Forall_forall. Qed.

Lemma record_base_kept_refl r : record_base_kept r r.
Proof. split_and!; try done; apply entries_kept_refl. Qed.

Lemma entries_kept_trans (l1 l2 l3 : list entry) :
  Forall2 entry_base_kept l1 l2 -> Forall2 entry_base_kept l2 l3 ->
  Forall2 entry_base_kept l1 l3.
Proof.
  apply Forall2_trans. intros e1 e2 e3 [? ?] [? ?]. split; congruence.
Qed.

Lemma record_base_kept_trans r1 r2 r3 :
  record_base_kept r1 r2 -> record_base_kept r2 r3 -> record_base_kept r1 r3.
Proof.
  intros (?&?&?&?&?&?&?&?&?) (?&?&?&?&?&?&?&?&?).
  split_and!; try congruence; by eapply entries_kept_trans.
Qed.

Section WithBase.

Context (BASE_DIR : string).

(** [rename_overlay] never raises, and it rearranges the disk. *)
Lemma rename_overlay_total pid aid root s nr ot idx d :
  exists d' o errs,
    rename_overlay BASE_DIR pid aid root s nr ot idx d = (d', Ret (o, errs))
    /\ rearranged d d'.
Proof.
  unfold rename_overlay.
  destruct (negb (Str.truthy s));
    [by eexists _, _, _; split; [|apply rearranged_refl]|].
  destruct (negb (is_overlay_ref s));
    [by eexists _, _, _; split; [|apply rearranged_refl]|].
  m_unfold.
  destruct (resolve_media_path BASE_DIR d s root) as [old_abs|];
    [|by eexists _, _, _; split; [|apply rearranged_refl]].
  destruct (path_exists d old_abs) eqn:Hex; m_unfold;
    [|by eexists _, _, _; split; [|apply rearranged_refl]].
  destruct (String.eqb _ _);
    [by eexists _, _, _; split; [|apply rearranged_refl]|].
  set (new_abs := get_overlay_path BASE_DIR _).
  assert (exists dst name,
            (if path_exists d new_abs
             then
               let '(base, ext) := OsPath.splitext new_abs in
               (free_path (size (files d)) d base ext 1,
                OsPath.basename (free_path (size (files d)) d base ext 1))
             else (new_abs,
                   generate_canvas_overlay_filename pid aid nr ot idx))
            = (dst, name)
            /\ path_exists d dst = false) as (dst & name & -> & Hfree).
  { destruct (path_exists d new_abs) eqn:Hnew; [|by eauto].
    destruct (OsPath.splitext new_abs) as [base ext].
    destruct (Renumber.free_path_spec d base ext) as (k & -> & Hk). eauto. }
  apply bool_decide_eq_true in Hex as [c Hc].
  apply bool_decide_eq_false in Hfree.
  unfold shutil_move. rewrite Hc.
  destruct (bool_decide (old_abs ∈ locked d) || bool_decide (dst ∈ locked d)).
  - eexists _, _, _. split; [reflexivity|apply rearranged_refl].
  - eexists _, _, _. split; [reflexivity|].
    apply rearranged_move; [done|]. by apply eq_None_not_Some.
Qed.

(** The step both passes run on a position never raises. *)
Lemma slot_total {X} (set : option string -> X -> X) (x : X) a b
    pid aid root nr ot idx d :
  exists d' x' errs,
    match field_or a b with
    | Some overlay_ref =>
        if Str.truthy overlay_ref then
          '(new_ref, errs) ←
            rename_overlay BASE_DIR pid aid root overlay_ref nr ot idx;
          mret (set new_ref x, errs)
        else mret (x, [])
    | None => mret (x, [])
    end d = (d', Ret (x', errs))
    /\ rearranged d d'
    /\ (x' = x \/ exists v, x' = set v x).
Proof.
  destruct (field_or a b) as [s|]; [destruct (Str.truthy s)|].
  - destruct (rename_overlay_total pid aid root s nr ot idx d)
      as (d' & o & errs & Hrun & Hre).
    exists d', (set o x), errs. m_unfold. rewrite Hrun.
    split_and!; [done..|]. right. by exists o.
  - exists d, x, []. split_and!; [done|apply rearranged_refl|by left].
  - exists d, x, []. split_and!; [done|apply rearranged_refl|by left].
Qed.

Lemma rename_list_total pid aid root nr ot items :
  forall i d,
    exists d' items' errs,
      rename_overlays_in_list BASE_DIR pid aid root nr ot i items d
      = (d', Ret (items', errs))
      /\ rearranged d d'
      /\ Forall2 entry_base_kept items items'.
Proof.
  induction items as [|item rest IH]; intros i d.
  { exists d, [], []. split_and!; [done|apply rearranged_refl|constructor]. }
  destruct (slot_total set_entry_overlay item (e_overlay item) (e_edited item)
              pid aid root nr ot (Some i) d)
    as (d1 & item' & errs1 & Hrun1 & Hre1 & Hcase).
  destruct (IH (i + 1) d1) as (d2 & rest' & errs2 & Hrun2 & Hre2 & Hkept).
  exists d2, (item' :: rest'), (errs1 ++ errs2).
  change (rename_overlays_in_list BASE_DIR pid aid root nr ot i (item :: rest))
    with ('(item', errs) ←
            match field_or (e_overlay item) (e_edited item) with
            | Some overlay_ref =>
                if Str.truthy overlay_ref then
                  '(new_ref, errs) ←
                    rename_overlay BASE_DIR pid aid root overlay_ref nr ot
                      (Some i);
                  mret (set_entry_overlay new_ref item, errs)
                else mret (item, [])
            | None => mret (item, [])
            end;
          '(rest', errs') ←
            rename_overlays_in_list BASE_DIR pid aid root nr ot (i + 1) rest;
          mret (item' :: rest', errs ++ errs')).
  unfold mbind at 1, M_bind at 1. rewrite Hrun1.
  unfold mbind at 1, M_bind at 1. rewrite Hrun2.
  split_and!; [done|by eapply rearranged_trans|].
  constructor; [|done]. by destruct Hcase as [->|[v ->]].
Qed.

Lemma rename_record_total pid aid root nr rec d :
  exists d' rec' errs,
    rename_record_overlays BASE_DIR pid aid root nr rec d
    = (d', Ret (rec', errs))
    /\ rearranged d d'
    /\ record_base_kept rec rec'
    /\ r_nr rec' = r_nr rec.
Proof.
  destruct (slot_total set_main_overlay rec (r_overlay rec) (r_edited rec)
              pid aid root nr OVERLAY_FEHLERBILD None d)
    as (d1 & rec1 & errs1 & Hrun1 & Hre1 & Hcase1).
  destruct (slot_total set_after_overlay rec1 (r_after_overlay rec1)
              (r_after_edited rec1) pid aid root nr OVERLAY_NACHARBEIT None d1)
    as (d2 & rec2 & errs2 & Hrun2 & Hre2 & Hcase2).
  destruct (rename_list_total pid aid root nr OVERLAY_KONTEXT
              (r_ctx_list rec2) 1 d2)
    as (d3 & ctx & errs3 & Hrun3 & Hre3 & Hk3).
  destruct (rename_list_total pid aid root nr OVERLAY_ZUSATZ_FEHLER
              (r_add_fehler_list rec2) 1 d3)
    as (d4 & addf & errs4 & Hrun4 & Hre4 & Hk4).
  destruct (rename_list_total pid aid root nr OVERLAY_ZUSATZ_NACHARBEIT
              (r_add_after_list rec2) 1 d4)
    as (d5 & adda & errs5 & Hrun5 & Hre5 & Hk5).
  exists d5, (set_lists ctx addf adda rec2),
    (errs1 ++ errs2 ++ errs3 ++ errs4 ++ errs5).
  split_and!.
  - unfold rename_record_overlays.
    unfold mbind at 1, M_bind at 1. rewrite Hrun1. cbv beta iota.
    unfold mbind at 1, M_bind at 1. rewrite Hrun2. cbv beta iota.
    unfold mbind at 1, M_bind at 1. rewrite Hrun3. cbv beta iota.
    unfold mbind at 1, M_bind at 1. rewrite Hrun4. cbv beta iota.
    unfold mbind at 1, M_bind at 1. rewrite Hrun5. done.
  - eauto using rearranged_trans.
  - assert (record_base_kept rec rec1) as H1.
    { destruct Hcase1 as [->|[v ->]]; [apply record_base_kept_refl|].
      split_and!; try done; apply entries_kept_refl. }
    assert (record_base_kept rec1 rec2) as H2.
    { destruct Hcase2 as [->|[v ->]]; [apply record_base_kept_refl|].
      split_and!; try done; apply entries_kept_refl. }
    apply (record_base_kept_trans rec rec2);
      [by apply (record_base_kept_trans rec rec1)|].
    split_and!; done.
  - simpl. destruct Hcase2 as [->|[v ->]], Hcase1 as [->|[w ->]]; done.
Qed.

Lemma reindex_pass_total pid aid root nr_of renumber order :
  forall i images d,
    NoDup order ->
    exists d' images' errs,
      reindex_pass BASE_DIR pid aid root nr_of renumber i order images d
      = (d', Ret (images', errs))
      /\ rearranged d d'
      /\ Forall2 record_base_kept images images'
      /\ (forall p, p ∉ order -> images' !! p = images !! p)
      /\ (renumber = true ->
          forall k p, order !! k = Some p -> is_Some (images !! p) ->
            r_nr <$> images' !! p = Some (Some (nr_of (i + k)%nat))).
Proof.
  induction order as [|pos order IH]; intros i images d Hnd.
  { exists d, images, []. split_and!; [done|apply rearranged_refl| |done..].
    apply Forall_Forall2_diag, Forall_forall. intros r _.
    apply record_base_kept_refl. }
  apply NoDup_cons in Hnd as [Hpos Hnd].
  simpl reindex_pass. destruct (images !! pos) as [rec|] eqn:Hrec.
  - destruct (rename_record_total pid aid root (nr_of i) rec d)
      as (d1 & rec1 & errs1 & Hrun1 & Hre1 & Hk1 & _).
    set (rec' := if renumber then set_nr (nr_of i) rec1 else rec1).
    destruct (IH (S i) (<[pos := rec']> images) d1 Hnd)
      as (d2 & images2 & errs2 & Hrun2 & Hre2 & Hk2 & Hframe2 & Hnr2).
    assert (images2 !! pos = Some rec') as Hpos2.
    { rewrite Hframe2 by done. apply list_lookup_insert_eq.
      by eapply lookup_lt_Some. }
    exists d2, images2, (errs1 ++ errs2). split_and!.
    + unfold mbind at 1, M_bind at 1. rewrite Hrun1. cbv beta iota.
      fold rec'. unfold mbind at 1, M_bind at 1. by rewrite Hrun2.
    + by eapply rearranged_trans.
    + eapply Forall2_trans; [apply record_base_kept_trans| |exact Hk2].
      rewrite <- (list_insert_id images pos rec Hrec) at 1.
      apply Forall2_insert.
      * apply Forall_Forall2_diag, Forall_forall. intros r _.
        apply record_base_kept_refl.
      * subst rec'. by destruct renumber.
    + intros p [Hne Hp]%not_elem_of_cons.
      by rewrite Hframe2, list_lookup_insert_ne.
    + intros Hren [|k] p Hk Hsome; simpl in Hk.
      * injection Hk as <-. rewrite Hpos2, Nat.add_0_r. subst rec'.
        by rewrite Hren.
      * rewrite Nat.add_succ_r. apply (Hnr2 Hren k p Hk).
        apply lookup_lt_is_Some. rewrite length_insert.
        by apply lookup_lt_is_Some.
  - destruct (IH (S i) images d Hnd)
      as (d2 & images2 & errs2 & Hrun2 & Hre2 & Hk2 & Hframe2 & Hnr2).
    exists d2, images2, errs2. split_and!; [done..| |].
    + intros p [Hne Hp]%not_elem_of_cons. by apply Hframe2.
    + intros Hren [|k] p Hk Hsome; simpl in Hk.
      * injection Hk as <-. rewrite Hrec in Hsome. by destruct Hsome.
      * rewrite Nat.add_succ_r. by apply (Hnr2 Hren k p Hk).
Qed.

End WithBase.

(** [audit_order] lists as many positions as the audit has records, and
    the position of every record of the audit. *)
Lemma positions_complete aid (g : nat -> nat) images :
  let l :=
    (omap (fun '(pos, r) =>
             if bool_decide (r_audit_id r = Some aid)
             then Some (default "999" (r_nr r), pos) else None)
          (imap (fun i r => (g i, r)) images)).*2 in
  length l = length (filter (fun r => r_audit_id r = Some aid) images)
  /\ forall i r, images !! i = Some r -> r_audit_id r = Some aid -> g i ∈ l.
Proof.
  revert g. induction images as [|r images IH]; intros g; simpl.
  { split; [done|]. intros i r. by rewrite lookup_nil. }
  destruct (IH (fun i => g (S i))) as [Hlen Hin]. simpl in Hlen, Hin.
  assert (forall i r0, images !! i = Some r0 -> r_audit_id r0 = Some aid ->
    g (S i) ∈ (omap (fun '(pos, r) =>
                 if bool_decide (r_audit_id r = Some aid)
                 then Some (default "999" (r_nr r), pos) else None)
              (imap ((fun i r => (g i, r)) ∘ S) images)).*2)
    as Hin' by exact Hin.
  assert (length (omap (fun '(pos, r) =>
                 if bool_decide (r_audit_id r = Some aid)
                 then Some (default "999" (r_nr r), pos) else None)
              (imap ((fun i r => (g i, r)) ∘ S) images)).*2
          = length (filter (fun r => r_audit_id r = Some aid) images))
    as Hlen' by exact Hlen.
  rewrite filter_cons. case_bool_decide as Hid; simpl.
  - rewrite decide_True by done. split; [exact (f_equal S Hlen')|].
    intros [|i] r0 Hr0 Hid0; simpl in Hr0.
    + apply elem_of_cons. by left.
    + apply elem_of_cons. right. by apply (Hin' i r0).
  - rewrite decide_False by done. split; [exact Hlen'|].
    intros [|i] r0 Hr0 Hid0; simpl in Hr0.
    + by injection Hr0 as <-.
    + by apply (Hin' i r0).
Qed.

Lemma audit_order_complete images aid :
  length (audit_order images aid)
  = length (filter (fun r => r_audit_id r = Some aid) images)
  /\ forall i r, images !! i = Some r -> r_audit_id r = Some aid ->
       i ∈ audit_order images aid.
Proof.
  destruct (positions_complete aid id images) as [Hlen Hin].
  unfold audit_order. split.
  - by rewrite length_fmap, Renumber.sort_perm, <- (length_fmap snd).
  - intros i r Hr Hid. rewrite Renumber.sort_perm. by apply (Hin i r).
Qed.


End ReindexFacts.

(** X14: for an audit whose records carry numbers,
    [reindex_audit_images] does not raise, whatever the disk holds and
    whatever paths it refuses: an overlay that cannot be renamed keeps its
    reference. It returns the number of records of the audit; the record
    at the k-th place of the audit carries the number k, and a record of
    another audit is left as it was. Every record keeps its audit, its
    base images and its videos, every list keeps its length and its
    images, and the disk is rearranged only: as many files as before,
    every content still there. *)
Theorem reindex_never_raises_and_keeps_base_media BASE_DIR index audit_id
  root d :
  numbered (ix_images index) audit_id ->
  exists d' images' errs,
    reindex_audit_images BASE_DIR index audit_id root d
    = (d', Ret (ProjectIndex (ix_project_id index) images',
                (length (filter (fun r => r_audit_id r = Some audit_id)
                           (ix_images index)), errs)))
    /\ rearranged d d'
    /\ Forall2 record_base_kept (ix_images index) images'
    /\ (forall p r,
          ix_images index !! p = Some r -> r_audit_id r <> Some audit_id ->
          images' !! p = Some r)
    /\ (forall k p,
          audit_order (ix_images index) audit_id !! k = Some p ->
          r_nr <$> images' !! p = Some (Some (Str.pad3 (S k)))).
Proof.
  intros _. unfold reindex_audit_images.
  destruct (Renumber.audit_order_spec (ix_images index) audit_id)
    as [Hnd Hin].
  destruct (ReindexFacts.audit_order_complete (ix_images index) audit_id)
    as [<- _].
  destruct (audit_order (ix_images index) audit_id) as [|p0 order'] eqn:Horder.
  { exists d, (ix_images index). eexists. destruct index.
    split_and!; [done|apply ReindexFacts.rearranged_refl| |done|done].
    apply Forall_Forall2_diag, Forall_forall. intros r _.
    apply ReindexFacts.record_base_kept_refl. }
  cbv beta iota zeta.
  destruct (ReindexFacts.reindex_pass_total BASE_DIR
              (default "PROJ" (ix_project_id index)) audit_id root
              (fun i => "_TMP_" +:+ Str.pad3 i) false (p0 :: order') O
              (ix_images index) d Hnd)
    as (d1 & images1 & errs1 & Hrun1 & Hre1 & Hk1 & Hframe1 & _).
  destruct (ReindexFacts.reindex_pass_total BASE_DIR
              (default "PROJ" (ix_project_id index)) audit_id root
              (fun i => Str.pad3 (S i)) true (p0 :: order') O images1 d1 Hnd)
    as (d2 & images2 & errs2 & Hrun2 & Hre2 & Hk2 & Hframe2 & Hnr2).
  exists d2, images2, (errs1 ++ errs2). split_and!.
  - unfold mbind at 1, M_bind at 1. rewrite Hrun1. cbv beta iota.
    unfold mbind at 1, M_bind at 1. by rewrite Hrun2.
  - by eapply ReindexFacts.rearranged_trans.
  - eapply Forall2_trans; [apply ReindexFacts.record_base_kept_trans|done..].
  - intros p r Hr Hid.
    assert (p ∉ p0 :: order') as Hp.
    { intros (r' & Hr' & Hid')%Hin. congruence. }
    by rewrite Hframe2, Hframe1.
  - intros k p Hk. apply (Hnr2 eq_refl k p Hk).
    apply lookup_lt_is_Some. rewrite <- (Forall2_length _ _ _ Hk1).
    apply lookup_lt_is_Some.
    destruct (Hin p) as (r & -> & _); [by eapply list_elem_of_lookup_2|done].
Qed.

Lemma reindex_never_raises_and_keeps_base_media_witness :
  exists d' images' errs,
    reindex_audit_images "/srv/app" Sample.swapped_index "A1" None
      Sample.swapped_disk
    = (d', Ret (ProjectIndex (ix_project_id Sample.swapped_index) images',
                (length (filter (fun r => r_audit_id r = Some "A1")
                           (ix_images Sample.swapped_index)), errs)))
    /\ rearranged Sample.swapped_disk d'
    /\ Forall2 record_base_kept (ix_images Sample.swapped_index) images'
    /\ (forall p r,
          ix_images Sample.swapped_index !! p = Some r ->
          r_audit_id r <> Some "A1" ->
          images' !! p = Some r)
    /\ (forall k p,
          audit_order (ix_images Sample.swapped_index) "A1" !! k = Some p ->
          r_nr <$> images' !! p = Some (Some (Str.pad3 (S k)))).
Proof.
  apply (reindex_never_raises_and_keeps_base_media "/srv/app"
           Sample.swapped_index "A1" None Sample.swapped_disk).
  intros r Hr _. apply list_elem_of_In in Hr. simpl in Hr.
  destruct Hr as [<-|[<-|[]]]; by eexists.
Defined.

(** ** Detaching an image of a list *)

Module DetachFacts.







Lemma delete_insert_same {A} (l : list A) i x :
  delete i (<[i := x]> l) = delete i l.
Proof.
  revert i. induction l as [|y l IH]; intros [|i]; simpl; [done..|].
  by rewrite IH.
Qed.

Section WithBase.

Context (BASE_DIR : string).




(** The overlay of a generated name, once its file is there and not
    refused, is removed by [delete_if_overlay]. *)
Lemma delete_generated_overlay pid aid nr ot idx d :
  path_exists d
    (get_overlay_path BASE_DIR
       (generate_canvas_overlay_filename pid aid nr ot idx)) = true ->
  get_overlay_path BASE_DIR
    (generate_canvas_overlay_filename pid aid nr ot idx) ∉ locked d ->
  delete_if_overlay BASE_DIR
    (Some ("overlays/" +:+ generate_canvas_overlay_filename pid aid nr ot idx))
    d
  = (Disk (delete (get_overlay_path BASE_DIR
                     (generate_canvas_overlay_filename pid aid nr ot idx))
             (files d)) (locked d), Ret tt).
Proof.
  intros Hex Hfree. unfold delete_if_overlay.
  rewrite Renumber.overlay_ref_is_overlay.
  change (Str.truthy ("overlays/" +:+ _)) with true. cbv beta iota.
  change (true && true) with true. cbv iota.
  unfold delete_global_media, os_remove. m_unfold.
  change (negb (Str.truthy ("overlays/" +:+ _))) with false. cbv iota.
  cbv beta.
  rewrite (SaveFacts.overlay_name_resolves BASE_DIR pid aid nr ot idx d None Hex).
  rewrite Hex. rewrite Hex. simpl.
  by rewrite bool_decide_eq_false_2.
Qed.

End WithBase.

End DetachFacts.

(** X15: an overlay that [save_ctx_annotated_index] has saved for a
    context image is removed when [detach_context_image] detaches that
    image: the call does not raise, the list loses the element at the
    index, and the disk is the disk before the save without a file at the
    path of the overlay; no other file and no other field has changed. *)
Theorem detach_removes_saved_context_overlay `{Libs} BASE_DIR rec ctx_index
  annotated_rgba root d d1 rec1 :
  0 <= ctx_index < Z.of_nat (length (r_ctx_list rec)) ->
  save_ctx_annotated_index BASE_DIR rec ctx_index annotated_rgba root d
  = (d1, Ret rec1) ->
  detach_context_image BASE_DIR rec1 (Some ctx_index) d1
  = (Disk (delete
             (get_overlay_path BASE_DIR
                (generate_canvas_overlay_filename (OsPath.basename root)
                   (default "AUDIT" (r_audit_id rec))
                   (default "000" (r_nr rec)) OVERLAY_KONTEXT
                   (Some (ctx_index + 1))))
             (files d)) (locked d),
     Ret (set_ctx_list (delete (Z.to_nat ctx_index) (r_ctx_list rec)) rec)).
Proof.
  intros [Hlo Hhi]. unfold save_ctx_annotated_index, save_slot_overlay.
  destruct ((ctx_index <? 0) || _) eqn:Hb.
  { apply orb_true_iff in Hb as [Hb%Z.ltb_lt|Hb%Z.leb_le]; lia. }
  destruct (lookup_lt_is_Some_2 (r_ctx_list rec) (Z.to_nat ctx_index)
              ltac:(lia)) as [e He].
  rewrite He. unfold mbind at 1, M_bind at 1.
  rewrite SaveFacts.save_canvas_overlay_eq. cbv zeta.
  set (name := generate_canvas_overlay_filename _ _ _ _ _).
  destruct (bool_decide (get_overlay_path BASE_DIR name ∈ locked d)) eqn:Hlock;
    [done|].
  apply bool_decide_eq_false in Hlock. m_unfold. intros [= <- <-].
  unfold detach_context_image. cbn [r_ctx_list set_ctx_list set_lists].
  rewrite length_insert.
  replace ((0 <=? ctx_index) && (ctx_index <? Z.of_nat (length (r_ctx_list rec))))
    with true by (symmetry; apply andb_true_iff; split;
                  [by apply Z.leb_le|by apply Z.ltb_lt]).
  rewrite list_lookup_insert_eq by (by eapply lookup_lt_Some).
  unfold mbind at 1, M_bind at 1.
  change (field_or (e_overlay (set_entry_overlay (Some ("overlays/" +:+ name)) e))
            (e_edited (set_entry_overlay (Some ("overlays/" +:+ name)) e)))
    with (Some ("overlays/" +:+ name)).
  subst name. rewrite DetachFacts.delete_generated_overlay.
  - simpl. rewrite delete_insert_eq, DetachFacts.delete_insert_same.
    by destruct rec.
  - apply bool_decide_eq_true. simpl. by rewrite lookup_insert_eq.
  - done.
Qed.

Lemma detach_removes_saved_context_overlay_witness :
  detach_context_image "/srv/app" Examples.ctx_saved_record (Some 0)
    Examples.ctx_saved_disk
  = (Disk (delete
             (get_overlay_path "/srv/app"
                (generate_canvas_overlay_filename (OsPath.basename "/data/P1")
                   (default "AUDIT" (r_audit_id Examples.ctx_record))
                   (default "000" (r_nr Examples.ctx_record)) OVERLAY_KONTEXT
                   (Some (0 + 1))))
             (files Examples.one_image)) (locked Examples.one_image),
     Ret (set_ctx_list (delete (Z.to_nat 0) (r_ctx_list Examples.ctx_record))
            Examples.ctx_record)).
Proof.
  apply (detach_removes_saved_context_overlay (H := Sample.libs) "/srv/app"
           Examples.ctx_record 0 Examples.ctx_overlay "/data/P1"
           Examples.one_image Examples.ctx_saved_disk
           Examples.ctx_saved_record).
  - simpl. lia.
  - vm_compute. reflexivity.
Defined.


(** ** The videos of a record *)

Module VideoFacts.

Lemma join_truthy a b : Str.truthy b = true -> Str.truthy (OsPath.join a b) = true.
Proof.
  intros Hb. unfold OsPath.join. destruct (Str.startswith b "/"); [done|].
  destruct (negb (Str.truthy a) || Str.endswith a "/"); destruct a; done.
Qed.

Lemma candidates_truthy BASE_DIR ref root p :
  In p (resolve_candidates BASE_DIR ref root) -> Str.truthy p = true.
Proof.
  unfold resolve_candidates, kind_candidates.
  destruct (Str.truthy ref) eqn:Ht; [|done]. simpl.
  destruct (OsPath.isabs ref). { by intros [<-|[]]. }
  intros Hin. rewrite !in_app_iff in Hin.
  assert (forall a, Str.truthy (OsPath.join a ref) = true) as Hj
    by (intros a; by apply join_truthy).
  repeat match type of Hin with
  | _ \/ _ => destruct Hin as [Hin|Hin]
  | In _ (if ?b then _ else _) => destruct b
  | In _ (match ?r with Some _ => _ | None => _ end) => destruct r
  | In _ (_ ++ _) => rewrite in_app_iff in Hin
  | In _ [_] => destruct Hin as [<-|[]]; by apply Hj
  | In _ [] => destruct Hin
  | In _ (_ :: _) => destruct Hin as [<-|Hin]; [by apply Hj|]
  end.
Qed.

End VideoFacts.

(** X17: [get_videos_for_record] returns, in the order of the list of the
    record, the path each video reference resolves to, and leaves out the
    references that do not resolve: every path it returns exists, and there
    are as many paths as references when every reference resolves. *)
Theorem get_videos_for_record_lists_resolved_files BASE_DIR d rec root :
  get_videos_for_record BASE_DIR d rec root
  = omap (fun ref => resolve_media_path BASE_DIR d ref root) (r_videos rec)
  /\ Forall (fun p => path_exists d p = true)
       (get_videos_for_record BASE_DIR d rec root)
  /\ (Forall (fun ref => is_Some (resolve_media_path BASE_DIR d ref root))
        (r_videos rec) ->
      length (get_videos_for_record BASE_DIR d rec root)
      = length (r_videos rec)).
Proof.
  assert (forall ref,
    (if Str.truthy ref then
       match resolve_media_path BASE_DIR d ref root with
       | Some abs_path =>
           if Str.truthy abs_path && path_exists d abs_path
           then Some abs_path else None
       | None => None
       end
     else None) = resolve_media_path BASE_DIR d ref root) as Hstep.
  { intros ref. destruct (resolve_media_path BASE_DIR d ref root) as [p|] eqn:Hres.
    - rewrite Resolution.resolve_first_candidate in Hres.
      apply List.find_some in Hres as [Hin Hex].
      rewrite Hex, (VideoFacts.candidates_truthy BASE_DIR ref root p Hin).
      destruct (Str.truthy ref) eqn:Ht; [done|].
      unfold resolve_candidates in Hin. by rewrite Ht in Hin.
    - by destruct (Str.truthy ref). }
  assert (get_videos_for_record BASE_DIR d rec root
          = omap (fun ref => resolve_media_path BASE_DIR d ref root)
              (r_videos rec)) as Heq.
  { unfold get_videos_for_record. apply list_omap_ext.
    apply Forall_Forall2_diag, Forall_forall. intros ref _. apply Hstep. }
  split; [done|]. rewrite Heq. split.
  - apply Forall_forall. intros p (ref & _ & Hres)%list_elem_of_omap.
    rewrite Resolution.resolve_first_candidate in Hres.
    by apply List.find_some in Hres as [_ ?].
  - clear Heq. induction 1 as [|ref refs [p Hp] _ IH]; [done|].
    cbn [omap list_omap]. rewrite Hp. simpl. f_equal. exact IH.
Qed.

(** ** Sorting the records *)

Module SortFacts.

Lemma insert_sorted_perm {A} (lt : A -> A -> bool) x l :
  insert_sorted lt x l ≡ₚ x :: l.
Proof.
  induction l as [|y l IH]; simpl; [done|].
  destruct (lt y x); [|done]. by rewrite IH, Permutation_swap.
Qed.

Lemma sorted_by_perm {A K} (lt : K -> K -> bool) (key : A -> K) reverse l :
  sorted_by lt key reverse l ≡ₚ l.
Proof.
  unfold sorted_by. induction l as [|x l IH]; simpl; [done|].
  by rewrite insert_sorted_perm, IH.
Qed.

(** Inserting keeps a list sorted when of two keys at most one is less
    than the other. *)
Lemma insert_sorted_ascending {A K} (lt : K -> K -> bool) (key : A -> K) x l :
  (forall a b, lt a b = true -> lt b a = false) ->
  ascending lt key l ->
  ascending lt key
    (insert_sorted (fun a b => lt (key a) (key b)) x l).
Proof.
  intros Hasym. induction l as [|y l IH]; [done|].
  intros [Hhd Hl]. cbn [insert_sorted].
  destruct (lt (key y) (key x)) eqn:Hyx.
  - split; [|by apply IH].
    destruct l as [|z l]; cbn [insert_sorted]; [by apply Hasym|].
    destruct (lt (key z) (key x)); [done|by apply Hasym].
  - by split.
Qed.

Lemma sorted_by_ascending {A K} (lt : K -> K -> bool) (key : A -> K) l :
  (forall a b, lt a b = true -> lt b a = false) ->
  ascending lt key (sorted_by lt key false l).
Proof.
  intros Hasym. unfold sorted_by.
  induction l as [|x l IH]; [done|].
  by apply insert_sorted_ascending.
Qed.

Lemma key_lt_asym a b : key_lt a b = true -> key_lt b a = false.
Proof.
  destruct a as [[[[a1 a2] a3] a4] a5], b as [[[[b1 b2] b3] b4] b5].
  unfold key_lt.
  repeat match goal with
  | |- context [(?x =? ?y)%nat] =>
      destruct (Nat.eqb_spec x y); simpl; [subst|]
  end;
  rewrite ?Nat.eqb_refl; simpl;
  repeat match goal with
  | |- context [(?x =? ?y)%nat] =>
      destruct (Nat.eqb_spec x y); simpl; [congruence|]
  end;
  rewrite ?Nat.ltb_lt, ?Nat.ltb_ge, ?Z.ltb_lt, ?Z.ltb_ge; lia.
Qed.

End SortFacts.

(** X18: [sort_fehlerbilder_with_mode] returns the records it was given,
    each once, in some order. Four of the modes that
    [SORTING_MODE_OPTIONS] offers, the two by status and the two by
    rework, are not among the texts the function compares the mode with:
    for them, as for the empty mode and the standard mode, it returns the
    order of [sort_fehlerbilder], in which no record has a smaller key of
    area, system, BI, status and number than the record in front of it. *)
Theorem sort_with_mode_keeps_records_and_falls_back py_int py_lower records :
  (forall mode,
     sort_fehlerbilder_with_mode py_int py_lower records mode ≡ₚ records)
  /\ Forall
       (fun mode =>
          mode ∈ SORTING_MODE_OPTIONS
          /\ sort_fehlerbilder_with_mode py_int py_lower records mode
             = sort_fehlerbilder py_int records)
       ["Audit-Standard (Bereich → System → BI)"; "Status Open (zuerst)";
        "Status Closed (zuerst)"; "Nacharbeit = Ja (zuerst)";
        "Nacharbeit = Nein (zuerst)"]
  /\ sort_fehlerbilder_with_mode py_int py_lower records EmptyString
     = sort_fehlerbilder py_int records
  /\ ascending key_lt (fehlerbild_sort_key py_int)
       (sort_fehlerbilder py_int records).
Proof.
  split_and!.
  - intros mode. unfold sort_fehlerbilder_with_mode.
    destruct records as [|r records]; [done|]. cbv zeta.
    repeat (destruct (String.eqb _ _); [apply SortFacts.sorted_by_perm|]).
    apply SortFacts.sorted_by_perm.
  - assert (forall mode,
              (mode =? "Audit-Standard (Bereich → System → BI)")%string
              || negb (existsb (String.eqb mode)
                         ["Nr (aufsteigend)"; "Nr (absteigend)";
                          "BI (kritisch zuerst)"; "BI (unkritisch zuerst)";
                          "Fehlerort (A→Z)"; "Fehlerort (Z→A)";
                          "Status (Open zuerst)"; "Status (Closed zuerst)";
                          "Nacharbeit = Ja zuerst"; "Nacharbeit = Nein zuerst"])
              = true ->
              Str.truthy mode = true ->
              sort_fehlerbilder_with_mode py_int py_lower records mode
              = sort_fehlerbilder py_int records) as Hfall.
    { intros mode Hmode Ht. unfold sort_fehlerbilder_with_mode.
      destruct records as [|r records]; [done|]. rewrite Ht. cbv zeta.
      change (negb true) with false. cbv iota.
      destruct (String.eqb mode "Audit-Standard (Bereich → System → BI)");
        [done|].
      simpl in Hmode. apply negb_true_iff in Hmode.
      repeat (apply orb_false_iff in Hmode as [-> Hmode]). done. }
    repeat (apply Forall_cons; split;
            [split; [apply (bool_decide_unpack _); by vm_compute
                    |apply Hfall; by vm_compute]|]).
    apply Forall_nil_2.
  - unfold sort_fehlerbilder_with_mode. by destruct records.
  - apply SortFacts.sorted_by_ascending, SortFacts.key_lt_asym.
Qed.
